(** * botlib: the webhook receiver, its dispatcher and its media sinks

    A shallow embedding of [src/botlib/botlib.py].  Python values that
    come out of [json.loads] are a small inductive type, the functions
    of the module are written in a state-and-exception monad over a
    [World] (the event trace, the in-memory media cache and the log
    directory), and every collaborator the module talks to (the HTTP
    client, the filesystem, the database driver, the clock, the asyncio
    loop) answers through an [Env] whose answers may depend on the whole
    history of the run. *)

From Stdlib Require Import ZArith QArith List String Ascii Bool Lia.
From Stdlib Require Import DecimalString.
From Stdlib Require Strings.Byte.
Import ListNotations.

Local Open Scope string_scope.
Local Open Scope Z_scope.
Local Open Scope list_scope.

(** ** Python values

    A [str] is a [string] holding its UTF-8 encoding, one [ascii] for
    each byte, so a character takes one to four of them (a lone
    surrogate, which JSON can carry, the three its number gives); the
    functions that count or classify characters ([strip], [prefix]) go
    by character, the others ([startswith], [replace_char], [basename],
    the comparisons) give on the encoding what Python gives on the
    characters.  [time.time()] and modification times are rationals, in
    seconds. *)

Module Py.

(** Exceptions.  Everything here is a subclass of [Exception], which is
    what every [except Exception] of the module catches;
    [KeyboardInterrupt], [SystemExit] and [asyncio.CancelledError] are
    not modelled. *)
Inductive exn : Type :=
| AttributeError
| TypeError
| KeyError
| IndexError
| ValueError (msg : string)
| PlainException (msg : string)
| HTTPException (status_code : Z) (detail : string)
| ExternalError (origin : string).

Inductive result (A : Type) : Type :=
| Ok (a : A)
| Raise (e : exn).
Arguments Ok {A} a.
Arguments Raise {A} e.

Definition bytes := list Byte.byte.

(** A Python [float]: finite values are dyadic [m * 2^e]. *)
Inductive pyfloat : Type :=
| FFinite (m e : Z)
| FInf (negative : bool)
| FNan.

(** What [json.loads] produces.  A [dict] keeps its insertion order; a
    key is looked up by the first pair that carries it. *)
#[warnings="-register-all"]
Inductive json : Type :=
| JNull
| JBool (b : bool)
| JInt (n : Z)
| JFloat (x : pyfloat)
| JStr (s : string)
| JList (l : list json)
| JDict (d : list (string * json)).

(** [bool(v)] *)
Definition truthy (v : json) : bool :=
  match v with
  | JNull => false
  | JBool b => b
  | JInt n => negb (n =? 0)
  | JFloat (FFinite m _) => negb (m =? 0)
  | JFloat _ => true
  | JStr s => negb (String.eqb s EmptyString)
  | JList l => match l with [] => false | _ => true end
  | JDict d => match d with [] => false | _ => true end
  end.

Definition is_none (v : json) : bool :=
  match v with JNull => true | _ => false end.

Definition is_list (v : json) : bool :=
  match v with JList _ => true | _ => false end.

Fixpoint lookup (k : string) (d : list (string * json)) : option json :=
  match d with
  | [] => None
  | (k', v) :: d' => if String.eqb k k' then Some v else lookup k d'
  end.

(** [k in d] for a dict [d] *)
Definition dict_has (k : string) (d : list (string * json)) : bool :=
  match lookup k d with Some _ => true | None => false end.

(** [v.get(k, default)]: only a dict has [get] among decoded values *)
Definition get (v : json) (k : string) (default : json) : result json :=
  match v with
  | JDict d => Ok (match lookup k d with Some x => x | None => default end)
  | _ => Raise AttributeError
  end.

(** [d[k]] for a dict [d] *)
Definition getitem (d : list (string * json)) (k : string) : result json :=
  match lookup k d with Some x => Ok x | None => Raise KeyError end.

(** [s in t] for two strings: [s] occurs in [t] *)
Fixpoint startswith (s p : string) {struct p} : bool :=
  match p with
  | EmptyString => true
  | String c p' =>
      match s with
      | EmptyString => false
      | String d s' => Ascii.eqb c d && startswith s' p'
      end
  end.

Fixpoint occurs_in (p s : string) : bool :=
  startswith s p ||
  match s with
  | EmptyString => false
  | String _ s' => occurs_in p s'
  end.

Definition is_str (k : string) (v : json) : bool :=
  match v with JStr s => String.eqb s k | _ => false end.

(** [k in v] for a string [k] *)
Definition contains (v : json) (k : string) : result bool :=
  match v with
  | JDict d => Ok (dict_has k d)
  | JList l => Ok (existsb (is_str k) l)
  | JStr s => Ok (occurs_in k s)
  | _ => Raise TypeError
  end.

(** [v[k]] for a string [k] *)
Definition subscript (v : json) (k : string) : result json :=
  match v with
  | JDict d => getitem d k
  | _ => Raise TypeError
  end.

(** [list(v.keys())] *)
Definition keys (v : json) : result (list string) :=
  match v with
  | JDict d => Ok (map fst d)
  | _ => Raise AttributeError
  end.

(** [l[i]] for a list [l] and an index of either sign *)
Definition index {A : Type} (l : list A) (i : Z) : result A :=
  let n := Z.of_nat (List.length l) in
  let j := if i <? 0 then i + n else i in
  if (j <? 0) || (n <=? j) then Raise IndexError
  else match nth_error l (Z.to_nat j) with
       | Some x => Ok x
       | None => Raise IndexError
       end.

(** *** Strings *)

Definition rev_string (s : string) : string :=
  string_of_list_ascii (rev (list_ascii_of_string s)).

Definition endswith (s p : string) : bool :=
  startswith (rev_string s) (rev_string p).

(** [s.replace(a, b)] for one-character [a] and [b] *)
Fixpoint replace_char (a b : ascii) (s : string) : string :=
  match s with
  | EmptyString => EmptyString
  | String c s' => String (if Ascii.eqb c a then b else c) (replace_char a b s')
  end.

Fixpoint contains_char (a : ascii) (s : string) : bool :=
  match s with
  | EmptyString => false
  | String c s' => Ascii.eqb c a || contains_char a s'
  end.

(** [str.isspace], on the encoding of a character: the control
    characters U+0009 to U+000D and U+001C to U+001F and the space, in
    one byte; U+0085 and U+00A0, in two; U+1680, U+2000 to U+200A,
    U+2028, U+2029, U+202F, U+205F and U+3000, in three. *)
Definition isspace1 (a : ascii) : bool :=
  let n := nat_of_ascii a in
  ((9 <=? n) && (n <=? 13) || (28 <=? n) && (n <=? 32))%nat.

Definition isspace2 (a b : ascii) : bool :=
  let n := nat_of_ascii a in
  let m := nat_of_ascii b in
  ((n =? 194) && ((m =? 133) || (m =? 160)))%nat.

Definition isspace3 (a b c : ascii) : bool :=
  let n := nat_of_ascii a in
  let m := nat_of_ascii b in
  let k := nat_of_ascii c in
  ((n =? 225) && (m =? 154) && (k =? 128)
   || (n =? 226) && (m =? 128)
      && ((128 <=? k) && (k <=? 138) || (k =? 168) || (k =? 169) || (k =? 175))
   || (n =? 226) && (m =? 129) && (k =? 159)
   || (n =? 227) && (m =? 128) && (k =? 128))%nat.

(** Drops the leading characters that [p1], [p2] or [p3] recognise from
    their one, two or three bytes. *)
Fixpoint drop_leading (p1 : ascii -> bool) (p2 : ascii -> ascii -> bool)
         (p3 : ascii -> ascii -> ascii -> bool) (s : string) : string :=
  match s with
  | EmptyString => EmptyString
  | String a r =>
      if p1 a then drop_leading p1 p2 p3 r
      else match r with
           | EmptyString => s
           | String b r2 =>
               if p2 a b then drop_leading p1 p2 p3 r2
               else match r2 with
                    | EmptyString => s
                    | String c r3 =>
                        if p3 a b c then drop_leading p1 p2 p3 r3 else s
                    end
           end
  end.

(** [s.lstrip()] *)
Definition lstrip (s : string) : string :=
  drop_leading isspace1 isspace2 isspace3 s.

(** [s.rstrip()]: the same scan from the end, where the bytes of a
    character come last byte first *)
Definition rstrip (s : string) : string :=
  rev_string (drop_leading isspace1 (fun b a => isspace2 a b)
                           (fun c b a => isspace3 a b c) (rev_string s)).

(** [s.strip()] *)
Definition strip (s : string) : string := rstrip (lstrip s).

(** A byte [10xxxxxx] continues the character begun before it. *)
Definition continuation (a : ascii) : bool :=
  let n := nat_of_ascii a in ((128 <=? n) && (n <=? 191))%nat.

(** [s[:n]]: the first [n] characters, each with all its bytes *)
Fixpoint prefix (n : nat) (s : string) : string :=
  match s with
  | EmptyString => EmptyString
  | String a r =>
      if continuation a then String a (prefix n r)
      else match n with
           | O => EmptyString
           | S n' => String a (prefix n' r)
           end
  end.

(** [str(n)] for an [int] *)
Definition str_of_int (n : Z) : string :=
  NilZero.string_of_int (Z.to_int n).

(** [sep.join(l)]: every element has to be a [str] *)
Fixpoint join (sep : string) (l : list json) : result string :=
  match l with
  | [] => Ok EmptyString
  | [JStr s] => Ok s
  | JStr s :: l' =>
      match join sep l' with
      | Ok r => Ok (s ++ sep ++ r)%string
      | Raise e => Raise e
      end
  | _ => Raise TypeError
  end.

(** *** Paths ([posixpath]) *)

Definition sep : ascii := "/"%char.

(** [os.path.join(a, b)] *)
Definition path_join (a b : string) : string :=
  if startswith b (String sep EmptyString) then b
  else if String.eqb a EmptyString || endswith a (String sep EmptyString)
       then (a ++ b)%string
       else (a ++ String sep b)%string.

(** The part of [s] after its last separator, scanning with the part
    read since the last separator in [acc]. *)
Fixpoint after_last_sep (acc s : string) : string :=
  match s with
  | EmptyString => acc
  | String c s' =>
      if Ascii.eqb c sep then after_last_sep EmptyString s'
      else after_last_sep (acc ++ String c EmptyString)%string s'
  end.

(** [os.path.basename(p)] for [p : str] *)
Definition basename (p : string) : string := after_last_sep EmptyString p.

(** [os.path.basename(v)]: [os.fspath] refuses what is not a path *)
Definition basename_of (v : json) : result string :=
  match v with
  | JStr p => Ok (basename p)
  | _ => Raise TypeError
  end.

(** *** Hashing and key equality, for values used as dict keys *)

Definition hashable (v : json) : bool :=
  match v with
  | JList _ | JDict _ => false
  | _ => true
  end.

(** The number a [bool], [int] or finite [float] stands for, as a
    dyadic [(m, e)] *)
Definition numeric (v : json) : option (Z * Z) :=
  match v with
  | JBool b => Some (if b then 1 else 0, 0)
  | JInt n => Some (n, 0)
  | JFloat (FFinite m e) => Some (m, e)
  | _ => None
  end.

Definition dyadic_eqb (x y : Z * Z) : bool :=
  let '(m1, e1) := x in
  let '(m2, e2) := y in
  let lo := Z.min e1 e2 in
  (m1 * 2 ^ (e1 - lo) =? m2 * 2 ^ (e2 - lo)).

(** [a == b] between two hashable decoded values, as a dict compares
    keys; two [nan] keys decoded separately are never the same key. *)
Definition key_eqb (a b : json) : bool :=
  match numeric a, numeric b with
  | Some x, Some y => dyadic_eqb x y
  | _, _ =>
      match a, b with
      | JNull, JNull => true
      | JStr s, JStr t => String.eqb s t
      | JFloat (FInf s), JFloat (FInf t) => Bool.eqb s t
      | _, _ => false
      end
  end.

End Py.

Import Py.

(** ** The world the module runs in *)

Inductive level : Type := LvDebug | LvInfo | LvWarning | LvError.

(** An argument of a logging call: a value or the exception caught *)
Inductive logarg : Type :=
| LJ (v : json)
| LX (e : exn).

(** The [files] argument of [requests.post] *)
Inductive upload : Type :=
| UploadBytes (field filename : string) (content : bytes)
| UploadFile (field path : string).

Definition dict := list (string * json).

(** What the module does to the outside, each with the answer it got *)
Inductive event : Type :=
| EvLog (lv : level) (fmt : string) (args : list logarg)
| EvPost (url : string) (data : option dict) (files : option upload)
         (answer : result json)
| EvGet (base : string) (file_path : json) (answer : result bytes)
| EvOpen (path : string) (failure : option exn)
| EvWrite (path : string) (content : bytes) (failure : option exn)
| EvInsert (user_id file_id : json) (media_type : string)
           (file_name : option string) (data : bytes) (failure : option exn)
| EvListdir (path : string) (failure : option exn)
| EvGetmtime (path : string) (answer : result Q)
| EvRemove (path : string) (failure : option exn)
| EvSpawn (payload : json) (failure : option exn)
| EvDispatch (update : json).

(** The collaborators.  Each answer may depend on everything that
    happened before it (the trace, most recent event first).
    - [requests_post]: [requests.post], [raise_for_status] and
      [resp.json()] together: the decoded body or what was raised;
    - [requests_get]: [requests.get], [raise_for_status], [r.content];
    - [open_rb], [write_file]: [open(path, "rb")] and
      [open(path, "wb")] followed by [f.write];
    - [db_insert]: [psycopg2.connect], the [INSERT] and the commit;
    - [time_time]: [time.time()], in seconds;
    - [os_listdir], [os_getmtime], [os_remove]: whether the call raises;
    - [create_task]: [asyncio.create_task(asyncio.to_thread(...))];
    - [json_dumps]: [json.dumps(v, ensure_ascii=False)]. *)
Record Env : Type := {
  requests_post : list event -> string -> option dict -> option upload -> result json;
  requests_get : list event -> string -> json -> result bytes;
  open_rb : list event -> string -> option exn;
  write_file : list event -> string -> bytes -> option exn;
  db_insert : list event -> json -> json -> string -> option string -> bytes -> option exn;
  time_time : list event -> Q;
  os_listdir : list event -> string -> option exn;
  os_getmtime : list event -> string -> option exn;
  os_remove : list event -> string -> option exn;
  create_task : list event -> json -> option exn;
  json_dumps : json -> string
}.

(** The module-level configuration, read from the environment once *)
Record Config : Type := {
  TELEGRAM_BOT_TOKEN : string;
  WEBHOOK_SECRET : string;
  DATABASE_URL : string;
  MEDIA_DIR : string;
  LOG_DIR : string;
  psycopg2 : bool   (* [false] when the import of the driver failed *)
}.

(** One value of [media_cache] *)
Record cache_entry : Type := {
  ce_bytes : bytes;
  ce_user_id : json;
  ce_type : string;
  ce_filename : string;
  ce_ts : Q
}.

Record World : Type := {
  trace : list event;                        (* most recent first *)
  media_cache : list (json * cache_entry);   (* in insertion order *)
  log_dir : list (string * Q)                (* file name, mtime *)
}.

(** ** The monad: state that survives an exception *)

Definition M (A : Type) : Type := World -> result A * World.

Definition ret {A} (a : A) : M A := fun w => (Ok a, w).

Definition bind {A B} (m : M A) (k : A -> M B) : M B :=
  fun w => match m w with
           | (Ok a, w') => k a w'
           | (Raise e, w') => (Raise e, w')
           end.

Definition raise {A} (e : exn) : M A := fun w => (Raise e, w).

(** [try: m  except Exception as e: h e] *)
Definition try_except {A} (m : M A) (h : exn -> M A) : M A :=
  fun w => match m w with
           | (Ok a, w') => (Ok a, w')
           | (Raise e, w') => h e w'
           end.

Definition lift {A} (r : result A) : M A := fun w => (r, w).

Declare Scope py_scope.
Delimit Scope py_scope with py.
Notation "x <- c ;; k" := (bind c (fun x => k))
  (at level 61, c at next level, right associativity) : py_scope.
Notation "c ;; k" := (bind c (fun _ => k))
  (at level 61, right associativity) : py_scope.
Local Open Scope py_scope.

Definition emit (e : event) : M unit :=
  fun w => (Ok tt, {| trace := e :: trace w;
                      media_cache := media_cache w;
                      log_dir := log_dir w |}).

Definition history : M (list event) := fun w => (Ok (trace w), w).

(** [logger.setLevel(logging.INFO)]: a debug record is dropped.  A
    record that passes is kept in the trace; the two handlers that take
    it from there (the console, and the file [bot.log] of the log
    directory with its rotation at midnight) belong to [logging] and
    are not followed, so [log_dir] says what the calls of the module
    itself ([os.listdir], [os.path.getmtime], [os.remove]) find and
    leave there, and nothing about what the handler writes. *)
Definition log (lv : level) (fmt : string) (args : list logarg) : M unit :=
  match lv with
  | LvDebug => ret tt
  | _ => emit (EvLog lv fmt args)
  end.

(** [if failure: raise] after the event is recorded *)
Definition raise_if (failure : option exn) : M unit :=
  match failure with
  | Some e => raise e
  | None => ret tt
  end.

Definition str_truthy (s : string) : bool := negb (String.eqb s EmptyString).

(** ** The module *)

Section Botlib.

Context (cfg : Config) (env : Env).

Definition TELEGRAM_API_BASE : string :=
  ("https://api.telegram.org/bot" ++ TELEGRAM_BOT_TOKEN cfg)%string.
Definition TELEGRAM_FILE_BASE : string :=
  ("https://api.telegram.org/file/bot" ++ TELEGRAM_BOT_TOKEN cfg)%string.

(** *** Transport client *)

Definition do_post (url : string) (data : option dict) (files : option upload)
  : M json :=
  h <- history ;;
  let a := requests_post env h url data files in
  emit (EvPost url data files a) ;;
  lift a.

Definition _api_post (method : string) (data : option dict)
  (files : option upload) : M json :=
  let url := (TELEGRAM_API_BASE ++ "/" ++ method)%string in
  log LvDebug "Request to Telegram API %s with data keys=%s files=%s"
      [LJ (JStr method)] ;;
  try_except
    (j <- do_post url data files ;;
     ok <- lift (get j "ok" JNull) ;;
     if negb (truthy ok) then
       log LvError "Telegram API responded not ok: %s" [LJ j] ;;
       raise (PlainException "Telegram API error")
     else ret j)
    (fun e =>
       log LvError "Error calling Telegram API %s: %s" [LJ (JStr method); LX e] ;;
       raise e).

Definition set_webhook (url : string) (secret_token : option string) : M json :=
  let payload :=
    ("url", JStr url) ::
    match secret_token with
    | Some t => if str_truthy t then [("secret_token", JStr t)] else []
    | None => []
    end in
  log LvInfo "Setting webhook to %s (secret set: %s)"
      [LJ (JStr url);
       LJ (JBool match secret_token with Some t => str_truthy t | None => false end)] ;;
  _api_post "setWebhook" (Some payload) None.

Definition delete_webhook : M json :=
  log LvInfo "Deleting webhook" [] ;;
  _api_post "deleteWebhook" None None.

Definition send_message (chat_id : json) (text : string)
  (reply_markup : option json) (parse_mode : option string) : M json :=
  let payload :=
    [("chat_id", chat_id); ("text", JStr text)]
    ++ match reply_markup with
       | Some rm => [("reply_markup", JStr (json_dumps env rm))]
       | None => []
       end
    ++ match parse_mode with
       | Some pm => if str_truthy pm then [("parse_mode", JStr pm)] else []
       | None => []
       end in
  log LvInfo "send_message chat=%s text=%s" [LJ chat_id; LJ (JStr (prefix 50 text))] ;;
  _api_post "sendMessage" (Some payload) None.

Definition with_caption (chat_id : json) (caption : option string) : dict :=
  ("chat_id", chat_id) ::
  match caption with
  | Some c => if str_truthy c then [("caption", JStr c)] else []
  | None => []
  end.

Definition do_open (path : string) : M unit :=
  h <- history ;;
  let a := open_rb env h path in
  emit (EvOpen path a) ;;
  raise_if a.

Definition send_photo (chat_id : json) (photo_path : option string)
  (photo_bytes : option bytes) (caption : option string) : M json :=
  match photo_bytes with
  | Some b =>
      let files := UploadBytes "photo" "photo.jpg" b in
      let data := with_caption chat_id caption in
      log LvInfo "send_photo chat=%s bytes_size=%s"
          [LJ chat_id; LJ (JInt (Z.of_nat (List.length b)))] ;;
      _api_post "sendPhoto" (Some data) (Some files)
  | None =>
      match photo_path with
      | Some p =>
          if str_truthy p then
            do_open p ;;
            let files := UploadFile "photo" p in
            let data := with_caption chat_id caption in
            log LvInfo "send_photo chat=%s file=%s" [LJ chat_id; LJ (JStr p)] ;;
            _api_post "sendPhoto" (Some data) (Some files)
          else raise (ValueError "Either photo_path or photo_bytes must be provided")
      | None => raise (ValueError "Either photo_path or photo_bytes must be provided")
      end
  end.

Definition send_video (chat_id : json) (video_path : option string)
  (video_bytes : option bytes) (caption : option string) : M json :=
  match video_bytes with
  | Some b =>
      let files := UploadBytes "video" "video.mp4" b in
      let data := with_caption chat_id caption in
      log LvInfo "send_video chat=%s bytes_size=%s"
          [LJ chat_id; LJ (JInt (Z.of_nat (List.length b)))] ;;
      _api_post "sendVideo" (Some data) (Some files)
  | None =>
      match video_path with
      | Some p =>
          if str_truthy p then
            do_open p ;;
            let files := UploadFile "video" p in
            let data := with_caption chat_id caption in
            log LvInfo "send_video chat=%s file=%s" [LJ chat_id; LJ (JStr p)] ;;
            _api_post "sendVideo" (Some data) (Some files)
          else raise (ValueError "Either video_path or video_bytes must be provided")
      | None => raise (ValueError "Either video_path or video_bytes must be provided")
      end
  end.

Definition get_file_path (file_id : json) : M json :=
  log LvDebug "get_file_path for %s" [LJ file_id] ;;
  resp <- _api_post "getFile" (Some [("file_id", file_id)]) None ;;
  result <- lift (get resp "result" (JDict [])) ;;
  file_path <- lift (get result "file_path" JNull) ;;
  if negb (truthy file_path) then
    raise (PlainException "getFile did not return file_path")
  else ret file_path.

Definition download_file_by_path (file_path : json) : M bytes :=
  log LvDebug "Downloading file from %s" [LJ file_path] ;;
  h <- history ;;
  let a := requests_get env h TELEGRAM_FILE_BASE file_path in
  emit (EvGet TELEGRAM_FILE_BASE file_path a) ;;
  lift a.

(** *** Media sinks *)

Definition backslash : ascii := ascii_of_nat 92.
Definition newline : string := String (ascii_of_nat 10) EmptyString.

(** [int(x)]: truncation towards zero *)
Definition int_of (x : Q) : Z := Z.quot (Qnum x) (Zpos (Qden x)).

Definition now : M Q := h <- history ;; ret (time_time env h).

Definition safe_name (filename : string) : string :=
  replace_char backslash "_" (replace_char "/" "_" filename).

Definition stamped (t : Z) (filename : string) : string :=
  (str_of_int t ++ "_" ++ safe_name filename)%string.

Definition do_write (dest : string) (file_bytes : bytes) : M unit :=
  h <- history ;;
  let a := write_file env h dest file_bytes in
  emit (EvWrite dest file_bytes a) ;;
  raise_if a.

Definition save_media_to_fs (file_bytes : bytes) (filename : string) : M string :=
  t <- now ;;
  let dest := path_join (MEDIA_DIR cfg) (stamped (int_of t) filename) in
  do_write dest file_bytes ;;
  log LvInfo "Saved media to filesystem: %s (size=%d)"
      [LJ (JStr dest); LJ (JInt (Z.of_nat (List.length file_bytes)))] ;;
  ret dest.

Definition do_insert (user_id file_id : json) (media_type : string)
  (file_name : option string) (file_bytes : bytes) : M unit :=
  h <- history ;;
  let a := db_insert env h user_id file_id media_type file_name file_bytes in
  emit (EvInsert user_id file_id media_type file_name file_bytes a) ;;
  raise_if a.

Definition save_media_to_db (file_bytes : bytes) (user_id file_id : json)
  (media_type : string) (file_name : option string) : M bool :=
  if negb (str_truthy (DATABASE_URL cfg)) then
    log LvWarning "DATABASE_URL not set, skipping DB save" [] ;;
    ret false
  else if negb (psycopg2 cfg) then
    log LvWarning "psycopg2 not installed, skipping DB save" [] ;;
    ret false
  else
    try_except
      (do_insert user_id file_id media_type file_name file_bytes ;;
       log LvInfo "Saved media to DB user=%s file_id=%s type=%s"
           [LJ user_id; LJ file_id; LJ (JStr media_type)] ;;
       ret true)
      (fun e =>
         log LvError "Failed to save media to DB: %s" [LX e] ;;
         ret false).

(** [media_cache[k] = v]: an equal key keeps its place and takes the
    new value, a new key goes last *)
Fixpoint cache_set (k : json) (v : cache_entry) (c : list (json * cache_entry))
  : list (json * cache_entry) :=
  match c with
  | [] => [(k, v)]
  | (k', v') :: c' =>
      if key_eqb k' k then (k', v) :: c' else (k', v') :: cache_set k v c'
  end.

Definition media_cache_setitem (k : json) (v : cache_entry) : M unit :=
  if hashable k then
    fun w => (Ok tt, {| trace := trace w;
                        media_cache := cache_set k v (media_cache w);
                        log_dir := log_dir w |})
  else raise TypeError.

Definition media_cache_keys : M (list json) :=
  fun w => (Ok (map fst (media_cache w)), w).

(** *** User existence check (placeholder) *)

Definition user_exists (user_id : json) : M bool :=
  log LvDebug "user_exists placeholder called for user=%s" [LJ user_id] ;;
  ret true.

(** *** Update processing *)

Definition PHOTO_SAVED : string := "Фото получено и сохранено (файл: ".
Definition VIDEO_SAVED : string := "Видео получено и сохранено (файл: ".
Definition PHOTO_ERROR : string := "Ошибка при обработке фото.".
Definition VIDEO_ERROR : string := "Ошибка при обработке видео.".
Definition NOT_REGISTERED : string :=
  "Вы не зарегистрированы в сервисе. Пожалуйста, зарегистрируйтесь.".
Definition GREETING : string :=
  "Привет! Я готов принимать медиа. Отправь фото или видео.".

(** The body of the [try] of a media block (lines 349-364 for a photo,
    374-386 for a video: the same statements up to the type tag and the
    text of the reply). *)
Definition store_media (media_type saved : string)
  (file_id user_id chat_id : json) : M unit :=
  file_path <- get_file_path file_id ;;
  file_bytes <- download_file_by_path file_path ;;
  filename <- lift (basename_of file_path) ;;
  ts <- now ;;
  media_cache_setitem file_id
    {| ce_bytes := file_bytes; ce_user_id := user_id; ce_type := media_type;
       ce_filename := filename; ce_ts := ts |} ;;
  fs_path <- save_media_to_fs file_bytes filename ;;
  save_media_to_db file_bytes user_id file_id media_type (Some filename) ;;
  send_message chat_id (saved ++ basename fs_path ++ ")")%string None None ;;
  ret tt.

(** The [try] statement of a media block with its handler (lines
    348-367 and 373-389) *)
Definition media_try (media_type saved failed_fmt failed : string)
  (file_id user_id chat_id : json) : M unit :=
  try_except
    (store_media media_type saved file_id user_id chat_id)
    (fun e =>
       log LvError failed_fmt [LX e] ;;
       send_message chat_id failed None None ;;
       ret tt).

Definition photo_try : json -> json -> json -> M unit :=
  media_try "photo" PHOTO_SAVED "Error processing photo: %s" PHOTO_ERROR.

Definition video_try : json -> json -> json -> M unit :=
  media_try "video" VIDEO_SAVED "Error processing video: %s" VIDEO_ERROR.

(** Lines 346-367: the variant chosen, its [try] and its handler *)
Definition process_photo (largest user_id chat_id : json) : M unit :=
  file_id <- lift (get largest "file_id" JNull) ;;
  log LvInfo "Incoming photo file_id=%s from user=%s" [LJ file_id; LJ user_id] ;;
  photo_try file_id user_id chat_id.

(** Lines 341-367 *)
Definition photo_block (message user_id chat_id : json) : M unit :=
  has <- lift (contains message "photo") ;;
  if has then
    photos <- lift (subscript message "photo") ;;
    match photos with
    | JList l =>
        if truthy photos then
          largest <- lift (index l (-1)) ;;
          process_photo largest user_id chat_id
        else ret tt
    | _ => ret tt
    end
  else ret tt.

(** Lines 369-389 *)
Definition video_block (message user_id chat_id : json) : M unit :=
  has <- lift (contains message "video") ;;
  if has then
    video <- lift (subscript message "video") ;;
    file_id <- lift (get video "file_id" JNull) ;;
    log LvInfo "Incoming video file_id=%s from user=%s" [LJ file_id; LJ user_id] ;;
    video_try file_id user_id chat_id
  else ret tt.

(** [message["text"].strip()] *)
Definition str_strip (v : json) : result string :=
  match v with
  | JStr s => Ok (strip s)
  | _ => Raise AttributeError
  end.

Definition start_keyboard : json :=
  JDict [("inline_keyboard",
          JList [JList [JDict [("text", JStr "Помощь");
                               ("callback_data", JStr "help")]];
                 JList [JDict [("text", JStr "Посмотреть медиа (cache)");
                               ("callback_data", JStr "list_cache")]]])].

(** Lines 391-409 *)
Definition text_block (message user_id chat_id : json) : M unit :=
  has <- lift (contains message "text") ;;
  if has then
    raw <- lift (subscript message "text") ;;
    text <- lift (str_strip raw) ;;
    log LvInfo "Text message from %s: %s" [LJ user_id; LJ (JStr (prefix 80 text))] ;;
    if startswith text "/start" then
      send_message chat_id GREETING (Some start_keyboard) None ;;
      ret tt
    else if startswith text "/list_cache" then
      keys <- media_cache_keys ;;
      listing <- (match keys with
                  | [] => ret "нет"
                  | _ => lift (join newline keys)
                  end) ;;
      send_message chat_id
        ("Cached file_ids (" ++ str_of_int (Z.of_nat (List.length keys))
         ++ "):" ++ newline ++ listing)%string None None ;;
      ret tt
    else
      send_message chat_id ("Вы написали: " ++ text)%string None None ;;
      ret tt
  else ret tt.

(** Lines 341-409: what follows the user check *)
Definition handle_message (message user_id chat_id : json) : M unit :=
  photo_block message user_id chat_id ;;
  video_block message user_id chat_id ;;
  text_block message user_id chat_id.

(** Lines 315-409: the body of the outer [try] *)
Definition process_update_body (update : json) : M unit :=
  m <- lift (get update "message" JNull) ;;
  message <- (if truthy m then ret m
              else lift (get update "edited_message" JNull)) ;;
  if is_none message then
    has <- lift (contains update "callback_query") ;;
    if has then
      cb <- lift (subscript update "callback_query") ;;
      sender <- lift (get cb "from" (JDict [])) ;;
      sender_id <- lift (get sender "id" JNull) ;;
      data <- lift (get cb "data" JNull) ;;
      log LvInfo "Received callback_query from user %s data=%s"
          [LJ sender_id; LJ data]
    else ret tt
  else
    user <- lift (get message "from" (JDict [])) ;;
    user_id <- lift (get user "id" JNull) ;;
    chat <- lift (get message "chat" (JDict [])) ;;
    chat_id <- lift (get chat "id" JNull) ;;
    known <- user_exists user_id ;;
    if negb known then
      log LvWarning "User %s not found in DB (placeholder). Ignoring message."
          [LJ user_id] ;;
      try_except
        (send_message chat_id NOT_REGISTERED None None ;; ret tt)
        (fun _ => ret tt)
    else handle_message message user_id chat_id.

Definition process_update (update : json) : M unit :=
  emit (EvDispatch update) ;;
  ks <- lift (keys update) ;;
  log LvInfo "Processing update keys=%s" [LJ (JList (map JStr ks))] ;;
  try_except
    (process_update_body update)
    (fun e => log LvError "Unhandled exception in process_update: %s" [LX e]).

(** *** Webhook endpoint *)

(** A request as the handler sees it: the path parameter, the header
    (absent, or a string that may be empty) and what [request.json()]
    gives. *)
Record Request : Type := {
  secret_path : string;
  x_telegram_bot_api_secret_token : option string;
  request_json : result json
}.

Record Response : Type := {
  status : Z;
  content : json
}.

Definition header_truthy (h : option string) : bool :=
  match h with
  | Some t => str_truthy t
  | None => false
  end.

(** Lines 427-438 *)
Definition check_secret (req : Request) : M unit :=
  if str_truthy (WEBHOOK_SECRET cfg) then
    let header_token := x_telegram_bot_api_secret_token req in
    if header_truthy header_token then
      match header_token with
      | Some t =>
          if negb (String.eqb t (WEBHOOK_SECRET cfg)) then
            log LvWarning "Webhook secret header mismatch. Provided=%s" [LJ (JStr t)] ;;
            raise (HTTPException 403 "Invalid webhook secret header")
          else ret tt
      | None => ret tt
      end
    else
      if negb (String.eqb (secret_path req) (WEBHOOK_SECRET cfg))
         && negb (String.eqb (WEBHOOK_SECRET cfg) EmptyString) then
        log LvWarning "Webhook secret path mismatch. path=%s expected=%s"
            [LJ (JStr (secret_path req)); LJ (JStr (WEBHOOK_SECRET cfg))] ;;
        raise (HTTPException 403 "Invalid webhook path secret")
      else ret tt
  else ret tt.

(** [asyncio.create_task(asyncio.to_thread(process_update, payload))]:
    the task is handed to the loop, or the call raises *)
Definition spawn (payload : json) : M unit :=
  h <- history ;;
  let a := create_task env h payload in
  emit (EvSpawn payload a) ;;
  raise_if a.

(** What the loop runs for a task that was handed over: the exception of
    a task nobody awaits stays in the task. *)
Definition run_task (payload : json) : M unit :=
  try_except (process_update payload) (fun _ => ret tt).

Definition webhook_endpoint (req : Request) : M Response :=
  check_secret req ;;
  payload <- try_except
               (lift (request_json req))
               (fun e =>
                  log LvError "Failed to parse webhook JSON: %s" [LX e] ;;
                  raise (HTTPException 400 "invalid json")) ;;
  try_except (spawn payload) (fun _ => process_update payload) ;;
  ret {| status := 200; content := JDict [("ok", JBool true)] |}.

(** What the framework answers for the handler: its response, the
    status of an [HTTPException], or 500 for any other exception. *)
Definition respond (r : result Response) : Response :=
  match r with
  | Ok resp => resp
  | Raise (HTTPException code detail) =>
      {| status := code; content := JDict [("detail", JStr detail)] |}
  | Raise _ =>
      {| status := 500; content := JStr "Internal Server Error" |}
  end.

Definition serve_webhook (req : Request) (w : World) : Response * World :=
  let (r, w') := webhook_endpoint req w in (respond r, w').

(** *** Background tasks: monthly log cleanup *)

Definition Qltb (x y : Q) : bool := negb (Qle_bool y x).

Fixpoint file_mtime (fname : string) (d : list (string * Q)) : option Q :=
  match d with
  | [] => None
  | (n, t) :: d' => if String.eqb n fname then Some t else file_mtime fname d'
  end.

Definition unlink (fname : string) (d : list (string * Q)) : list (string * Q) :=
  filter (fun f => negb (String.eqb (fst f) fname)) d.

Definition FileNotFoundError : exn := ExternalError "FileNotFoundError".

Definition do_listdir (path : string) : M (list string) :=
  h <- history ;;
  let a := os_listdir env h path in
  emit (EvListdir path a) ;;
  raise_if a ;;
  fun w => (Ok (map fst (log_dir w)), w).

Definition do_getmtime (fname path : string) : M Q :=
  h <- history ;;
  fun w =>
    let a := match os_getmtime env h path with
             | Some e => Raise e
             | None => match file_mtime fname (log_dir w) with
                       | Some t => Ok t
                       | None => Raise FileNotFoundError
                       end
             end in
    (a, {| trace := EvGetmtime path a :: trace w;
           media_cache := media_cache w;
           log_dir := log_dir w |}).

Definition do_remove (fname path : string) : M unit :=
  h <- history ;;
  fun w =>
    let a := match os_remove env h path with
             | Some e => Some e
             | None => match file_mtime fname (log_dir w) with
                       | Some _ => None
                       | None => Some FileNotFoundError
                       end
             end in
    (match a with Some e => Raise e | None => Ok tt end,
     {| trace := EvRemove path a :: trace w;
        media_cache := media_cache w;
        log_dir := match a with
                   | Some _ => log_dir w
                   | None => unlink fname (log_dir w)
                   end |}).

(** The test of line 466, true when the name is skipped *)
Definition not_a_log (fname : string) : bool :=
  negb (endswith fname ".log") && negb (startswith fname "bot.log").

(** Lines 465-475: the loop over the listing, [removed] as it grows *)
Fixpoint sweep (cutoff : Q) (names : list string) (removed : list string)
  : M (list string) :=
  match names with
  | [] => ret removed
  | fname :: rest =>
      if not_a_log fname then sweep cutoff rest removed
      else
        let path := path_join (LOG_DIR cfg) fname in
        removed' <- try_except
                      (mtime <- do_getmtime fname path ;;
                       if Qltb mtime cutoff then
                         do_remove fname path ;;
                         ret (removed ++ [path])
                       else ret removed)
                      (fun e =>
                         log LvError "Error while removing log file %s: %s"
                             [LJ (JStr path); LX e] ;;
                         ret removed) ;;
        sweep cutoff rest removed'
  end.

Definition _remove_old_logs (older_than_days : Z) : M unit :=
  t <- now ;;
  let cutoff := (t - inject_Z (older_than_days * 24 * 3600))%Q in
  names <- do_listdir (LOG_DIR cfg) ;;
  removed <- sweep cutoff names [] ;;
  match removed with
  | _ :: _ =>
      log LvInfo "Removed %d old log files: %s"
          [LJ (JInt (Z.of_nat (List.length removed))); LJ (JList (map JStr removed))]
  | [] => log LvInfo "No old log files to remove" []
  end.

(** The default of the parameter [older_than_days] *)
Definition older_than_days_default : Z := 35.

(** Lines 501-504: what [monthly_cleanup_loop] does each time it wakes *)
Definition monthly_cleanup : M unit :=
  try_except
    (_remove_old_logs 31)
    (fun e => log LvError "Error during monthly cleanup: %s" [LX e]).

End Botlib.

(** ** The rest of the module *)

(** *** The cache as the admin endpoints see it *)

(** [k in media_cache] *)
Definition cache_has (k : json) (c : list (json * cache_entry)) : bool :=
  existsb (fun p => key_eqb (fst p) k) c.

(** [del media_cache[k]]: the entry under the key goes, the others keep
    their order *)
Fixpoint cache_del (k : json) (c : list (json * cache_entry))
  : list (json * cache_entry) :=
  match c with
  | [] => []
  | (k', v') :: c' =>
      if key_eqb k' k then c' else (k', v') :: cache_del k c'
  end.

(** [GET /cache_keys] *)
Definition cache_keys : M json :=
  fun w =>
    (Ok (JDict [("count", JInt (Z.of_nat (List.length (media_cache w))));
                ("keys", JList (map fst (media_cache w)))]), w).

(** [POST /admin/delete_cache/{file_id}] *)
Definition admin_delete_cache (file_id : string) : M json :=
  fun w =>
    if cache_has (JStr file_id) (media_cache w) then
      (Ok (JDict [("deleted", JStr file_id)]),
       {| trace := trace w;
          media_cache := cache_del (JStr file_id) (media_cache w);
          log_dir := log_dir w |})
    else
      (Ok (JDict [("deleted", JNull); ("msg", JStr "not found")]), w).

(** *** Startup and the schedule of the cleanup *)

(** Lines 491-492: the year and the month of the next run *)
Definition next_month (year month : Z) : Z * Z :=
  (year + (if month =? 12 then 1 else 0),
   if month =? 12 then 1 else month + 1).

Section Startup.

Context (cfg : Config) (env : Env).

(** [startup_event], with [WEBHOOK_URL] as read from the environment and
    with what [asyncio.create_task(monthly_cleanup_loop())] does: the
    task is handed over ([None]) or the call raises. *)
Definition startup_event (WEBHOOK_URL : string) (cleanup_task : option exn)
  : M unit :=
  log LvInfo "App startup" [] ;;
  try_except
    (raise_if cleanup_task)
    (fun e =>
       log LvError "Failed to start monthly cleanup background task: %s"
           [LX e]) ;;
  if str_truthy WEBHOOK_URL then
    try_except
      (set_webhook cfg env WEBHOOK_URL
         (if str_truthy (WEBHOOK_SECRET cfg)
          then Some (WEBHOOK_SECRET cfg) else None) ;;
       ret tt)
      (fun e => log LvError "Failed to set webhook on startup: %s" [LX e])
  else ret tt.

End Startup.

(** *** Notions for the rest of the module *)

(** [media_cache[k]] *)
Fixpoint cache_get (k : json) (c : list (json * cache_entry))
  : option cache_entry :=
  match c with
  | [] => None
  | (k', v') :: c' => if key_eqb k' k then Some v' else cache_get k c'
  end.

(** No key of the cache equals a later one: what a [dict] guarantees *)
Fixpoint distinct_keys (c : list (json * cache_entry)) : Prop :=
  match c with
  | [] => True
  | (k, _) :: c' =>
      existsb (fun p => key_eqb k (fst p)) c' = false /\ distinct_keys c'
  end.

(** [update.get("message") or update.get("edited_message")] *)
Definition message_of (update : dict) : json :=
  let m := match lookup "message" update with
           | Some x => x
           | None => JNull
           end in
  if truthy m then m
  else match lookup "edited_message" update with
       | Some x => x
       | None => JNull
       end.

(** [m] carries a property of the cache and of the log directory from
    the world it starts in to the world it ends in *)
Definition keeps {A : Type}
  (J : list (json * cache_entry) -> list (string * Q) -> Prop) (m : M A)
  : Prop :=
  forall w r w', m w = (r, w') ->
    J (media_cache w) (log_dir w) -> J (media_cache w') (log_dir w').

Definition is_log (e : event) : Prop :=
  match e with EvLog _ _ _ => True | _ => False end.

(** An event that is neither a request nor the opening of a file *)
Definition is_quiet (e : event) : Prop :=
  match e with
  | EvPost _ _ _ _ | EvOpen _ _ => False
  | _ => True
  end.

(** An event that writes neither a file nor a row *)
Definition stores_nothing (e : event) : Prop :=
  match e with
  | EvWrite _ _ _ | EvInsert _ _ _ _ _ _ => False
  | _ => True
  end.

Definition is_jstr (v : json) : bool :=
  match v with JStr _ => true | _ => false end.

(** ** Notions used by the statements *)

(** The world after [evs] happened (most recent first) *)
Definition after (evs : list event) (w : World) : World :=
  {| trace := evs ++ trace w;
     media_cache := media_cache w;
     log_dir := log_dir w |}.

Definition is_open (e : event) : bool :=
  match e with EvOpen _ _ => true | _ => false end.

Definition is_insert (e : event) : bool :=
  match e with EvInsert _ _ _ _ _ _ => true | _ => false end.

(** The dispatcher was entered, inline or as a task handed to the loop *)
Definition is_dispatch (e : event) : bool :=
  match e with
  | EvDispatch _ => true
  | EvSpawn _ None => true
  | _ => false
  end.

(** A text block started: its first log record *)
Definition is_text_log (e : event) : bool :=
  match e with
  | EvLog LvInfo fmt _ => String.eqb fmt "Text message from %s: %s"
  | _ => false
  end.

(** The file a media block writes for [file_path] at the moment [h] *)
Definition media_dest (cfg : Config) (env : Env) (h : list event)
  (filename : string) : string :=
  path_join (MEDIA_DIR cfg) (stamped (int_of (time_time env h)) filename).

(** [media_cache] after a media block stored [bs] under [file_id] *)
Definition cached (env : Env) (media_type : string) (file_id user_id : json)
  (bs : bytes) (filename : string) (w : World) : list (json * cache_entry) :=
  cache_set file_id
    {| ce_bytes := bs; ce_user_id := user_id; ce_type := media_type;
       ce_filename := filename; ce_ts := time_time env (trace w) |}
    (media_cache w).

(** The world a media block is in once its file is written and logged *)
Definition written (cfg : Config) (env : Env) (media_type : string)
  (file_id user_id : json) (bs : bytes) (filename : string) (w : World)
  : World :=
  let dest := media_dest cfg env (trace w) filename in
  {| trace := EvLog LvInfo "Saved media to filesystem: %s (size=%d)"
                [LJ (JStr dest); LJ (JInt (Z.of_nat (List.length bs)))]
              :: EvWrite dest bs None :: trace w;
     media_cache := cached env media_type file_id user_id bs filename w;
     log_dir := log_dir w |}.

(** The world a media block is in when the write of its file raised *)
Definition unwritten (cfg : Config) (env : Env) (media_type : string)
  (file_id user_id : json) (bs : bytes) (filename : string) (e : exn)
  (w : World) : World :=
  {| trace := EvWrite (media_dest cfg env (trace w) filename) bs (Some e)
              :: trace w;
     media_cache := cached env media_type file_id user_id bs filename w;
     log_dir := log_dir w |}.


(** A log record with the format [fmt] *)
Definition is_log_with (fmt : string) (e : event) : bool :=
  match e with
  | EvLog _ f _ => String.eqb f fmt
  | _ => false
  end.

(** A message whose text starts with [p] was posted *)
Definition is_message_with (p : string) (e : event) : bool :=
  match e with
  | EvPost _ (Some data) _ _ =>
      match lookup "text" data with
      | Some (JStr t) => startswith t p
      | _ => false
      end
  | _ => false
  end.

(** The three answers of the webhook endpoint *)
Definition forbidden (detail : string) : Response :=
  {| status := 403; content := JDict [("detail", JStr detail)] |}.

Definition bad_request : Response :=
  {| status := 400; content := JDict [("detail", JStr "invalid json")] |}.

Definition accepted : Response :=
  {| status := 200; content := JDict [("ok", JBool true)] |}.

(** A file of the log directory is removed by a sweep with [cutoff] *)
Definition expired (cutoff : Q) (f : string * Q) : bool :=
  negb (not_a_log (fst f)) && Qltb (snd f) cutoff.

Definition days (n : Z) : Q := inject_Z (n * 24 * 3600).

(** A name of the listing is removed by a sweep with [cutoff] over the
    directory [d] *)
Definition expired_name (cutoff : Q) (d : list (string * Q)) (n : string)
  : bool :=
  negb (not_a_log n) &&
  match file_mtime n d with
  | Some t => Qltb t cutoff
  | None => false
  end.

(** A file of [d] stays after a sweep over the names [names] *)
Definition kept (cutoff : Q) (d : list (string * Q)) (names : list string)
  (f : string * Q) : bool :=
  negb (expired_name cutoff d (fst f) && existsb (String.eqb (fst f)) names).

(** The last record of the cleanup: what was removed, or that nothing was *)
Definition cleanup_record (paths : list string) : event :=
  match paths with
  | [] => EvLog LvInfo "No old log files to remove" []
  | _ :: _ =>
      EvLog LvInfo "Removed %d old log files: %s"
            [LJ (JInt (Z.of_nat (List.length paths)));
             LJ (JList (map JStr paths))]
  end.

(** [m] only adds events to the trace, and each one satisfies [P] *)
Definition emits {A : Type} (P : event -> Prop) (m : M A) : Prop :=
  forall w r w', m w = (r, w') ->
    exists new, trace w' = new ++ trace w /\ Forall P new.

(** Every run of [m] leaves an event that satisfies [Q] in the trace *)
Definition eventually {A : Type} (Q : event -> Prop) (m : M A) : Prop :=
  forall w, Exists Q (trace (snd (m w))).

Definition any (e : event) : Prop := True.

Definition not_open (e : event) : Prop := is_open e = false.

(** An event is the opening of [path] if it is the opening of a file *)
Definition opens_only (path : string) (e : event) : Prop :=
  forall p f, e = EvOpen p f -> p = path.

(** A request for [url] with the form fields [data] and the upload
    [files], whatever the answer *)
Definition posts (url : string) (data : option dict) (files : option upload)
  (e : event) : Prop :=
  exists answer, e = EvPost url data files answer.

(** [d.get(k, default)] for a dict [d] *)
Definition dict_get (d : dict) (k : string) (default : json) : json :=
  match lookup k d with
  | Some v => v
  | None => default
  end.

(** What a dispatch of the object [d] starts with: the dispatcher is
    entered, and line 312 logs the keys of the update *)
Definition entry_events (d : dict) : list event :=
  [EvLog LvInfo "Processing update keys=%s" [LJ (JList (map JStr (map fst d)))];
   EvDispatch (JDict d)].

(** The paths whose modification time was asked for, most recent first *)
Fixpoint probed (evs : list event) : list string :=
  match evs with
  | [] => []
  | EvGetmtime p _ :: rest => p :: probed rest
  | _ :: rest => probed rest
  end.

(** ** Sample runs *)

Module Sample.

Definition api_ok : json :=
  JDict [("ok", JBool true);
         ("result", JDict [("file_path", JStr "photos/file_1.jpg")])].

Definition down : exn := ExternalError "ConnectionError".
Definition no_loop : exn := ExternalError "RuntimeError".

(** An environment whose answers depend on the request only: [post]
    answers by URL, a write fails with [wr], an insert with [ins], the
    loop refuses a task with [task]; the clock stands at [t]. *)
Definition mk_env (post : string -> result json) (wr ins task : option exn)
  (t : Q) : Env :=
  {| requests_post := fun _ url _ _ => post url;
     requests_get := fun _ _ _ => Ok [Byte.x01; Byte.x02];
     open_rb := fun _ _ => None;
     write_file := fun _ _ _ => wr;
     db_insert := fun _ _ _ _ _ _ => ins;
     time_time := fun _ => t;
     os_listdir := fun _ _ => None;
     os_getmtime := fun _ _ => None;
     os_remove := fun _ _ => None;
     create_task := fun _ _ => task;
     json_dumps := fun _ => "{}" |}.

Definition noon : Q := inject_Z 1700000000.

Definition env_ok : Env := mk_env (fun _ => Ok api_ok) None None None noon.
Definition env_db_down : Env :=
  mk_env (fun _ => Ok api_ok) None (Some down) None noon.
Definition env_api_down : Env :=
  mk_env (fun _ => Raise down) None None None noon.
Definition env_no_loop : Env :=
  mk_env (fun _ => Ok api_ok) None None (Some no_loop) noon.

(** Nothing can be removed from the log directory *)
Definition locked : exn := ExternalError "PermissionError".

Definition env_locked : Env :=
  {| requests_post := fun _ _ _ _ => Ok api_ok;
     requests_get := fun _ _ _ => Ok [Byte.x01; Byte.x02];
     open_rb := fun _ _ => None;
     write_file := fun _ _ _ => None;
     db_insert := fun _ _ _ _ _ _ => None;
     time_time := fun _ => noon;
     os_listdir := fun _ _ => None;
     os_getmtime := fun _ _ => None;
     os_remove := fun _ _ => Some locked;
     create_task := fun _ _ => None;
     json_dumps := fun _ => "{}" |}.

(** [getFile] is refused, everything else is answered *)
Definition env_no_file : Env :=
  mk_env (fun url => if endswith url "/getFile" then Raise down else Ok api_ok)
         None None None noon.

Definition cfg0 : Config :=
  {| TELEGRAM_BOT_TOKEN := "T";
     WEBHOOK_SECRET := "s3cret";
     DATABASE_URL := "postgresql://bot@db/bot";
     MEDIA_DIR := "./media";
     LOG_DIR := "./logs";
     psycopg2 := true |}.

Definition cfg_open : Config :=
  {| TELEGRAM_BOT_TOKEN := "T";
     WEBHOOK_SECRET := EmptyString;
     DATABASE_URL := EmptyString;
     MEDIA_DIR := "./media";
     LOG_DIR := "./logs";
     psycopg2 := false |}.

Definition w0 : World := {| trace := []; media_cache := []; log_dir := [] |}.

Definition sender : dict :=
  [("from", JDict [("id", JInt 7)]); ("chat", JDict [("id", JInt 9)])].

Definition variants : list json :=
  [JDict [("file_id", JStr "small")];
   JDict [("file_id", JStr "medium")];
   JDict [("file_id", JStr "large")]].

Definition photo_message : dict := sender ++ [("photo", JList variants)].

Definition photo_text_message : dict :=
  sender ++ [("photo", JList variants); ("text", JStr "/start")].

Definition photo_update : dict := [("message", JDict photo_message)].
Definition photo_text_update : dict := [("message", JDict photo_text_message)].

(** A log directory on the first of a month: rotated files written 10,
    33, 40 and 400 days before [noon], and a file that is not a log *)
Definition ago (n : Z) : Q := (noon - days n)%Q.

Definition logs : list (string * Q) :=
  [("bot.log.2023-11-04", ago 10);
   ("bot.log.2023-10-05", ago 40);
   ("bot.log.2022-10-10", ago 400);
   ("notes.txt", ago 400)].

Definition w_logs : World :=
  {| trace := []; media_cache := []; log_dir := logs |}.

Definition w_33 : World :=
  {| trace := []; media_cache := [];
     log_dir := [("bot.log.2023-10-12", ago 33)] |}.

Definition bs12 : bytes := [Byte.x01; Byte.x02].

Definition logged_photo (w : World) : World :=
  after [EvLog LvInfo "Incoming photo file_id=%s from user=%s"
           [LJ (JStr "large"); LJ (JInt 7)]] w.

(** A request with the header present and empty and the secret in the
    path *)
Definition req_empty_header : Request :=
  {| secret_path := "s3cret";
     x_telegram_bot_api_secret_token := Some EmptyString;
     request_json := Ok (JDict photo_update) |}.

Definition req_bad_header : Request :=
  {| secret_path := "s3cret";
     x_telegram_bot_api_secret_token := Some "guess";
     request_json := Ok (JDict photo_update) |}.

(** A body that decodes to a list *)
Definition req_list : Request :=
  {| secret_path := EmptyString;
     x_telegram_bot_api_secret_token := None;
     request_json := Ok (JList []) |}.

Definition req_garbled : Request :=
  {| secret_path := EmptyString;
     x_telegram_bot_api_secret_token := None;
     request_json := Raise (ValueError "JSONDecodeError") |}.

(** The run of a photo block on [variants] up to the download *)
Definition w_asked (env : Env) : World :=
  snd (get_file_path cfg0 env (JStr "large") w0).

Definition w_fetched (env : Env) : World :=
  snd (download_file_by_path cfg0 env (JStr "photos/file_1.jpg") (w_asked env)).

(** The run of a photo block whose [getFile] is refused, up to the
    handler and past the notice *)
Definition w_refused : World :=
  snd (store_media cfg0 env_no_file "photo" PHOTO_SAVED (JStr "large")
         (JInt 7) (JInt 9) (logged_photo w0)).

Definition w_noticed : World :=
  snd (send_message cfg0 env_no_file (JInt 9) PHOTO_ERROR None None
         (after [EvLog LvError "Error processing photo: %s" [LX down]]
                w_refused)).

End Sample.

(** ** More sample runs *)

Module Cases.

Import Sample.

Definition missing_file : exn := ExternalError "FileNotFoundError".

(** No file can be opened *)
Definition env_unreadable : Env :=
  {| requests_post := fun _ _ _ _ => Ok api_ok;
     requests_get := fun _ _ _ => Ok bs12;
     open_rb := fun _ _ => Some missing_file;
     write_file := fun _ _ _ => None;
     db_insert := fun _ _ _ _ _ _ => None;
     time_time := fun _ => noon;
     os_listdir := fun _ _ => None;
     os_getmtime := fun _ _ => None;
     os_remove := fun _ _ => None;
     create_task := fun _ _ => None;
     json_dumps := fun _ => "{}" |}.

(** One file of the log directory cannot be removed *)
Definition env_one_locked : Env :=
  {| requests_post := fun _ _ _ _ => Ok api_ok;
     requests_get := fun _ _ _ => Ok bs12;
     open_rb := fun _ _ => None;
     write_file := fun _ _ _ => None;
     db_insert := fun _ _ _ _ _ _ => None;
     time_time := fun _ => noon;
     os_listdir := fun _ _ => None;
     os_getmtime := fun _ _ => None;
     os_remove := fun _ p =>
       if String.eqb p "./logs/bot.log.2023-10-05" then Some locked else None;
     create_task := fun _ _ => None;
     json_dumps := fun _ => "{}" |}.

Definition entry (name : string) : cache_entry :=
  {| ce_bytes := bs12; ce_user_id := JInt 7; ce_type := "photo";
     ce_filename := name; ce_ts := noon |}.

(** A cache with two photos *)
Definition w_two : World :=
  {| trace := [];
     media_cache := [(JStr "a", entry "a.jpg"); (JStr "b", entry "b.jpg")];
     log_dir := [] |}.

Definition video_message : dict :=
  sender ++ [("video", JDict [("file_id", JStr "clip")]);
             ("text", JStr "hello")].

Definition logged_video (w : World) : World :=
  after [EvLog LvInfo "Incoming video file_id=%s from user=%s"
           [LJ (JStr "clip"); LJ (JInt 7)]] w.

(** The run of a video block whose [getFile] is refused, up to the
    handler and past the notice *)
Definition w_video_refused : World :=
  snd (store_media cfg0 env_no_file "video" VIDEO_SAVED (JStr "clip")
         (JInt 7) (JInt 9) (logged_video w0)).

Definition w_video_noticed : World :=
  snd (send_message cfg0 env_no_file (JInt 9) VIDEO_ERROR None None
         (after [EvLog LvError "Error processing video: %s" [LX down]]
                w_video_refused)).

Definition list_message : dict := sender ++ [("text", JStr " /list_cache ")].

Definition callback_update : dict :=
  [("callback_query",
    JDict [("from", JDict [("id", JInt 7)]); ("data", JStr "help")])].

End Cases.

(** ** Facts *)

Local Open Scope py_scope.

(** Symbolic execution of the monad's primitives *)
Ltac run :=
  cbv beta iota zeta delta
    [bind ret raise lift emit history log raise_if try_except now
     do_insert do_write do_post do_open spawn media_cache_setitem];
  cbn [trace media_cache log_dir].

(** *** The runtime on small inputs *)

Example index_minus_one : index [1; 2; 3] (-1) = Ok 3.
Proof. reflexivity. Qed.

Example index_of_empty : index (@nil Z) (-1) = Raise IndexError.
Proof. reflexivity. Qed.

Example get_on_a_list : get (JList []) "message" JNull = Raise AttributeError.
Proof. reflexivity. Qed.

Example strip_both_sides : strip "  /start now  " = "/start now".
Proof. reflexivity. Qed.

Example strip_keeps_characters : strip " для всех " = "для всех".
Proof. reflexivity. Qed.

Example strip_wide_spaces : strip " /start 　" = "/start".
Proof. reflexivity. Qed.

Example prefix_by_character : prefix 3 "для всех" = "для".
Proof. reflexivity. Qed.

Example prefix_of_a_short_text : prefix 50 "/start" = "/start".
Proof. reflexivity. Qed.

Example basename_of_a_file_path : basename "photos/file_1.jpg" = "file_1.jpg".
Proof. reflexivity. Qed.

Example path_join_media : path_join "./media" "17_a.jpg" = "./media/17_a.jpg".
Proof. reflexivity. Qed.

Example path_join_absolute : path_join "./media" "/etc/passwd" = "/etc/passwd".
Proof. reflexivity. Qed.

Example stamped_traversal :
  stamped 1700000000 "../../etc/passwd" = "1700000000_.._.._etc_passwd".
Proof. reflexivity. Qed.

Example int_of_truncates : int_of (7 # 2) = 3 /\ int_of (-7 # 2) = -3.
Proof. split; reflexivity. Qed.

Example true_is_one : key_eqb (JBool true) (JInt 1) = true.
Proof. reflexivity. Qed.

Example rotated_file_is_a_log :
  not_a_log "bot.log.2023-10-05" = false
  /\ not_a_log "uvicorn.log" = false
  /\ not_a_log "notes.txt" = true.
Proof. repeat split; reflexivity. Qed.

(** *** Events added by a computation *)

Section Emits.

Context {P : event -> Prop}.

Lemma emits_ret {A} (a : A) : emits P (ret a).
Proof.
  intros w r w' H. inversion H; subst. exists [].
  split; [reflexivity|constructor].
Qed.

Lemma emits_raise {A} (e : exn) : emits P (@raise A e).
Proof.
  intros w r w' H. inversion H; subst. exists [].
  split; [reflexivity|constructor].
Qed.

Lemma emits_lift {A} (x : result A) : emits P (lift x).
Proof.
  intros w r w' H. inversion H; subst. exists [].
  split; [reflexivity|constructor].
Qed.

Lemma emits_history : emits P history.
Proof.
  intros w r w' H. inversion H; subst. exists [].
  split; [reflexivity|constructor].
Qed.

Lemma emits_emit (e : event) : P e -> emits P (emit e).
Proof.
  intros He w r w' H. inversion H; subst. exists [e].
  split; [reflexivity|]. constructor; [exact He|constructor].
Qed.

Lemma emits_bind {A B} (m : M A) (k : A -> M B) :
  emits P m -> (forall a, emits P (k a)) -> emits P (bind m k).
Proof.
  intros Hm Hk w r w' H. unfold bind in H.
  destruct (m w) as [[a|e] w1] eqn:Hmw.
  - destruct (Hm _ _ _ Hmw) as (n1 & E1 & F1).
    destruct (Hk a _ _ _ H) as (n2 & E2 & F2).
    exists (n2 ++ n1). split.
    + rewrite E2, E1. apply app_assoc.
    + apply Forall_app. split; assumption.
  - inversion H; subst. exact (Hm _ _ _ Hmw).
Qed.

Lemma emits_try_except {A} (m : M A) (h : exn -> M A) :
  emits P m -> (forall e, emits P (h e)) -> emits P (try_except m h).
Proof.
  intros Hm Hh w r w' H. unfold try_except in H.
  destruct (m w) as [[a|e] w1] eqn:Hmw.
  - inversion H; subst. exact (Hm _ _ _ Hmw).
  - destruct (Hm _ _ _ Hmw) as (n1 & E1 & F1).
    destruct (Hh e _ _ _ H) as (n2 & E2 & F2).
    exists (n2 ++ n1). split.
    + rewrite E2, E1. apply app_assoc.
    + apply Forall_app. split; assumption.
Qed.

Lemma emits_raise_if (f : option exn) : emits P (raise_if f).
Proof. destruct f; [apply emits_raise|apply emits_ret]. Qed.

Lemma emits_log lv fmt args :
  P (EvLog lv fmt args) -> emits P (log lv fmt args).
Proof.
  intros H. destruct lv; try (apply emits_emit; exact H). apply emits_ret.
Qed.

Lemma emits_now (env : Env) : emits P (now env).
Proof.
  unfold now. apply emits_bind; [apply emits_history|].
  intros h. apply emits_ret.
Qed.

Lemma emits_media_cache_setitem k v : emits P (media_cache_setitem k v).
Proof.
  unfold media_cache_setitem. destruct (hashable k); [|apply emits_raise].
  intros w r w' H. inversion H; subst. exists [].
  split; [reflexivity|constructor].
Qed.

End Emits.

Ltac emits_step :=
  match goal with
  | |- emits _ (bind _ _) => apply emits_bind; [|intros ?]
  | |- emits _ (try_except _ _) => apply emits_try_except; [|intros ?]
  | |- emits _ (ret _) => apply emits_ret
  | |- emits _ (raise _) => apply emits_raise
  | |- emits _ (lift _) => apply emits_lift
  | |- emits _ history => apply emits_history
  | |- emits _ (now _) => apply emits_now
  | |- emits _ (raise_if _) => apply emits_raise_if
  | |- emits _ (media_cache_setitem _ _) => apply emits_media_cache_setitem
  | |- emits _ (log _ _ _) => apply emits_log
  | |- emits _ (emit _) => apply emits_emit
  | |- emits _ (if ?b then _ else _) => destruct b
  | |- emits _ (match ?x with _ => _ end) => destruct x
  | |- emits _ (let _ := _ in _) => cbv zeta
  end.

Lemma emits_grows {A} (m : M A) (e : event) w r w' :
  emits any m -> m w = (r, w') -> In e (trace w) -> In e (trace w').
Proof.
  intros Hm Hrun Hin. destruct (Hm _ _ _ Hrun) as (new & E & _).
  rewrite E. apply in_or_app. right. exact Hin.
Qed.

Lemma eventually_bind {A B} (Q : event -> Prop) (m : M A) (k : A -> M B) :
  eventually Q m -> (forall a, emits any (k a)) -> eventually Q (bind m k).
Proof.
  intros Hm Hk w. specialize (Hm w). unfold bind.
  destruct (m w) as [[a|e] w1]; cbn [snd] in *; [|exact Hm].
  destruct (k a w1) as [r w2] eqn:Hrun. cbn [snd].
  apply Exists_exists in Hm. destruct Hm as (x & Hin & Hq).
  apply Exists_exists. exists x. split; [|exact Hq].
  exact (emits_grows _ _ _ _ _ (Hk a) Hrun Hin).
Qed.

Lemma eventually_try_except {A} (Q : event -> Prop) (m : M A)
  (h : exn -> M A) :
  eventually Q m -> (forall e, emits any (h e)) ->
  eventually Q (try_except m h).
Proof.
  intros Hm Hh w. specialize (Hm w). unfold try_except.
  destruct (m w) as [[a|e] w1]; cbn [snd] in *; [exact Hm|].
  destruct (h e w1) as [r w2] eqn:Hrun. cbn [snd].
  apply Exists_exists in Hm. destruct Hm as (x & Hin & Hq).
  apply Exists_exists. exists x. split; [|exact Hq].
  exact (emits_grows _ _ _ _ _ (Hh e) Hrun Hin).
Qed.

Lemma eventually_log_then {B} (Q : event -> Prop) lv fmt args (k : M B) :
  eventually Q k -> eventually Q (log lv fmt args ;; k).
Proof.
  intros Hk w. unfold bind, log. destruct lv; cbn; apply Hk.
Qed.

(** What the trace holds once [m] has run stays in it, in its place,
    through whatever is run next *)
Lemma lasts_bind {A B} (m : M A) (k : A -> M B) (T : list event) w :
  (exists later, trace (snd (m w)) = later ++ T) ->
  (forall a, emits any (k a)) ->
  exists later, trace (snd (bind m k w)) = later ++ T.
Proof.
  intros (l1 & E1) Hk. unfold bind.
  destruct (m w) as [[a|e] w1]; cbn [snd] in *; [|eauto].
  destruct (k a w1) as [r w2] eqn:Hrun. cbn [snd].
  destruct (Hk a _ _ _ Hrun) as (new & E & _).
  exists (new ++ l1). rewrite E, E1. apply app_assoc.
Qed.

Lemma lasts_try_except {A} (m : M A) (h : exn -> M A) (T : list event) w :
  (exists later, trace (snd (m w)) = later ++ T) ->
  (forall e, emits any (h e)) ->
  exists later, trace (snd (try_except m h w)) = later ++ T.
Proof.
  intros (l1 & E1) Hh. unfold try_except.
  destruct (m w) as [[a|e] w1]; cbn [snd] in *; [eauto|].
  destruct (h e w1) as [r w2] eqn:Hrun. cbn [snd].
  destruct (Hh e _ _ _ Hrun) as (new & E & _).
  exists (new ++ l1). rewrite E, E1. apply app_assoc.
Qed.

Lemma lasts_after {A B} (m : M A) (k : A -> M B) (T : list event) w a w1 :
  m w = (Ok a, w1) ->
  (exists later, trace (snd (k a w1)) = later ++ T) ->
  exists later, trace (snd (bind m k w)) = later ++ T.
Proof. intros Hm H. unfold bind. rewrite Hm. exact H. Qed.

(** A debug record leaves no trace *)
Lemma debug_then {B} fmt args (k : M B) w :
  (log LvDebug fmt args ;; k) w = k w.
Proof. reflexivity. Qed.

(** *** Strings and paths *)

Lemma append_assoc (a b c : string) : ((a ++ b) ++ c = a ++ (b ++ c))%string.
Proof. induction a as [|x a IH]; cbn; [reflexivity|]. now rewrite IH. Qed.

Lemma string_of_list_ascii_app (l1 l2 : list ascii) :
  string_of_list_ascii (l1 ++ l2)
  = (string_of_list_ascii l1 ++ string_of_list_ascii l2)%string.
Proof. induction l1 as [|x l1 IH]; cbn; [reflexivity|]. now rewrite IH. Qed.

Lemma rev_string_involutive s : rev_string (rev_string s) = s.
Proof.
  unfold rev_string. rewrite list_ascii_of_string_of_list_ascii, rev_involutive.
  apply string_of_list_ascii_of_string.
Qed.

Lemma rev_string_cons c s :
  rev_string (String c s) = (rev_string s ++ String c EmptyString)%string.
Proof.
  unfold rev_string. cbn [list_ascii_of_string rev].
  now rewrite string_of_list_ascii_app.
Qed.

(** A string that ends with the separator is something followed by it *)
Lemma endswith_sep a :
  endswith a (String sep EmptyString) = true ->
  exists a', a = (a' ++ String sep EmptyString)%string.
Proof.
  unfold endswith. change (rev_string (String sep EmptyString))
    with (String sep EmptyString).
  destruct (rev_string a) as [|c r] eqn:Hrev; cbn [startswith]; [discriminate|].
  rewrite andb_true_r. intros Hc. apply Ascii.eqb_eq in Hc. subst c.
  exists (rev_string r).
  rewrite <- (rev_string_involutive a), Hrev. apply rev_string_cons.
Qed.

Lemma contains_char_app c a b :
  contains_char c (a ++ b)%string = contains_char c a || contains_char c b.
Proof.
  induction a as [|x a IH]; cbn; [reflexivity|].
  rewrite IH. apply orb_assoc.
Qed.

Lemma replace_char_removes a b s :
  a <> b -> contains_char a (replace_char a b s) = false.
Proof.
  intros Hab. induction s as [|c s IH]; cbn; [reflexivity|].
  rewrite IH, orb_false_r.
  destruct (Ascii.eqb_spec c a) as [->|Hc].
  - apply Ascii.eqb_neq. congruence.
  - apply Ascii.eqb_neq. exact Hc.
Qed.

Lemma replace_char_keeps_out c a b s :
  c <> b -> contains_char c s = false ->
  contains_char c (replace_char a b s) = false.
Proof.
  intros Hcb. induction s as [|x s IH]; cbn; [reflexivity|].
  intros H. apply orb_false_iff in H. destruct H as [Hx Hs].
  rewrite (IH Hs), orb_false_r.
  destruct (Ascii.eqb x a); [|exact Hx].
  apply Ascii.eqb_neq. congruence.
Qed.

Lemma safe_name_clean filename :
  contains_char sep (safe_name filename) = false
  /\ contains_char backslash (safe_name filename) = false.
Proof.
  unfold safe_name. split.
  - apply replace_char_keeps_out; [discriminate|].
    apply replace_char_removes. discriminate.
  - apply replace_char_removes. discriminate.
Qed.

Lemma digits_clean c d :
  (forallb (fun x => negb (Ascii.eqb x c))
           (list_ascii_of_string "0123456789-") = true) ->
  contains_char c (NilEmpty.string_of_uint d) = false.
Proof.
  cbn [list_ascii_of_string forallb]. rewrite !andb_true_iff, !negb_true_iff.
  intros (H0 & H1 & H2 & H3 & H4 & H5 & H6 & H7 & H8 & H9 & _).
  induction d as [|d IH|d IH|d IH|d IH|d IH|d IH|d IH|d IH|d IH|d IH];
    cbn [NilEmpty.string_of_uint contains_char]; [reflexivity|..];
    rewrite IH, orb_false_r; assumption.
Qed.

Lemma str_of_int_clean c t :
  (forallb (fun x => negb (Ascii.eqb x c))
           (list_ascii_of_string "0123456789-") = true) ->
  contains_char c (str_of_int t) = false.
Proof.
  intros Hc. pose proof (digits_clean c) as Hd.
  assert (Hz : Ascii.eqb "0" c = false /\ Ascii.eqb "-" c = false).
  { cbn [list_ascii_of_string forallb] in Hc.
    rewrite !andb_true_iff, !negb_true_iff in Hc. tauto. }
  destruct Hz as [Hz Hm].
  assert (Hu : forall d, contains_char c (NilZero.string_of_uint d) = false).
  { intros d. unfold NilZero.string_of_uint.
    destruct d; try exact (Hd _ Hc).
    cbn [contains_char]. rewrite Hz. reflexivity. }
  unfold str_of_int, NilZero.string_of_int.
  destruct (Z.to_int t) as [d|d]; [apply Hu|].
  cbn [contains_char]. rewrite Hm, Hu. reflexivity.
Qed.

Lemma stamped_clean t filename :
  contains_char sep (stamped t filename) = false
  /\ contains_char backslash (stamped t filename) = false
  /\ contains_char "_" (stamped t filename) = true.
Proof.
  unfold stamped. rewrite !contains_char_app.
  destruct (safe_name_clean filename) as [Hs Hb].
  rewrite Hs, Hb, !(str_of_int_clean _ t) by reflexivity.
  cbn [contains_char]. repeat split; reflexivity.
Qed.

Lemma after_last_sep_clean acc s :
  contains_char sep s = false -> after_last_sep acc s = (acc ++ s)%string.
Proof.
  revert acc. induction s as [|c s IH]; intros acc; cbn.
  - intros _. induction acc as [|x acc IHa]; cbn; [reflexivity|].
    now rewrite <- IHa.
  - intros H. apply orb_false_iff in H. destruct H as [Hc Hs].
    rewrite Hc, (IH _ Hs), append_assoc. reflexivity.
Qed.

Lemma after_last_sep_app acc a name :
  contains_char sep name = false ->
  after_last_sep acc (a ++ String sep name)%string = name.
Proof.
  intros Hname. revert acc.
  induction a as [|c a IH]; intros acc; cbn [append after_last_sep].
  - rewrite Ascii.eqb_refl. now rewrite after_last_sep_clean.
  - destruct (Ascii.eqb c sep); apply IH.
Qed.

Lemma startswith_sep_clean name :
  contains_char sep name = false ->
  startswith name (String sep EmptyString) = false.
Proof.
  destruct name as [|c name]; cbn [startswith contains_char]; [reflexivity|].
  intros H. apply orb_false_iff in H. destruct H as [Hc _].
  rewrite Ascii.eqb_sym, Hc. reflexivity.
Qed.

(** Joining a directory and a name free of separators gives a path whose
    last component is the name *)
Lemma path_join_child dir name :
  contains_char sep name = false ->
  (path_join dir name = (dir ++ String sep name)%string
   \/ path_join dir name = (dir ++ name)%string
      /\ (dir = EmptyString \/ endswith dir (String sep EmptyString) = true))
  /\ basename (path_join dir name) = name.
Proof.
  intros Hname. unfold path_join, basename.
  rewrite (startswith_sep_clean _ Hname).
  destruct (String.eqb_spec dir EmptyString) as [->|Hdir]; cbn [orb].
  - split; [right; auto|]. cbn. now rewrite after_last_sep_clean.
  - destruct (endswith dir (String sep EmptyString)) eqn:Hend.
    + split; [right; auto|].
      destruct (endswith_sep _ Hend) as (a' & ->).
      rewrite append_assoc. cbn. now apply after_last_sep_app.
    + split; [left; reflexivity|]. now apply after_last_sep_app.
Qed.

Section Facts.

Context (cfg : Config) (env : Env).

(** *** The transport client *)

Lemma emits_api_post (P : event -> Prop) method data files :
  (forall lv fmt args, P (EvLog lv fmt args)) ->
  (forall url d f a, P (EvPost url d f a)) ->
  emits P (_api_post cfg env method data files).
Proof.
  intros Hlog Hpost. unfold _api_post, do_post.
  repeat emits_step; auto.
Qed.

Lemma emits_send_message (P : event -> Prop) chat_id text markup mode :
  (forall lv fmt args, P (EvLog lv fmt args)) ->
  (forall url d f a, P (EvPost url d f a)) ->
  emits P (send_message cfg env chat_id text markup mode).
Proof.
  intros Hlog Hpost. unfold send_message.
  repeat emits_step; auto. apply emits_api_post; assumption.
Qed.

Lemma eventually_api_post method data files :
  eventually (posts (TELEGRAM_API_BASE cfg ++ "/" ++ method)%string data files)
             (_api_post cfg env method data files).
Proof.
  unfold _api_post. apply eventually_log_then.
  apply eventually_try_except.
  - apply eventually_bind.
    + intros w. unfold do_post. run. cbn [snd trace].
      constructor. eexists. reflexivity.
    + intros j. repeat emits_step; exact I.
  - intros e. repeat emits_step; exact I.
Qed.

Lemma emits_save_media_to_fs bs filename :
  emits any (save_media_to_fs cfg env bs filename).
Proof. unfold save_media_to_fs, do_write. repeat emits_step; exact I. Qed.

Lemma emits_save_media_to_db bs user_id file_id media_type file_name :
  emits any (save_media_to_db cfg env bs user_id file_id media_type file_name).
Proof. unfold save_media_to_db, do_insert. repeat emits_step; exact I. Qed.

Lemma emits_download_file_by_path fp :
  emits any (download_file_by_path cfg env fp).
Proof. unfold download_file_by_path. repeat emits_step; exact I. Qed.

Lemma eventually_store_media media_type saved file_id user_id chat_id :
  eventually (posts (TELEGRAM_API_BASE cfg ++ "/getFile")%string
                    (Some [("file_id", file_id)]) None)
             (store_media cfg env media_type saved file_id user_id chat_id).
Proof.
  unfold store_media. apply eventually_bind.
  - unfold get_file_path. apply eventually_log_then.
    apply eventually_bind.
    + apply (eventually_api_post "getFile").
    + intros resp. repeat emits_step; exact I.
  - intros fp. repeat emits_step; try exact I.
    + apply emits_download_file_by_path.
    + apply emits_save_media_to_fs.
    + apply emits_save_media_to_db.
    + apply emits_send_message; intros; exact I.
Qed.

(** *** The database sink *)

Lemma save_media_to_db_total file_bytes user_id file_id media_type file_name w :
  exists b w',
    save_media_to_db cfg env file_bytes user_id file_id media_type file_name w
    = (Ok b, w').
Proof.
  unfold save_media_to_db.
  destruct (str_truthy (DATABASE_URL cfg)); cbn [negb].
  - destruct (psycopg2 cfg); cbn [negb].
    + run.
      destruct (db_insert env (trace w) user_id file_id media_type file_name
                  file_bytes); eauto.
    + run. eauto.
  - run. eauto.
Qed.

(** *** A media block after a download that worked *)

Lemma store_media_run media_type saved file_id user_id chat_id w fp w1 bs w2
  filename :
  get_file_path cfg env file_id w = (Ok fp, w1) ->
  download_file_by_path cfg env fp w1 = (Ok bs, w2) ->
  basename_of fp = Ok filename ->
  hashable file_id = true ->
  let dest := media_dest cfg env (trace w2) filename in
  store_media cfg env media_type saved file_id user_id chat_id w =
  match write_file env (trace w2) dest bs with
  | Some e =>
      (Raise e, unwritten cfg env media_type file_id user_id bs filename e w2)
  | None =>
      (save_media_to_db cfg env bs user_id file_id media_type (Some filename) ;;
       send_message cfg env chat_id (saved ++ basename dest ++ ")")%string
                    None None ;;
       ret tt)
        (written cfg env media_type file_id user_id bs filename w2)
  end.
Proof.
  intros Hp Hd Hb Hh dest.
  unfold store_media.
  unfold bind at 1. rewrite Hp.
  unfold bind at 1. rewrite Hd.
  unfold bind at 1. unfold lift at 1. rewrite Hb.
  unfold bind at 1. unfold now at 1. unfold bind at 1. unfold history, ret.
  unfold bind at 1. unfold media_cache_setitem. rewrite Hh.
  unfold bind at 1. unfold save_media_to_fs. run.
  subst dest. unfold media_dest, written, unwritten, cached, media_dest.
  destruct (write_file env (trace w2) _ bs); reflexivity.
Qed.


(** C3.  [save_media_to_db] returns a boolean on every input and in every
    environment, never an exception; the boolean is [False] when
    [DATABASE_URL] is empty, when the driver is missing and when the
    insert raises; and the reply that follows it in a media block (lines
    362-364) runs from the state it leaves. *)
Theorem save_media_to_db_never_raises file_bytes user_id file_id media_type
  file_name w :
  exists b w',
    save_media_to_db cfg env file_bytes user_id file_id media_type file_name w
    = (Ok b, w')
    /\ (DATABASE_URL cfg = EmptyString -> b = false)
    /\ (psycopg2 cfg = false -> b = false)
    /\ (forall e,
           db_insert env (trace w) user_id file_id media_type file_name file_bytes
           = Some e -> b = false)
    /\ (forall chat_id text,
           (save_media_to_db cfg env file_bytes user_id file_id media_type
                             file_name ;;
            send_message cfg env chat_id text None None ;; ret tt) w
           = (send_message cfg env chat_id text None None ;; ret tt) w').
Proof.
  unfold save_media_to_db.
  destruct (str_truthy (DATABASE_URL cfg)) eqn:Hurl; cbn [negb].
  - destruct (psycopg2 cfg) eqn:Hdrv; cbn [negb].
    + run.
      destruct (db_insert env (trace w) user_id file_id media_type file_name
                  file_bytes) as [e|] eqn:Hins.
      * eexists false, _. split; [reflexivity|].
        repeat split; auto.
      * eexists true, _. split; [reflexivity|].
        repeat split; try discriminate.
        intros Hempty. unfold str_truthy in Hurl. rewrite Hempty in Hurl.
        discriminate.
    + run. eexists false, _. split; [reflexivity|]. repeat split; auto.
  - run. eexists false, _. split; [reflexivity|]. repeat split; auto.
Qed.

(** *** The dispatcher *)

Lemma index_last {A : Type} (l : list A) (x : A) :
  index (l ++ [x]) (-1) = Ok x.
Proof.
  unfold index. rewrite length_app. cbn [List.length].
  replace (-1 <? 0) with true by reflexivity.
  assert (Hj : -1 + Z.of_nat (List.length l + 1) = Z.of_nat (List.length l)) by lia.
  rewrite Hj.
  destruct (Z.ltb_spec (Z.of_nat (List.length l)) 0) as [Hneg|_]; [lia|].
  destruct (Z.leb_spec (Z.of_nat (List.length l + 1)) (Z.of_nat (List.length l)))
    as [Hle|_]; [lia|].
  cbn [orb]. rewrite Nat2Z.id.
  rewrite nth_error_app2 by lia. rewrite Nat.sub_diag. reflexivity.
Qed.

Lemma truthy_snoc (l : list json) (x : json) : truthy (JList (l ++ [x])) = true.
Proof. destruct l; reflexivity. Qed.

Lemma photo_block_last msg l largest user_id chat_id w :
  lookup "photo" msg = Some (JList (l ++ [largest])) ->
  photo_block cfg env (JDict msg) user_id chat_id w
  = process_photo cfg env largest user_id chat_id w.
Proof.
  intros Hphoto. unfold photo_block.
  cbn [contains subscript]. unfold dict_has, getitem. rewrite Hphoto.
  unfold bind at 1. unfold lift at 1.
  unfold bind at 1. unfold lift at 1.
  rewrite truthy_snoc, index_last.
  unfold bind at 1. unfold lift at 1. reflexivity.
Qed.

(** The message the dispatcher resolves, with the identifiers it reads
    from it, is what the three blocks are run on *)
Lemma process_update_body_message d msg user chat w :
  message_of d = JDict msg ->
  dict_get msg "from" (JDict []) = JDict user ->
  dict_get msg "chat" (JDict []) = JDict chat ->
  process_update_body cfg env (JDict d) w
  = handle_message cfg env (JDict msg)
      (dict_get user "id" JNull) (dict_get chat "id" JNull) w.
Proof.
  unfold message_of, dict_get. intros Hm Hfrom Hchat.
  unfold process_update_body. cbn [get].
  unfold bind at 1. unfold lift at 1.
  unfold bind at 1.
  assert (Hmsg : (if truthy match lookup "message" d with
                            | Some x => x
                            | None => JNull
                            end
                  then ret match lookup "message" d with
                           | Some x => x
                           | None => JNull
                           end
                  else lift (Ok match lookup "edited_message" d with
                                | Some x => x
                                | None => JNull
                                end)) w = (Ok (JDict msg), w)).
  { destruct (truthy match lookup "message" d with
                     | Some x => x
                     | None => JNull
                     end); rewrite Hm; reflexivity. }
  rewrite Hmsg. cbn [is_none get]. rewrite Hfrom, Hchat. cbn [get].
  unfold user_exists. reflexivity.
Qed.

Lemma emits_get_file_path file_id : emits any (get_file_path cfg env file_id).
Proof.
  unfold get_file_path. repeat emits_step; try exact I.
  apply emits_api_post; intros; exact I.
Qed.

Lemma emits_media_try media_type saved failed_fmt failed file_id user_id chat_id :
  emits any (media_try cfg env media_type saved failed_fmt failed
                       file_id user_id chat_id).
Proof.
  unfold media_try, store_media. repeat emits_step; try exact I;
    first [ apply emits_get_file_path
          | apply emits_download_file_by_path
          | apply emits_save_media_to_fs
          | apply emits_save_media_to_db
          | apply emits_send_message; intros; exact I ].
Qed.

Lemma emits_video_block message user_id chat_id :
  emits any (video_block cfg env message user_id chat_id).
Proof.
  unfold video_block, video_try. repeat emits_step; try exact I.
  apply emits_media_try.
Qed.

Lemma emits_text_block message user_id chat_id :
  emits any (text_block cfg env message user_id chat_id).
Proof.
  unfold text_block, media_cache_keys. repeat emits_step; try exact I;
    try (apply emits_send_message; intros; exact I).
  intros w r w' H. inversion H; subst. exists [].
  split; [reflexivity|constructor].
Qed.

(** The request of [_api_post] is the first thing it leaves *)
Lemma lasts_api_post method data files w :
  let url := (TELEGRAM_API_BASE cfg ++ "/" ++ method)%string in
  exists later,
    trace (snd (_api_post cfg env method data files w))
    = later ++ EvPost url data files (requests_post env (trace w) url data files)
               :: trace w.
Proof.
  intros url. unfold _api_post. fold url. rewrite debug_then.
  apply lasts_try_except.
  - apply lasts_bind.
    + exists []. unfold do_post. run.
      destruct (requests_post env (trace w) url data files); reflexivity.
    + intros j. repeat emits_step; exact I.
  - intros e. repeat emits_step; exact I.
Qed.

(** A path comes back from [get_file_path] after its one request and
    nothing else *)
Lemma get_file_path_answer file_id w p w1 :
  get_file_path cfg env file_id w = (Ok p, w1) ->
  let url := (TELEGRAM_API_BASE cfg ++ "/getFile")%string in
  let data := Some [("file_id", file_id)] in
  trace w1 = EvPost url data None (requests_post env (trace w) url data None)
             :: trace w.
Proof.
  intros H url data. revert H.
  unfold get_file_path, _api_post, do_post. run.
  change (TELEGRAM_API_BASE cfg ++ "/" ++ "getFile")%string with url.
  fold data.
  destruct (requests_post env (trace w) url data None) as [j|e];
    [|discriminate].
  destruct (get j "ok" JNull) as [ok|e]; [|discriminate].
  destruct (truthy ok); cbn [negb]; [|discriminate].
  destruct (get j "result" (JDict [])) as [res|e]; [|discriminate].
  destruct (get res "file_path" JNull) as [q|e]; [|discriminate].
  destruct (truthy q); cbn [negb]; [|discriminate].
  intros [= <- <-]. reflexivity.
Qed.

Lemma lasts_download_file_by_path fp w :
  exists later,
    trace (snd (download_file_by_path cfg env fp w))
    = later ++ EvGet (TELEGRAM_FILE_BASE cfg) fp
                 (requests_get env (trace w) (TELEGRAM_FILE_BASE cfg) fp)
               :: trace w.
Proof. exists []. reflexivity. Qed.

(** C5.  On every update whose message carries a non-empty photo list,
    whatever its length, [process_update] goes on with the last element
    of the list and with no other: past the entry record and the record
    of the incoming photo, the run is the guarded processing of the
    [file_id] of that element, followed by the video and text handling;
    the first request it makes asks [getFile] for that [file_id], and
    when a path comes back the download that follows at once is the
    download of that path. *)
Theorem dispatcher_selects_last_photo d msg user chat l x w :
  message_of d = JDict msg ->
  dict_get msg "from" (JDict []) = JDict user ->
  dict_get msg "chat" (JDict []) = JDict chat ->
  lookup "photo" msg = Some (JList (l ++ [JDict x])) ->
  let user_id := dict_get user "id" JNull in
  let chat_id := dict_get chat "id" JNull in
  let file_id := dict_get x "file_id" JNull in
  let url := (TELEGRAM_API_BASE cfg ++ "/getFile")%string in
  let data := Some [("file_id", file_id)] in
  let w0 := after (EvLog LvInfo "Incoming photo file_id=%s from user=%s"
                         [LJ file_id; LJ user_id] :: entry_events d) w in
  let asked := EvPost url data None (requests_post env (trace w0) url data None) in
  let w' := snd (process_update cfg env (JDict d) w) in
  process_update cfg env (JDict d) w
  = try_except
      (photo_try cfg env file_id user_id chat_id ;;
       video_block cfg env (JDict msg) user_id chat_id ;;
       text_block cfg env (JDict msg) user_id chat_id)
      (fun e => log LvError "Unhandled exception in process_update: %s" [LX e])
      w0
  /\ (exists later, trace w' = later ++ asked :: trace w0)
  /\ (forall p w1,
         get_file_path cfg env file_id w0 = (Ok p, w1) ->
         trace w1 = asked :: trace w0
         /\ exists later,
              trace w'
              = later ++ EvGet (TELEGRAM_FILE_BASE cfg) p
                           (requests_get env (trace w1) (TELEGRAM_FILE_BASE cfg) p)
                         :: trace w1).
Proof.
  intros Hm Hfrom Hchat Hphoto user_id chat_id file_id url data w0 asked w'.
  assert (Hrun : process_update cfg env (JDict d) w
                 = try_except
                     (photo_try cfg env file_id user_id chat_id ;;
                      video_block cfg env (JDict msg) user_id chat_id ;;
                      text_block cfg env (JDict msg) user_id chat_id)
                     (fun e => log LvError
                                 "Unhandled exception in process_update: %s"
                                 [LX e])
                     w0).
  { unfold process_update. cbn [keys].
    unfold bind at 1. unfold emit at 1.
    unfold bind at 1. unfold lift at 1.
    unfold bind at 1. unfold log at 1. unfold emit at 1.
    cbn [trace media_cache log_dir]. unfold try_except.
    rewrite (process_update_body_message d msg user chat _ Hm Hfrom Hchat).
    fold user_id. fold chat_id.
    unfold handle_message. unfold bind at 1.
    rewrite (photo_block_last msg l (JDict x) user_id chat_id _ Hphoto).
    reflexivity. }
  assert (Hrest : forall u : unit,
             emits any (video_block cfg env (JDict msg) user_id chat_id ;;
                        text_block cfg env (JDict msg) user_id chat_id)).
  { intros _. apply emits_bind; [apply emits_video_block|].
    intros _. apply emits_text_block. }
  assert (Hnotice : forall e : exn,
             emits any (log LvError "Error processing photo: %s" [LX e] ;;
                        send_message cfg env chat_id PHOTO_ERROR None None ;;
                        ret tt)).
  { intros e. repeat emits_step; try exact I.
    apply emits_send_message; intros; exact I. }
  assert (Hstore : forall fp : json,
             emits any
               (file_bytes <- download_file_by_path cfg env fp ;;
                filename <- lift (basename_of fp) ;;
                ts <- now env ;;
                media_cache_setitem file_id
                  {| ce_bytes := file_bytes; ce_user_id := user_id;
                     ce_type := "photo"; ce_filename := filename;
                     ce_ts := ts |} ;;
                fs_path <- save_media_to_fs cfg env file_bytes filename ;;
                save_media_to_db cfg env file_bytes user_id file_id "photo"
                                 (Some filename) ;;
                send_message cfg env chat_id
                  (PHOTO_SAVED ++ basename fs_path ++ ")")%string None None ;;
                ret tt)).
  { intros fp. repeat emits_step; try exact I;
      first [ apply emits_download_file_by_path
            | apply emits_save_media_to_fs
            | apply emits_save_media_to_db
            | apply emits_send_message; intros; exact I ]. }
  split; [exact Hrun|]. subst w'. rewrite Hrun. split.
  - apply lasts_try_except; [|intros e; repeat emits_step; exact I].
    apply lasts_bind; [|exact Hrest].
    unfold photo_try, media_try.
    apply lasts_try_except; [|exact Hnotice].
    unfold store_media. apply lasts_bind; [|exact Hstore].
    unfold get_file_path. rewrite debug_then.
    apply lasts_bind; [apply (lasts_api_post "getFile")|].
    intros resp. repeat emits_step; exact I.
  - intros p w1 Hg. split; [exact (get_file_path_answer _ _ _ _ Hg)|].
    apply lasts_try_except; [|intros e; repeat emits_step; exact I].
    apply lasts_bind; [|exact Hrest].
    unfold photo_try, media_try.
    apply lasts_try_except; [|exact Hnotice].
    unfold store_media. apply (lasts_after _ _ _ _ _ _ Hg).
    apply lasts_bind; [apply lasts_download_file_by_path|].
    intros bs. repeat emits_step; try exact I;
      first [ apply emits_save_media_to_fs
            | apply emits_save_media_to_db
            | apply emits_send_message; intros; exact I ].
Qed.

(** The dispatcher returns normally on every update that is an object *)
Lemma process_update_dict d w :
  exists w', process_update cfg env (JDict d) w = (Ok tt, w').
Proof.
  unfold process_update. cbn [keys]. run.
  destruct (process_update_body cfg env (JDict d) _) as [[[]|e] w1]; eauto.
Qed.

(** C4.  On every update that is an object and in every environment
    [process_update] returns normally; an exception that leaves the body
    of its [try] is logged by the handler and goes no further. *)
Theorem process_update_returns_normally d w :
  exists w',
    process_update cfg env (JDict d) w = (Ok tt, w')
    /\ forall e w1,
         process_update_body cfg env (JDict d)
           (after [EvLog LvInfo "Processing update keys=%s"
                     [LJ (JList (map JStr (map fst d)))];
                   EvDispatch (JDict d)] w) = (Raise e, w1) ->
         w' = after [EvLog LvError "Unhandled exception in process_update: %s"
                       [LX e]] w1.
Proof.
  unfold process_update. cbn [keys]. run. unfold after. cbn [app].
  destruct (process_update_body cfg env (JDict d) _) as [[[]|e] w1] eqn:Hbody.
  - eexists. split; [reflexivity|]. intros e w2 H. discriminate.
  - eexists. split; [reflexivity|]. intros e' w2 H.
    inversion H; subst. reflexivity.
Qed.

Lemma eventually_send_message chat_id text :
  eventually (posts (TELEGRAM_API_BASE cfg ++ "/sendMessage")%string
                    (Some [("chat_id", chat_id); ("text", JStr text)]) None)
             (send_message cfg env chat_id text None None).
Proof.
  unfold send_message. apply eventually_log_then.
  apply (eventually_api_post "sendMessage").
Qed.

(** C2 (amended).  When the [try] of the photo block raises, for whatever
    reason, the handler logs it and sends the generic notice; if that
    send returns, the notice is in the trace and the dispatch goes on
    with the video block and the text block from there. *)
Theorem photo_failure_contained msg l largest file_id user_id chat_id
  w e w1 j w2 :
  lookup "photo" msg = Some (JList (l ++ [largest])) ->
  get largest "file_id" JNull = Ok file_id ->
  store_media cfg env "photo" PHOTO_SAVED file_id user_id chat_id
    (after [EvLog LvInfo "Incoming photo file_id=%s from user=%s"
              [LJ file_id; LJ user_id]] w) = (Raise e, w1) ->
  send_message cfg env chat_id PHOTO_ERROR None None
    (after [EvLog LvError "Error processing photo: %s" [LX e]] w1) = (Ok j, w2) ->
  handle_message cfg env (JDict msg) user_id chat_id w
  = (video_block cfg env (JDict msg) user_id chat_id ;;
     text_block cfg env (JDict msg) user_id chat_id) w2
  /\ Exists (posts (TELEGRAM_API_BASE cfg ++ "/sendMessage")%string
                   (Some [("chat_id", chat_id); ("text", JStr PHOTO_ERROR)]) None)
            (trace w2).
Proof.
  intros Hphoto Hfid Hstore Hsend. split.
  - unfold handle_message. unfold bind at 1.
    rewrite (photo_block_last msg l largest user_id chat_id w Hphoto).
    unfold process_photo. unfold bind at 1. unfold lift at 1. rewrite Hfid.
    unfold bind at 1. unfold log at 1. unfold emit at 1.
    unfold photo_try, media_try, try_except.
    unfold after in Hstore, Hsend. cbn [app] in Hstore, Hsend.
    rewrite Hstore.
    unfold bind at 1. unfold log at 1. unfold emit at 1.
    unfold bind at 1. rewrite Hsend. reflexivity.
  - pose proof (eventually_send_message chat_id PHOTO_ERROR
                  (after [EvLog LvError "Error processing photo: %s" [LX e]] w1))
      as Hev.
    rewrite Hsend in Hev. exact Hev.
Qed.

(** *** Sending media *)

Lemma emits_send_photo_bytes chat_id path b caption :
  emits not_open (send_photo cfg env chat_id path (Some b) caption).
Proof.
  unfold send_photo. repeat emits_step; try reflexivity.
  apply emits_api_post; intros; reflexivity.
Qed.

Lemma emits_send_video_bytes chat_id path b caption :
  emits not_open (send_video cfg env chat_id path (Some b) caption).
Proof.
  unfold send_video. repeat emits_step; try reflexivity.
  apply emits_api_post; intros; reflexivity.
Qed.

Lemma emits_send_photo_path chat_id p caption :
  emits (opens_only p) (send_photo cfg env chat_id (Some p) None caption).
Proof.
  unfold send_photo, do_open.
  repeat emits_step; try (intros ? ? [=]; congruence).
  apply emits_api_post; intros; intros ? ? [=].
Qed.

Lemma emits_send_video_path chat_id p caption :
  emits (opens_only p) (send_video cfg env chat_id (Some p) None caption).
Proof.
  unfold send_video, do_open.
  repeat emits_step; try (intros ? ? [=]; congruence).
  apply emits_api_post; intros; intros ? ? [=].
Qed.

Lemma opened_means_no_bytes {A} (m : option bytes -> M A) path bs w r w' p f :
  (forall b, emits not_open (m (Some b))) ->
  (forall q, path = Some q -> emits (opens_only q) (m None)) ->
  (path = None -> emits not_open (m None)) ->
  m bs w = (r, w') ->
  In (EvOpen p f) (trace w') -> ~ In (EvOpen p f) (trace w) ->
  bs = None /\ path = Some p.
Proof.
  intros Hsome Hpath Hnone Hrun Hin Hold.
  destruct bs as [b|].
  - destruct (Hsome b _ _ _ Hrun) as (new & E & F).
    rewrite E in Hin. apply in_app_or in Hin. destruct Hin as [Hin|Hin]; [|tauto].
    rewrite Forall_forall in F. specialize (F _ Hin). discriminate.
  - split; [reflexivity|]. destruct path as [q|].
    + destruct (Hpath q eq_refl _ _ _ Hrun) as (new & E & F).
      rewrite E in Hin. apply in_app_or in Hin. destruct Hin as [Hin|Hin]; [|tauto].
      rewrite Forall_forall in F. specialize (F _ Hin p f eq_refl). congruence.
    + destruct (Hnone eq_refl _ _ _ Hrun) as (new & E & F).
      rewrite E in Hin. apply in_app_or in Hin. destruct Hin as [Hin|Hin]; [|tauto].
      rewrite Forall_forall in F. specialize (F _ Hin). discriminate.
Qed.

(** C10.  With a byte buffer, [send_photo] and [send_video] behave as if
    no path were given: they open no file and post the buffer.  A file
    is opened by them only when the buffer is absent, and it is the one
    at the path. *)
Theorem bytes_take_precedence chat_id path caption :
  (forall b,
      send_photo cfg env chat_id path (Some b) caption
      = send_photo cfg env chat_id None (Some b) caption
      /\ emits not_open (send_photo cfg env chat_id path (Some b) caption)
      /\ eventually
           (posts (TELEGRAM_API_BASE cfg ++ "/sendPhoto")%string
                  (Some (with_caption chat_id caption))
                  (Some (UploadBytes "photo" "photo.jpg" b)))
           (send_photo cfg env chat_id path (Some b) caption))
  /\ (forall b,
      send_video cfg env chat_id path (Some b) caption
      = send_video cfg env chat_id None (Some b) caption
      /\ emits not_open (send_video cfg env chat_id path (Some b) caption)
      /\ eventually
           (posts (TELEGRAM_API_BASE cfg ++ "/sendVideo")%string
                  (Some (with_caption chat_id caption))
                  (Some (UploadBytes "video" "video.mp4" b)))
           (send_video cfg env chat_id path (Some b) caption))
  /\ (forall bs w r w' p f,
      send_photo cfg env chat_id path bs caption w = (r, w') ->
      In (EvOpen p f) (trace w') -> ~ In (EvOpen p f) (trace w) ->
      bs = None /\ path = Some p)
  /\ (forall bs w r w' p f,
      send_video cfg env chat_id path bs caption w = (r, w') ->
      In (EvOpen p f) (trace w') -> ~ In (EvOpen p f) (trace w) ->
      bs = None /\ path = Some p).
Proof.
  split; [|split; [|split]].
  - intros b. split; [reflexivity|]. split.
    + apply emits_send_photo_bytes.
    + unfold send_photo. apply eventually_log_then.
      apply (eventually_api_post "sendPhoto").
  - intros b. split; [reflexivity|]. split.
    + apply emits_send_video_bytes.
    + unfold send_video. apply eventually_log_then.
      apply (eventually_api_post "sendVideo").
  - intros bs w r w' p f.
    apply (opened_means_no_bytes
             (fun bs => send_photo cfg env chat_id path bs caption)).
    + intros b. apply emits_send_photo_bytes.
    + intros q ->. apply emits_send_photo_path.
    + intros ->. unfold send_photo. apply emits_raise.
  - intros bs w r w' p f.
    apply (opened_means_no_bytes
             (fun bs => send_video cfg env chat_id path bs caption)).
    + intros b. apply emits_send_video_bytes.
    + intros q ->. apply emits_send_video_path.
    + intros ->. unfold send_video. apply emits_raise.
Qed.

(** *** The webhook endpoint *)

Lemma str_truthy_true s : s <> EmptyString -> str_truthy s = true.
Proof.
  intros H. unfold str_truthy. apply negb_true_iff. apply String.eqb_neq. exact H.
Qed.

Lemma str_truthy_false s : s = EmptyString -> str_truthy s = false.
Proof. intros ->. reflexivity. Qed.

(** The secret check lets the request through or raises a 403 *)
Lemma check_secret_cases req w :
  check_secret cfg req w = (Ok tt, w)
  \/ exists detail ev,
       check_secret cfg req w
       = (Raise (HTTPException 403 detail), after [ev] w)
       /\ is_dispatch ev = false.
Proof.
  unfold check_secret.
  destruct (str_truthy (WEBHOOK_SECRET cfg)); [|left; reflexivity].
  destruct (x_telegram_bot_api_secret_token req) as [t|]; cbn [header_truthy].
  - destruct (str_truthy t).
    + destruct (negb (String.eqb t (WEBHOOK_SECRET cfg))).
      * right. run. do 2 eexists. split; reflexivity.
      * left. reflexivity.
    + destruct (negb (String.eqb (secret_path req) (WEBHOOK_SECRET cfg))
                && negb (String.eqb (WEBHOOK_SECRET cfg) EmptyString)).
      * right. run. do 2 eexists. split; reflexivity.
      * left. reflexivity.
  - destruct (negb (String.eqb (secret_path req) (WEBHOOK_SECRET cfg))
              && negb (String.eqb (WEBHOOK_SECRET cfg) EmptyString)).
    + right. run. do 2 eexists. split; reflexivity.
    + left. reflexivity.
Qed.

(** C6 (amended).  With no secret configured the check is skipped.  With
    a secret configured, a header that is present, not empty and
    different from the secret is answered 403, and so is a request
    whose header is absent or empty and whose path segment differs from
    the secret; in both cases the only thing that happens is a warning
    in the log: the dispatcher is neither called nor scheduled. *)
Theorem webhook_secret_check req w :
  (WEBHOOK_SECRET cfg = EmptyString ->
   check_secret cfg req w = (Ok tt, w))
  /\ (WEBHOOK_SECRET cfg <> EmptyString ->
      (forall t,
          x_telegram_bot_api_secret_token req = Some t ->
          t <> EmptyString ->
          t <> WEBHOOK_SECRET cfg ->
          serve_webhook cfg env req w
          = (forbidden "Invalid webhook secret header",
             after [EvLog LvWarning
                      "Webhook secret header mismatch. Provided=%s"
                      [LJ (JStr t)]] w))
      /\ (header_truthy (x_telegram_bot_api_secret_token req) = false ->
          secret_path req <> WEBHOOK_SECRET cfg ->
          serve_webhook cfg env req w
          = (forbidden "Invalid webhook path secret",
             after [EvLog LvWarning
                      "Webhook secret path mismatch. path=%s expected=%s"
                      [LJ (JStr (secret_path req));
                       LJ (JStr (WEBHOOK_SECRET cfg))]] w))).
Proof.
  split.
  - intros Hnone. unfold check_secret.
    rewrite (str_truthy_false _ Hnone). reflexivity.
  - intros Hset. split.
    + intros t Hhdr Ht Hdiff.
      unfold serve_webhook, webhook_endpoint. unfold bind at 1.
      unfold check_secret.
      rewrite (str_truthy_true _ Hset), Hhdr. cbn [header_truthy].
      rewrite (str_truthy_true _ Ht).
      apply String.eqb_neq in Hdiff. rewrite Hdiff. cbn [negb].
      run. reflexivity.
    + intros Hhdr Hpath.
      unfold serve_webhook, webhook_endpoint. unfold bind at 1.
      unfold check_secret.
      rewrite (str_truthy_true _ Hset), Hhdr.
      apply String.eqb_neq in Hpath. rewrite Hpath.
      apply String.eqb_neq in Hset. rewrite Hset. cbn [negb andb].
      run. reflexivity.
Qed.

(** C7 (amended).  Past the secret check: a body that does not decode is
    answered 400 after one record in the log, with no dispatch; a body
    that decodes is answered 200 with [{"ok": true}] once the task is
    handed to the loop, and also, when the loop refuses the task, once
    the dispatcher has run inline on a payload that is an object.  On
    any request whose payload is an object or whose task the loop
    accepts, the status is 200, 400 or 403. *)
Theorem webhook_after_secret_check req w :
  (forall e,
      check_secret cfg req w = (Ok tt, w) ->
      request_json req = Raise e ->
      serve_webhook cfg env req w
      = (bad_request,
         after [EvLog LvError "Failed to parse webhook JSON: %s" [LX e]] w))
  /\ (forall payload,
      check_secret cfg req w = (Ok tt, w) ->
      request_json req = Ok payload ->
      create_task env (trace w) payload = None ->
      serve_webhook cfg env req w = (accepted, after [EvSpawn payload None] w))
  /\ (forall d e,
      check_secret cfg req w = (Ok tt, w) ->
      request_json req = Ok (JDict d) ->
      create_task env (trace w) (JDict d) = Some e ->
      exists w',
        process_update cfg env (JDict d)
          (after [EvSpawn (JDict d) (Some e)] w) = (Ok tt, w')
        /\ serve_webhook cfg env req w = (accepted, w'))
  /\ ((forall payload,
         request_json req = Ok payload ->
         create_task env (trace w) payload = None
         \/ exists d, payload = JDict d) ->
      let code := status (fst (serve_webhook cfg env req w)) in
      code = 200 \/ code = 400 \/ code = 403).
Proof.
  assert (Hbad : forall e,
      check_secret cfg req w = (Ok tt, w) ->
      request_json req = Raise e ->
      serve_webhook cfg env req w
      = (bad_request,
         after [EvLog LvError "Failed to parse webhook JSON: %s" [LX e]] w)).
  { intros e Hs Hj. unfold serve_webhook, webhook_endpoint.
    unfold bind at 1. rewrite Hs.
    unfold bind at 1. unfold try_except at 1. unfold lift at 1. rewrite Hj.
    run. reflexivity. }
  assert (Hspawn : forall payload,
      check_secret cfg req w = (Ok tt, w) ->
      request_json req = Ok payload ->
      create_task env (trace w) payload = None ->
      serve_webhook cfg env req w = (accepted, after [EvSpawn payload None] w)).
  { intros payload Hs Hj Ht. unfold serve_webhook, webhook_endpoint.
    unfold bind at 1. rewrite Hs.
    unfold bind at 1. unfold try_except at 1. unfold lift at 1. rewrite Hj.
    unfold bind at 1. unfold try_except at 1. unfold spawn. run.
    rewrite Ht. reflexivity. }
  assert (Hinline : forall d e,
      check_secret cfg req w = (Ok tt, w) ->
      request_json req = Ok (JDict d) ->
      create_task env (trace w) (JDict d) = Some e ->
      exists w',
        process_update cfg env (JDict d)
          (after [EvSpawn (JDict d) (Some e)] w) = (Ok tt, w')
        /\ serve_webhook cfg env req w = (accepted, w')).
  { intros d e Hs Hj Ht.
    destruct (process_update_dict d (after [EvSpawn (JDict d) (Some e)] w))
      as (w' & Hrun).
    exists w'. split; [exact Hrun|].
    unfold serve_webhook, webhook_endpoint.
    unfold bind at 1. rewrite Hs.
    unfold bind at 1. unfold try_except at 1. unfold lift at 1. rewrite Hj.
    unfold bind at 1. unfold try_except at 1. unfold spawn. run.
    rewrite Ht. unfold after in Hrun. cbn [app] in Hrun. rewrite Hrun.
    reflexivity. }
  split; [exact Hbad|]. split; [exact Hspawn|]. split; [exact Hinline|].
  intros Hok code. subst code.
  destruct (check_secret_cases req w) as [Hs|(detail & ev & Hs & _)].
  - destruct (request_json req) as [payload|e] eqn:Hj.
    + destruct (Hok payload eq_refl) as [Ht|(d & ->)].
      * rewrite (Hspawn payload Hs eq_refl Ht). left. reflexivity.
      * destruct (create_task env (trace w) (JDict d)) as [e|] eqn:Ht.
        -- destruct (Hinline d e Hs eq_refl Ht) as (w' & _ & ->).
           left. reflexivity.
        -- rewrite (Hspawn (JDict d) Hs eq_refl Ht). left. reflexivity.
    + rewrite (Hbad e Hs eq_refl). right. left. reflexivity.
  - right. right.
    unfold serve_webhook, webhook_endpoint. unfold bind at 1. rewrite Hs.
    reflexivity.
Qed.

(** *** The filesystem sink *)

(** C9.  Whatever the file name, the name [save_media_to_fs] writes
    under has neither a slash nor a backslash, is not [.] or [..], and
    starts with the timestamp; the destination is the media directory
    followed by that one component, it is what the function returns when
    the write works, and no other file is written. *)
Theorem save_media_to_fs_in_media_dir bs filename w :
  let t := int_of (time_time env (trace w)) in
  let name := stamped t filename in
  let dest := path_join (MEDIA_DIR cfg) name in
  name = (str_of_int t ++ "_" ++ safe_name filename)%string
  /\ contains_char "/" name = false
  /\ contains_char backslash name = false
  /\ name <> "." /\ name <> ".."
  /\ (dest = (MEDIA_DIR cfg ++ String "/" name)%string
      \/ dest = (MEDIA_DIR cfg ++ name)%string
         /\ (MEDIA_DIR cfg = EmptyString
             \/ endswith (MEDIA_DIR cfg) "/" = true))
  /\ basename dest = name
  /\ exists r w',
       save_media_to_fs cfg env bs filename w = (r, w')
       /\ (forall d, r = Ok d -> d = dest)
       /\ (forall p c f, In (EvWrite p c f) (trace w') ->
                         p = dest \/ In (EvWrite p c f) (trace w)).
Proof.
  intros t name dest.
  destruct (stamped_clean t filename) as (Hsep & Hback & Hunder).
  fold name in Hsep, Hback, Hunder.
  destruct (path_join_child (MEDIA_DIR cfg) name Hsep) as [Hshape Hbase].
  fold dest in Hshape, Hbase.
  split; [reflexivity|]. split; [exact Hsep|]. split; [exact Hback|].
  split; [intros E; rewrite E in Hunder; discriminate|].
  split; [intros E; rewrite E in Hunder; discriminate|].
  split; [exact Hshape|]. split; [exact Hbase|].
  unfold save_media_to_fs. run. fold t. fold name. fold dest.
  destruct (write_file env (trace w) dest bs) as [e|].
  - do 2 eexists. split; [reflexivity|]. split; [discriminate|].
    cbn [trace]. intros p c f [H|H]; [left; congruence|right; exact H].
  - do 2 eexists. split; [reflexivity|]. split; [congruence|].
    cbn [trace]. intros p c f [H|[H|H]];
      [discriminate|left; congruence|right; exact H].
Qed.

End Facts.

(** *** Retention *)

Lemma filter_filter {A} (f g : A -> bool) (l : list A) :
  filter f (filter g l) = filter (fun x => g x && f x) l.
Proof.
  induction l as [|x l IH]; cbn; [reflexivity|].
  destruct (g x); cbn; [destruct (f x)|]; now rewrite IH.
Qed.

Lemma filter_all {A} (f : A -> bool) (l : list A) :
  (forall x, In x l -> f x = true) -> filter f l = l.
Proof.
  induction l as [|x l IH]; cbn; [reflexivity|]. intros H.
  rewrite (H x (or_introl eq_refl)), IH; auto.
Qed.

Lemma file_mtime_unlink n m d :
  m <> n -> file_mtime m (unlink n d) = file_mtime m d.
Proof.
  intros Hmn. induction d as [|[k t] d IH]; cbn; [reflexivity|].
  destruct (String.eqb_spec k n) as [->|Hk]; cbn.
  - destruct (String.eqb_spec n m); [congruence|exact IH].
  - destruct (String.eqb k m); [reflexivity|exact IH].
Qed.

(** In a directory, a name leads to the file that carries it *)
Lemma file_mtime_in d :
  NoDup (map fst d) ->
  forall f, In f d -> file_mtime (fst f) d = Some (snd f).
Proof.
  induction d as [|[k t] d IH]; intros Hnd f Hin; [contradiction|].
  inversion Hnd as [|? ? Hnotin Hrest]; subst. cbn [file_mtime].
  destruct Hin as [<-|Hin]; cbn [fst snd].
  - now rewrite String.eqb_refl.
  - destruct (String.eqb_spec k (fst f)) as [->|_]; [|now apply IH].
    exfalso. apply Hnotin. apply in_map. exact Hin.
Qed.

Lemma expired_names cutoff d l :
  (forall f, In f l -> file_mtime (fst f) d = Some (snd f)) ->
  filter (expired_name cutoff d) (map fst l)
  = map fst (filter (expired cutoff) l).
Proof.
  induction l as [|f l IH]; intros H; cbn [map filter]; [reflexivity|].
  assert (E : expired_name cutoff d (fst f) = expired cutoff f).
  { unfold expired_name, expired. now rewrite (H f (or_introl eq_refl)). }
  rewrite E, IH by (intros g Hg; apply H; now right).
  destruct (expired cutoff f); reflexivity.
Qed.

Lemma listed d (f : string * Q) :
  In f d -> existsb (String.eqb (fst f)) (map fst d) = true.
Proof.
  intros Hin. apply existsb_exists. exists (fst f).
  split; [now apply in_map|apply String.eqb_refl].
Qed.

Section Retention.

Context (cfg : Config) (env : Env).

Hypothesis listdir_works : forall h p, os_listdir env h p = None.
Hypothesis getmtime_works : forall h p, os_getmtime env h p = None.
Hypothesis remove_works : forall h p, os_remove env h p = None.

(** The loop of lines 465-475 over a listing without repetition *)
Lemma sweep_run cutoff names :
  NoDup names ->
  forall removed w, exists w',
    sweep cfg env cutoff names removed w
    = (Ok (removed ++ map (path_join (LOG_DIR cfg))
                          (filter (expired_name cutoff (log_dir w)) names)), w')
    /\ log_dir w' = filter (kept cutoff (log_dir w) names) (log_dir w)
    /\ media_cache w' = media_cache w.
Proof.
  induction names as [|n rest IH]; intros Hnd removed w.
  - exists w. cbn [sweep filter map]. rewrite app_nil_r.
    split; [reflexivity|]. split; [|reflexivity].
    symmetry. apply filter_all. intros f _. unfold kept. cbn [existsb].
    now rewrite andb_false_r.
  - inversion Hnd as [|? ? Hnotin Hrest]; subst.
    assert (Hskip : expired_name cutoff (log_dir w) n = false ->
              forall w1,
                log_dir w1 = log_dir w -> media_cache w1 = media_cache w ->
                exists w',
                  sweep cfg env cutoff rest removed w1
                  = (Ok (removed ++ map (path_join (LOG_DIR cfg))
                           (filter (expired_name cutoff (log_dir w))
                                   (n :: rest))), w')
                  /\ log_dir w'
                     = filter (kept cutoff (log_dir w) (n :: rest)) (log_dir w)
                  /\ media_cache w' = media_cache w).
    { intros Hexp w1 Hd Hc.
      destruct (IH Hrest removed w1) as (w' & Hrun & Hdir & Hcache).
      exists w'. cbn [filter]. rewrite Hexp, <- Hd. split; [exact Hrun|].
      split; [|congruence].
      rewrite Hdir. apply filter_ext. intros f. unfold kept. cbn [existsb].
      destruct (String.eqb_spec (fst f) n) as [->|_]; cbn [orb]; [|reflexivity].
      rewrite Hd, Hexp. reflexivity. }
    cbn [sweep]. unfold expired_name in Hskip at 1.
    destruct (not_a_log n) eqn:Hlog.
    { apply Hskip; reflexivity. }
    cbn [negb andb] in Hskip.
    unfold bind at 1. unfold try_except at 1. unfold bind at 1.
    unfold do_getmtime at 1. unfold bind at 1. unfold history at 1.
    rewrite getmtime_works.
    destruct (file_mtime n (log_dir w)) as [t|] eqn:Hfile.
    2:{ run. apply Hskip; reflexivity. }
    destruct (Qltb t cutoff) eqn:Hold.
    2:{ run. apply Hskip; reflexivity. }
    unfold bind at 1. unfold do_remove at 1. unfold bind at 1.
    unfold history at 1. rewrite remove_works. cbn [log_dir trace media_cache].
    rewrite Hfile. unfold ret at 1.
    match goal with
    | |- context [sweep cfg env cutoff rest _ ?w1] =>
        destruct (IH Hrest (removed ++ [path_join (LOG_DIR cfg) n]) w1)
          as (w' & Hrun & Hdir & Hcache)
    end.
    cbn [log_dir media_cache] in Hrun, Hdir, Hcache.
    exists w'. split; [|split; [|exact Hcache]].
    + rewrite Hrun. f_equal. f_equal. cbn [filter].
      unfold expired_name at 2. rewrite Hlog, Hfile, Hold. cbn [negb andb map].
      rewrite <- app_assoc. cbn [app]. do 3 f_equal.
      apply filter_ext_in. intros m Hin. unfold expired_name.
      rewrite file_mtime_unlink; [reflexivity|]. intros ->. contradiction.
    + rewrite Hdir. unfold unlink at 2. rewrite filter_filter.
      apply filter_ext. intros f. unfold kept. cbn [existsb].
      destruct (String.eqb_spec (fst f) n) as [E|E]; cbn [negb andb orb].
      * rewrite E. unfold expired_name. rewrite Hlog, Hfile, Hold. reflexivity.
      * unfold expired_name. rewrite file_mtime_unlink by exact E. reflexivity.
Qed.

Lemma remove_old_logs_run older w :
  NoDup (map fst (log_dir w)) ->
  let cutoff := (time_time env (trace w) - days older)%Q in
  let gone := filter (expired cutoff) (log_dir w) in
  let paths := map (fun f => path_join (LOG_DIR cfg) (fst f)) gone in
  exists w',
    _remove_old_logs cfg env older w = (Ok tt, w')
    /\ log_dir w' = filter (fun f => negb (expired cutoff f)) (log_dir w)
    /\ hd_error (trace w') = Some (cleanup_record paths).
Proof.
  intros Hnd cutoff gone paths.
  unfold _remove_old_logs.
  unfold bind at 1. unfold now at 1. unfold bind at 1. unfold history, ret.
  fold (days older). fold cutoff.
  unfold bind at 1. unfold do_listdir at 1. unfold bind at 1. unfold history at 1.
  unfold bind at 1. unfold emit at 1. rewrite listdir_works.
  unfold bind at 1. unfold raise_if at 1. unfold ret at 1.
  cbn [log_dir trace media_cache].
  unfold bind at 1.
  match goal with
  | |- context [sweep cfg env cutoff _ [] ?w1] =>
      destruct (sweep_run cutoff (map fst (log_dir w)) Hnd [] w1)
        as (w2 & Hrun & Hdir & Hcache)
  end.
  cbn [log_dir app] in Hrun, Hdir.
  rewrite Hrun.
  rewrite (expired_names cutoff (log_dir w) (log_dir w) (file_mtime_in _ Hnd)),
    map_map in *.
  fold gone. fold paths.
  assert (Hkept : log_dir w2
                  = filter (fun f => negb (expired cutoff f)) (log_dir w)).
  { rewrite Hdir. apply filter_ext_in. intros f Hin. unfold kept.
    rewrite (listed _ _ Hin), andb_true_r. f_equal.
    unfold expired_name, expired.
    now rewrite (file_mtime_in _ Hnd f Hin). }
  destruct paths as [|p ps] eqn:Hpaths; run.
  - eexists. split; [reflexivity|]. split; [exact Hkept|reflexivity].
  - eexists. split; [reflexivity|]. split; [exact Hkept|reflexivity].
Qed.

End Retention.

(** C8 (amended).  Called with a threshold in days on a log directory
    whose operations work, the cleanup removes exactly the files whose
    name ends in [.log] or starts with [bot.log] and whose modification
    time is before the threshold, leaves the others, and ends with a
    record of the paths removed or of their absence.  The scheduler
    calls it with 31 days. *)
Theorem retention_removes_expired_logs cfg env older w :
  (forall h p, os_listdir env h p = None) ->
  (forall h p, os_getmtime env h p = None) ->
  (forall h p, os_remove env h p = None) ->
  NoDup (map fst (log_dir w)) ->
  let cutoff := (time_time env (trace w) - days older)%Q in
  let gone := filter (expired cutoff) (log_dir w) in
  let paths := map (fun f => path_join (LOG_DIR cfg) (fst f)) gone in
  exists w',
    _remove_old_logs cfg env older w = (Ok tt, w')
    /\ log_dir w' = filter (fun f => negb (expired cutoff f)) (log_dir w)
    /\ hd_error (trace w') = Some (cleanup_record paths)
    /\ (older = 31 -> monthly_cleanup cfg env w = (Ok tt, w')).
Proof.
  intros Hl Hm Hr Hnd cutoff gone paths.
  destruct (remove_old_logs_run cfg env Hl Hm Hr older w Hnd)
    as (w' & Hrun & Hdir & Hlog).
  exists w'. repeat split; try assumption.
  intros ->. unfold monthly_cleanup, try_except. rewrite Hrun. reflexivity.
Qed.

(** ** Runs *)

Import Sample.


(** With the database down the insert is attempted, fails, and the
    photo is acknowledged all the same. *)
Example db_failure_keeps_the_ack :
  let w' := snd (process_update cfg0 env_db_down (JDict photo_update) w0) in
  existsb is_insert (trace w') = true
  /\ existsb (is_log_with "Failed to save media to DB: %s") (trace w') = true
  /\ existsb (is_message_with PHOTO_SAVED) (trace w') = true
  /\ existsb (is_message_with PHOTO_ERROR) (trace w') = false.
Proof. vm_compute. repeat split; reflexivity. Qed.


Lemma photo_failure_contained_witness :
  lookup "photo" photo_text_message
  = Some (JList ([JDict [("file_id", JStr "small")];
                  JDict [("file_id", JStr "medium")]]
                 ++ [JDict [("file_id", JStr "large")]]))
  /\ store_media cfg0 env_no_file "photo" PHOTO_SAVED (JStr "large")
       (JInt 7) (JInt 9) (logged_photo w0) = (Raise down, w_refused)
  /\ send_message cfg0 env_no_file (JInt 9) PHOTO_ERROR None None
       (after [EvLog LvError "Error processing photo: %s" [LX down]] w_refused)
     = (Ok api_ok, w_noticed)
  /\ handle_message cfg0 env_no_file (JDict photo_text_message)
       (JInt 7) (JInt 9) w0
     = (video_block cfg0 env_no_file (JDict photo_text_message) (JInt 7) (JInt 9) ;;
        text_block cfg0 env_no_file (JDict photo_text_message) (JInt 7) (JInt 9))
         w_noticed.
Proof.
  split; [reflexivity|]. split; [reflexivity|]. split; [reflexivity|].
  exact (proj1 (photo_failure_contained cfg0 env_no_file photo_text_message
                  [JDict [("file_id", JStr "small")];
                   JDict [("file_id", JStr "medium")]]
                  (JDict [("file_id", JStr "large")]) (JStr "large")
                  (JInt 7) (JInt 9) w0 down w_refused api_ok w_noticed
                  eq_refl eq_refl eq_refl eq_refl)).
Defined.

(** C2, as stated, fails when the platform cannot be reached: the photo
    block fails, the notice cannot be sent either, and the exception of
    the handler ends the dispatch at the outer handler before the text
    of the same message is looked at. *)
Lemma photo_notice_failure_aborts_dispatch :
  let w' := snd (process_update cfg0 env_api_down (JDict photo_text_update) w0) in
  lookup "text" photo_text_message = Some (JStr "/start")
  /\ existsb (is_log_with "Error processing photo: %s") (trace w') = true
  /\ existsb is_text_log (trace w') = false
  /\ existsb (is_log_with "Unhandled exception in process_update: %s")
             (trace w') = true.
Proof. vm_compute. repeat split; reflexivity. Qed.

Lemma dispatcher_selects_last_photo_witness :
  message_of photo_update = JDict photo_message
  /\ lookup "photo" photo_message
     = Some (JList ([JDict [("file_id", JStr "small")];
                     JDict [("file_id", JStr "medium")]]
                    ++ [JDict [("file_id", JStr "large")]]))
  /\ exists later,
       trace (snd (process_update cfg0 env_ok (JDict photo_update) w0))
       = later
         ++ [EvGet "https://api.telegram.org/file/botT"
                   (JStr "photos/file_1.jpg") (Ok bs12);
             EvPost "https://api.telegram.org/botT/getFile"
                    (Some [("file_id", JStr "large")]) None (Ok api_ok);
             EvLog LvInfo "Incoming photo file_id=%s from user=%s"
                   [LJ (JStr "large"); LJ (JInt 7)];
             EvLog LvInfo "Processing update keys=%s" [LJ (JList [JStr "message"])];
             EvDispatch (JDict photo_update)].
Proof.
  split; [reflexivity|]. split; [reflexivity|].
  destruct (dispatcher_selects_last_photo cfg0 env_ok photo_update photo_message
              [("id", JInt 7)] [("id", JInt 9)]
              [JDict [("file_id", JStr "small")];
               JDict [("file_id", JStr "medium")]]
              [("file_id", JStr "large")] w0
              eq_refl eq_refl eq_refl eq_refl) as (_ & _ & Hget).
  destruct (Hget (JStr "photos/file_1.jpg")
                 (snd (get_file_path cfg0 env_ok (JStr "large")
                         (after (EvLog LvInfo
                                   "Incoming photo file_id=%s from user=%s"
                                   [LJ (JStr "large"); LJ (JInt 7)]
                                 :: entry_events photo_update) w0)))
                 eq_refl) as (_ & later & E).
  exists later. rewrite E. reflexivity.
Defined.

(** C6, as stated, fails on a header that is present and empty: it
    differs from the secret, and the request is accepted on its path and
    dispatched. *)
Lemma empty_header_falls_back_to_path :
  let '(resp, w') := serve_webhook cfg0 env_ok req_empty_header w0 in
  x_telegram_bot_api_secret_token req_empty_header <> None
  /\ x_telegram_bot_api_secret_token req_empty_header
     <> Some (WEBHOOK_SECRET cfg0)
  /\ status resp = 200
  /\ existsb is_dispatch (trace w') = true.
Proof. vm_compute. repeat split; try reflexivity; discriminate. Qed.

(** C7, as stated, fails on a body that decodes to something else than
    an object when the loop refuses the task: the dispatcher runs
    inline, raises before its [try], and the answer is a 500. *)
Lemma inline_dispatch_of_a_list_is_a_500 :
  let '(resp, w') := serve_webhook cfg_open env_no_loop req_list w0 in
  check_secret cfg_open req_list w0 = (Ok tt, w0)
  /\ request_json req_list = Ok (JList [])
  /\ status resp = 500.
Proof. vm_compute. repeat split; reflexivity. Qed.

Lemma no_duplicates_in_logs : NoDup (map fst logs).
Proof.
  repeat constructor; cbn; intuition discriminate.
Defined.

Lemma retention_removes_expired_logs_witness :
  exists w',
    _remove_old_logs cfg0 env_ok 31 w_logs = (Ok tt, w')
    /\ log_dir w' = [("bot.log.2023-11-04", ago 10); ("notes.txt", ago 400)]
    /\ hd_error (trace w')
       = Some (EvLog LvInfo "Removed %d old log files: %s"
                 [LJ (JInt 2);
                  LJ (JList [JStr "./logs/bot.log.2023-10-05";
                             JStr "./logs/bot.log.2022-10-10"])])
    /\ monthly_cleanup cfg0 env_ok w_logs = (Ok tt, w').
Proof.
  destruct (retention_removes_expired_logs cfg0 env_ok 31 w_logs
              (fun _ _ => eq_refl) (fun _ _ => eq_refl) (fun _ _ => eq_refl)
              no_duplicates_in_logs)
    as (w' & Hrun & Hdir & Hlog & Hloop).
  exists w'. split; [exact Hrun|]. split; [exact Hdir|].
  split; [exact Hlog|]. exact (Hloop eq_refl).
Defined.

(** C8, as stated, fails on the default of the threshold: called without
    one, the cleanup keeps a log file written 33 days ago, which a
    threshold of 31 days would remove.  It also fails, with the
    threshold of the scheduler, when the files cannot be removed: the
    two files that are 40 and 400 days old stay. *)
Lemma default_threshold_is_not_31 :
  let f := ("bot.log.2023-10-12", ago 33) in
  log_dir w_33 = [f]
  /\ expired (noon - days 31) f = true
  /\ log_dir (snd (_remove_old_logs cfg0 env_ok older_than_days_default w_33))
     = [f]
  /\ log_dir (snd (_remove_old_logs cfg0 env_ok 31 w_33)) = []
  /\ map fst (filter (expired (noon - days 31)) logs)
     = ["bot.log.2023-10-05"; "bot.log.2022-10-10"]
  /\ log_dir (snd (monthly_cleanup cfg0 env_locked w_logs)) = logs.
Proof. vm_compute. repeat split; reflexivity. Qed.

Lemma webhook_secret_check_witness :
  WEBHOOK_SECRET cfg0 <> EmptyString
  /\ x_telegram_bot_api_secret_token req_bad_header = Some "guess"
  /\ serve_webhook cfg0 env_ok req_bad_header w0
     = (forbidden "Invalid webhook secret header",
        after [EvLog LvWarning "Webhook secret header mismatch. Provided=%s"
                 [LJ (JStr "guess")]] w0).
Proof.
  assert (Hset : WEBHOOK_SECRET cfg0 <> EmptyString) by discriminate.
  split; [exact Hset|]. split; [reflexivity|].
  apply (proj1 (proj2 (webhook_secret_check cfg0 env_ok req_bad_header w0) Hset)
           "guess" eq_refl); discriminate.
Defined.

Lemma webhook_after_secret_check_witness :
  check_secret cfg_open req_garbled w0 = (Ok tt, w0)
  /\ serve_webhook cfg_open env_ok req_garbled w0
     = (bad_request,
        after [EvLog LvError "Failed to parse webhook JSON: %s"
                 [LX (ValueError "JSONDecodeError")]] w0).
Proof.
  split; [reflexivity|].
  exact (proj1 (webhook_after_secret_check cfg_open env_ok req_garbled w0)
           (ValueError "JSONDecodeError") eq_refl eq_refl).
Defined.

(** ** Further facts *)

Section Transport.

Context (cfg : Config) (env : Env).

(** What [_api_post] does, by the answer of the platform *)
Lemma api_post_cases method data files w :
  let url := (TELEGRAM_API_BASE cfg ++ "/" ++ method)%string in
  let answer := requests_post env (trace w) url data files in
  let failed := fun e : exn =>
    EvLog LvError "Error calling Telegram API %s: %s" [LJ (JStr method); LX e] in
  _api_post cfg env method data files w
  = match answer with
    | Raise e => (Raise e, after [failed e; EvPost url data files answer] w)
    | Ok j =>
        match get j "ok" JNull with
        | Raise e => (Raise e, after [failed e; EvPost url data files answer] w)
        | Ok ok =>
            if truthy ok then (Ok j, after [EvPost url data files answer] w)
            else (Raise (PlainException "Telegram API error"),
                  after [failed (PlainException "Telegram API error");
                         EvLog LvError "Telegram API responded not ok: %s" [LJ j];
                         EvPost url data files answer] w)
        end
    end.
Proof.
  intros url answer failed. unfold _api_post. fold url. unfold do_post. run.
  fold answer. destruct answer as [j|e]; [|reflexivity].
  destruct (get j "ok" JNull) as [ok|e]; [|reflexivity].
  destruct (truthy ok); reflexivity.
Qed.

(** X1.  [_api_post] makes one request and no second one, and leaves
    the cache alone.  It returns the decoded answer exactly when the
    answer is an object whose [ok] is truthy, and then it logs nothing.
    Every failure is logged as an error and raised: what the request
    raised as it is, an answer that is not an object as the
    [AttributeError] of its [get], and an answer whose [ok] is missing
    or falsy, logged once more with the answer, as a plain exception. *)
Theorem api_post_contract method data files w :
  let url := (TELEGRAM_API_BASE cfg ++ "/" ++ method)%string in
  let answer := requests_post env (trace w) url data files in
  let failed := fun e : exn =>
    EvLog LvError "Error calling Telegram API %s: %s" [LJ (JStr method); LX e] in
  let refused := PlainException "Telegram API error" in
  exists r w' logs,
    _api_post cfg env method data files w = (r, w')
    /\ trace w' = logs ++ EvPost url data files answer :: trace w
    /\ media_cache w' = media_cache w
    /\ (forall j, r = Ok j <->
                  answer = Ok j
                  /\ exists ok, get j "ok" JNull = Ok ok /\ truthy ok = true)
    /\ (forall j, r = Ok j -> logs = [])
    /\ (forall e, answer = Raise e -> r = Raise e /\ logs = [failed e])
    /\ (forall j e, answer = Ok j -> get j "ok" JNull = Raise e ->
                    r = Raise e /\ logs = [failed e])
    /\ (forall j ok, answer = Ok j -> get j "ok" JNull = Ok ok ->
                     truthy ok = false ->
                     r = Raise refused
                     /\ logs = [failed refused;
                                EvLog LvError "Telegram API responded not ok: %s"
                                      [LJ j]]).
Proof.
  intros url answer failed refused. rewrite api_post_cases.
  fold url. fold answer.
  destruct answer as [j|e] eqn:Ha.
  - destruct (get j "ok" JNull) as [ok|e] eqn:Hok.
    + destruct (truthy ok) eqn:Ht.
      * eexists _, _, [].
        split; [reflexivity|]. split; [reflexivity|]. split; [reflexivity|].
        split; [|split; [|split; [|split]]].
        -- intros j'. split.
           ++ intros [= <-]. split; [reflexivity|]. exists ok. auto.
           ++ intros ([= <-] & _). reflexivity.
        -- reflexivity.
        -- intros e [=].
        -- intros j' e [= <-] Hok'. rewrite Hok in Hok'. discriminate.
        -- intros j' ok' [= <-] Hok'. rewrite Hok in Hok'.
           injection Hok' as <-. congruence.
      * eexists _, _, [_; _].
        split; [reflexivity|]. split; [reflexivity|]. split; [reflexivity|].
        split; [|split; [|split; [|split]]].
        -- intros j'. split; [discriminate|].
           intros ([= <-] & ok' & Hok' & Ht'). rewrite Hok in Hok'.
           injection Hok' as <-. congruence.
        -- discriminate.
        -- intros e [=].
        -- intros j' e [= <-] Hok'. rewrite Hok in Hok'. discriminate.
        -- intros j' ok' [= <-] _ _. split; reflexivity.
    + eexists _, _, [_].
      split; [reflexivity|]. split; [reflexivity|]. split; [reflexivity|].
      split; [|split; [|split; [|split]]].
      * intros j'. split; [discriminate|].
        intros ([= <-] & ok' & Hok' & _). rewrite Hok in Hok'. discriminate.
      * discriminate.
      * intros e' [=].
      * intros j' e' [= <-] Hok'. rewrite Hok in Hok'.
        injection Hok' as <-. split; reflexivity.
      * intros j' ok' [= <-] Hok'. rewrite Hok in Hok'. discriminate.
  - eexists _, _, [_].
    split; [reflexivity|]. split; [reflexivity|]. split; [reflexivity|].
    split; [|split; [|split; [|split]]].
    + intros j'. split; [discriminate|]. intros ([=] & _).
    + discriminate.
    + intros e' [= <-]. split; reflexivity.
    + intros j' e' [=].
    + intros j' ok' [=].
Qed.

(** X2.  [get_file_path] returns a path only when the answer to
    [getFile] is an object whose [result] is an object with a truthy
    [file_path], and then it returns that value after the one request;
    an accepted answer without [result], without [file_path] or with an
    empty one is a plain exception. *)
Theorem get_file_path_contract file_id w :
  let url := (TELEGRAM_API_BASE cfg ++ "/getFile")%string in
  let data := Some [("file_id", file_id)] in
  let answer := requests_post env (trace w) url data None in
  let w1 := after [EvPost url data None answer] w in
  let missing := PlainException "getFile did not return file_path" in
  (forall p w',
      get_file_path cfg env file_id w = (Ok p, w') ->
      truthy p = true /\ w' = w1
      /\ exists j res,
           answer = Ok (JDict j)
           /\ lookup "result" j = Some (JDict res)
           /\ lookup "file_path" res = Some p)
  /\ (forall j ok,
         answer = Ok (JDict j) -> lookup "ok" j = Some ok -> truthy ok = true ->
         (lookup "result" j = None ->
          get_file_path cfg env file_id w = (Raise missing, w1))
         /\ (forall res,
                lookup "result" j = Some (JDict res) ->
                (lookup "file_path" res = None ->
                 get_file_path cfg env file_id w = (Raise missing, w1))
                /\ (forall p, lookup "file_path" res = Some p ->
                      get_file_path cfg env file_id w
                      = (if truthy p then Ok p else Raise missing, w1)))).
Proof.
  intros url data answer w1 missing.
  assert (Hc := api_post_cases "getFile" data None w). cbv zeta in Hc.
  change (TELEGRAM_API_BASE cfg ++ "/" ++ "getFile")%string with url in Hc.
  change (requests_post env (trace w) url data None) with answer in Hc.
  remember (get_file_path cfg env file_id w) as g eqn:Hg.
  assert (Hrun : get_file_path cfg env file_id w
                 = (resp <- _api_post cfg env "getFile" data None ;;
                    result <- lift (get resp "result" (JDict [])) ;;
                    file_path <- lift (get result "file_path" JNull) ;;
                    (if negb (truthy file_path) then raise missing
                     else ret file_path)) w) by reflexivity.
  rewrite Hrun in Hg. unfold bind at 1 in Hg. rewrite Hc in Hg.
  clear Hc Hrun. split.
  - intros p w' H. rewrite H in Hg. clear H. revert Hg.
    destruct answer as [j|e] eqn:Ha; [|discriminate].
    destruct (get j "ok" JNull) as [ok|e] eqn:Hok; [|discriminate].
    destruct (truthy ok); [|discriminate].
    destruct j as [| | | | | |j]; try discriminate.
    run. cbn [get].
    destruct (lookup "result" j) as [res|] eqn:Hres.
    + destruct res as [| | | | | |res]; try discriminate. cbn [get].
      destruct (lookup "file_path" res) as [q|] eqn:Hq; [|discriminate].
      destruct (truthy q) eqn:Ht; cbn [negb]; [|discriminate].
      intros [= -> ->]. split; [exact Ht|]. split; [reflexivity|].
      exists j, res. auto.
    + cbn [lookup get truthy negb]. discriminate.
  - intros j ok Ha Hok Ht. subst w1. rewrite Ha in Hg |- *. cbn [get] in Hg.
    rewrite Hok, Ht in Hg. revert Hg. run. cbn [get]. intros Hg.
    split.
    + intros Hres. rewrite Hres in Hg. exact Hg.
    + intros res Hres. rewrite Hres in Hg. cbn [get] in Hg. split.
      * intros Hq. rewrite Hq in Hg. exact Hg.
      * intros p Hq. rewrite Hq in Hg. rewrite Hg.
        destruct (truthy p); reflexivity.
Qed.

(** X3.  The one request of [send_message] goes to [sendMessage] and
    carries [chat_id] and [text] always, [reply_markup] as serialised
    JSON exactly when a markup is given, and [parse_mode] exactly when
    it is given and not empty. *)
Theorem send_message_fields chat_id text markup mode :
  exists data,
    eventually (posts (TELEGRAM_API_BASE cfg ++ "/sendMessage")%string
                      (Some data) None)
               (send_message cfg env chat_id text markup mode)
    /\ lookup "chat_id" data = Some chat_id
    /\ lookup "text" data = Some (JStr text)
    /\ lookup "reply_markup" data
       = option_map (fun rm => JStr (json_dumps env rm)) markup
    /\ lookup "parse_mode" data
       = match mode with
         | Some pm => if str_truthy pm then Some (JStr pm) else None
         | None => None
         end.
Proof.
  eexists. split.
  - unfold send_message. apply eventually_log_then.
    apply (eventually_api_post cfg env "sendMessage").
  - destruct markup as [rm|]; destruct mode as [pm|];
      try destruct (str_truthy pm); repeat split; reflexivity.
Qed.

(** X4.  Without a byte buffer, [send_photo] and [send_video] need a
    path they can open: with no path or an empty one they raise
    [ValueError] and do nothing else, and when the file cannot be opened
    they raise what [open] raised and make no request. *)
Theorem send_media_without_a_source chat_id caption w :
  (forall path,
      path = None \/ path = Some EmptyString ->
      send_photo cfg env chat_id path None caption w
      = (Raise (ValueError "Either photo_path or photo_bytes must be provided"),
         w)
      /\ send_video cfg env chat_id path None caption w
         = (Raise (ValueError "Either video_path or video_bytes must be provided"),
            w))
  /\ (forall p e,
         p <> EmptyString ->
         open_rb env (trace w) p = Some e ->
         send_photo cfg env chat_id (Some p) None caption w
         = (Raise e, after [EvOpen p (Some e)] w)
         /\ send_video cfg env chat_id (Some p) None caption w
            = (Raise e, after [EvOpen p (Some e)] w)).
Proof.
  split.
  - intros path [->| ->]; split; reflexivity.
  - intros p e Hp Hopen. unfold send_photo, send_video, do_open.
    rewrite (str_truthy_true _ Hp). run. rewrite Hopen. split; reflexivity.
Qed.

(** X5.  On a payload that is not an object, [process_update] raises
    [AttributeError] before its first log record and before its [try];
    run as a task, the same payload ends without an exception and
    without any effect. *)
Theorem process_update_not_an_object payload w :
  (forall d, payload <> JDict d) ->
  process_update cfg env payload w
  = (Raise AttributeError, after [EvDispatch payload] w)
  /\ run_task cfg env payload w = (Ok tt, after [EvDispatch payload] w).
Proof.
  intros Hp. unfold run_task, try_except, process_update.
  destruct payload as [|b|n|x|s|l|d]; try (split; reflexivity).
  exfalso. exact (Hp d eq_refl).
Qed.

(** X6.  [save_media_to_db] returns [True] exactly when the database is
    configured, the driver is there and the insert works; the insert is
    attempted once, with the row it was given, when the first two hold,
    and not at all otherwise. *)
Theorem save_media_to_db_outcome bs user_id file_id media_type file_name w :
  let attempt :=
    db_insert env (trace w) user_id file_id media_type file_name bs in
  let ready := str_truthy (DATABASE_URL cfg) && psycopg2 cfg in
  exists b w' log,
    save_media_to_db cfg env bs user_id file_id media_type file_name w
    = (Ok b, w')
    /\ (b = true <-> ready = true /\ attempt = None)
    /\ is_log log
    /\ trace w'
       = if ready
         then log :: EvInsert user_id file_id media_type file_name bs attempt
                  :: trace w
         else log :: trace w.
Proof.
  intros attempt ready. subst ready. unfold save_media_to_db.
  destruct (str_truthy (DATABASE_URL cfg)); cbn [negb andb].
  - destruct (psycopg2 cfg); cbn [negb].
    + run. fold attempt. destruct attempt as [e|].
      * eexists false, _, _. split; [reflexivity|].
        split; [split; [discriminate|intros [_ [=]]]|].
        split; [|reflexivity]. exact I.
      * eexists true, _, _. split; [reflexivity|].
        split; [split; auto|]. split; [|reflexivity]. exact I.
    + run. eexists false, _, _. split; [reflexivity|].
      split; [split; [discriminate|intros [[=] _]]|].
      split; [|reflexivity]. exact I.
  - run. eexists false, _, _. split; [reflexivity|].
    split; [split; [discriminate|intros [[=] _]]|].
    split; [|reflexivity]. exact I.
Qed.

(** X7.  The secret check lets a request through exactly when no secret
    is configured, or the header is not empty and equals the secret
    (whatever the path), or the header is absent or empty and the path
    equals the secret; it then leaves no trace.  Every other request is
    a 403. *)
Theorem check_secret_accepts req w :
  let secret := WEBHOOK_SECRET cfg in
  let header := x_telegram_bot_api_secret_token req in
  let allowed :=
    secret = EmptyString
    \/ (header_truthy header = true /\ header = Some secret)
    \/ (header_truthy header = false /\ secret_path req = secret) in
  (allowed -> check_secret cfg req w = (Ok tt, w))
  /\ (~ allowed ->
      exists detail, fst (check_secret cfg req w)
                     = Raise (HTTPException 403 detail)).
Proof.
  intros secret header allowed. subst allowed. unfold check_secret.
  fold secret. fold header.
  destruct (String.eqb_spec secret EmptyString) as [Hs|Hs].
  { rewrite (str_truthy_false _ Hs). split; [reflexivity|]. tauto. }
  rewrite (str_truthy_true _ Hs).
  destruct header as [t|] eqn:Hh; cbn [header_truthy].
  - destruct (str_truthy t) eqn:Ht.
    + destruct (String.eqb_spec t secret) as [->|Hne]; cbn [negb].
      * split; [reflexivity|]. intros H. exfalso. apply H. right. left. auto.
      * split.
        -- intros [H|[[_ [= H]]|[[=] _]]]; contradiction.
        -- intros _. run. eexists. reflexivity.
    + destruct (String.eqb_spec (secret_path req) secret) as [Hp|Hp];
        cbn [negb andb].
      * split; [reflexivity|]. intros H. exfalso. apply H. right. right. auto.
      * split.
        -- intros [H|[[[=] _]|[_ H]]]; contradiction.
        -- intros _. run. eexists. reflexivity.
  - destruct (String.eqb_spec (secret_path req) secret) as [Hp|Hp];
      cbn [negb andb].
    + split; [reflexivity|]. intros H. exfalso. apply H. right. right. auto.
    + split.
      * intros [H|[[[=] _]|[_ H]]]; contradiction.
      * intros _. run. eexists. reflexivity.
Qed.

End Transport.

(** *** The cache *)

Lemma key_eqb_str k s : key_eqb k (JStr s) = true -> k = JStr s.
Proof.
  destruct k as [|b|n|x|t|l|d]; try destruct x; cbn; try discriminate.
  intros H. apply String.eqb_eq in H. now subst.
Qed.

Lemma key_eqb_str_sym k s : key_eqb (JStr s) k = key_eqb k (JStr s).
Proof.
  destruct k as [|b|n|x|t|l|d]; try destruct x; cbn; try reflexivity.
  apply String.eqb_sym.
Qed.

Lemma cache_del_absent k c : cache_has k c = false -> cache_del k c = c.
Proof.
  induction c as [|[k' v'] c IH]; cbn; [reflexivity|].
  intros H. apply orb_false_iff in H. destruct H as [Hk Hc].
  rewrite Hk, (IH Hc). reflexivity.
Qed.

Lemma cache_del_length k c :
  cache_has k c = true -> S (List.length (cache_del k c)) = List.length c.
Proof.
  induction c as [|[k' v'] c IH]; cbn; [discriminate|].
  destruct (key_eqb k' k); cbn; [reflexivity|].
  intros H. now rewrite (IH H).
Qed.

Lemma distinct_keys_filter f c :
  distinct_keys c -> distinct_keys (filter f c).
Proof.
  induction c as [|[k v] c IH]; cbn; [auto|]. intros [Hk Hc].
  assert (Hsub : existsb (fun p => key_eqb k (fst p)) (filter f c) = false).
  { clear IH Hc. induction c as [|q c IHc]; cbn in *; [reflexivity|].
    apply orb_false_iff in Hk. destruct Hk as [Hq Hc].
    destruct (f q); cbn; [rewrite Hq|]; auto. }
  destruct (f (k, v)); cbn; auto.
Qed.

(** With keys that are distinct, deleting a string key filters it out *)
Lemma cache_del_filter s c :
  distinct_keys c ->
  cache_del (JStr s) c
  = filter (fun p => negb (key_eqb (fst p) (JStr s))) c.
Proof.
  induction c as [|[k v] c IH]; cbn; [reflexivity|]. intros [Hk Hc].
  destruct (key_eqb k (JStr s)) eqn:E; cbn.
  - apply key_eqb_str in E. subst k.
    symmetry. apply filter_all. intros p Hin.
    apply negb_true_iff. rewrite <- key_eqb_str_sym.
    destruct (key_eqb (JStr s) (fst p)) eqn:E'; [|reflexivity].
    assert (existsb (fun q => key_eqb (JStr s) (fst q)) c = true)
      by (apply existsb_exists; eauto).
    congruence.
  - now rewrite (IH Hc).
Qed.

Lemma cache_has_filtered s c :
  cache_has (JStr s)
    (filter (fun p => negb (key_eqb (fst p) (JStr s))) c) = false.
Proof.
  unfold cache_has. induction c as [|p c IH]; cbn; [reflexivity|].
  destruct (key_eqb (fst p) (JStr s)) eqn:E; cbn; [exact IH|].
  now rewrite E, IH.
Qed.

(** X8.  In a cache whose keys are distinct, [admin_delete_cache] on a
    key that is there answers [deleted], removes that entry and no
    other, and keeps the order of the rest; on a key that is not there
    it answers [not found] and changes nothing.  Either way the key is
    absent afterwards, nothing is logged or requested, and [cache_keys]
    then reports the keys that are left and their number. *)
Theorem admin_delete_cache_contract file_id w :
  distinct_keys (media_cache w) ->
  let present := cache_has (JStr file_id) (media_cache w) in
  exists w',
    admin_delete_cache file_id w
    = (Ok (if present then JDict [("deleted", JStr file_id)]
           else JDict [("deleted", JNull); ("msg", JStr "not found")]), w')
    /\ media_cache w'
       = filter (fun p => negb (key_eqb (fst p) (JStr file_id))) (media_cache w)
    /\ cache_has (JStr file_id) (media_cache w') = false
    /\ List.length (media_cache w) 
       = (List.length (media_cache w') + if present then 1 else 0)%nat
    /\ distinct_keys (media_cache w')
    /\ trace w' = trace w /\ log_dir w' = log_dir w
    /\ (present = false -> w' = w)
    /\ cache_keys w'
       = (Ok (JDict
                [("count",
                  JInt (Z.of_nat (List.length (media_cache w))
                        - if present then 1 else 0));
                 ("keys",
                  JList (filter (fun k => negb (key_eqb k (JStr file_id)))
                                (map fst (media_cache w))))]), w').
Proof.
  intros Hd present. unfold admin_delete_cache. fold present.
  assert (Hkeys : forall c : list (json * cache_entry),
             map fst (filter (fun p => negb (key_eqb (fst p) (JStr file_id))) c)
             = filter (fun k => negb (key_eqb k (JStr file_id))) (map fst c)).
  { induction c as [|p c IH]; cbn; [reflexivity|].
    destruct (key_eqb (fst p) (JStr file_id)); cbn; now rewrite IH. }
  destruct present eqn:Hp; subst present.
  - eexists. split; [reflexivity|]. cbn [media_cache trace log_dir].
    rewrite (cache_del_filter _ _ Hd).
    assert (Hlen : List.length (media_cache w)
                   = (List.length
                        (filter (fun p => negb (key_eqb (fst p) (JStr file_id)))
                                (media_cache w)) + 1)%nat).
    { rewrite <- (cache_del_filter _ _ Hd), <- (cache_del_length _ _ Hp). lia. }
    split; [reflexivity|]. split; [apply cache_has_filtered|].
    split; [exact Hlen|].
    split; [now apply distinct_keys_filter|].
    split; [reflexivity|]. split; [reflexivity|]. split; [discriminate|].
    unfold cache_keys. cbn [media_cache]. rewrite Hkeys.
    rewrite Hlen at 1. rewrite Nat2Z.inj_add.
    change (Z.of_nat 1) with 1. rewrite Z.add_simpl_r. reflexivity.
  - exists w. split; [reflexivity|].
    rewrite <- Hkeys, <- (cache_del_filter _ _ Hd), (cache_del_absent _ _ Hp).
    split; [reflexivity|]. split; [exact Hp|]. split; [lia|].
    split; [exact Hd|]. split; [reflexivity|]. split; [reflexivity|].
    split; [reflexivity|].
    unfold cache_keys. rewrite Z.sub_0_r. reflexivity.
Qed.

Lemma existsb_keys (f : json -> bool) (c : list (json * cache_entry)) :
  existsb (fun p => f (fst p)) c = existsb f (map fst c).
Proof. induction c as [|p c IH]; cbn; [reflexivity|]. now rewrite IH. Qed.

(** The keys after [media_cache[k] = v] *)
Lemma cache_set_keys k v c :
  map fst (cache_set k v c)
  = map fst c ++ (if cache_has k c then [] else [k]).
Proof.
  unfold cache_has. induction c as [|[k' v'] c IH]; cbn; [reflexivity|].
  destruct (key_eqb k' k); cbn.
  - now rewrite app_nil_r.
  - now rewrite IH.
Qed.

Lemma cache_set_distinct k v c :
  distinct_keys c -> distinct_keys (cache_set k v c).
Proof.
  induction c as [|[k' v'] c IH]; cbn; [auto|]. intros [Hk Hc].
  destruct (key_eqb k' k) eqn:E; cbn; [auto|].
  split; [|auto].
  rewrite (existsb_keys (key_eqb k')), cache_set_keys, existsb_app,
    <- (existsb_keys (key_eqb k')), Hk.
  destruct (cache_has k c); cbn; [reflexivity|]. now rewrite E.
Qed.

Lemma cache_get_set k v c :
  key_eqb k k = true -> cache_get k (cache_set k v c) = Some v.
Proof.
  intros Hk. induction c as [|[k' v'] c IH]; cbn; [now rewrite Hk|].
  destruct (key_eqb k' k) eqn:E; cbn; now rewrite E.
Qed.

Lemma key_eqb_refl k :
  hashable k = true -> k <> JFloat FNan -> key_eqb k k = true.
Proof.
  destruct k as [|b|n|x|t|l|d]; try destruct x as [m e|s|]; cbn;
    try discriminate; try reflexivity; intros _ H.
  - destruct b; reflexivity.
  - apply Z.eqb_refl.
  - apply Z.eqb_refl.
  - apply Bool.eqb_reflx.
  - congruence.
  - apply String.eqb_refl.
Qed.

(** *** What a computation does to the cache and to the log directory *)

Section Keeps.

Context {J : list (json * cache_entry) -> list (string * Q) -> Prop}.

Lemma keeps_ret {A} (a : A) : keeps J (ret a).
Proof. intros w r w' H. inversion H; subst. auto. Qed.

Lemma keeps_raise {A} (e : exn) : keeps J (@raise A e).
Proof. intros w r w' H. inversion H; subst. auto. Qed.

Lemma keeps_lift {A} (x : result A) : keeps J (lift x).
Proof. intros w r w' H. inversion H; subst. auto. Qed.

Lemma keeps_history : keeps J history.
Proof. intros w r w' H. inversion H; subst. auto. Qed.

Lemma keeps_emit (e : event) : keeps J (emit e).
Proof. intros w r w' H. inversion H; subst. auto. Qed.

Lemma keeps_bind {A B} (m : M A) (k : A -> M B) :
  keeps J m -> (forall a, keeps J (k a)) -> keeps J (bind m k).
Proof.
  intros Hm Hk w r w' H. unfold bind in H.
  destruct (m w) as [[a|e] w1] eqn:Hmw.
  - intros HJ. exact (Hk a _ _ _ H (Hm _ _ _ Hmw HJ)).
  - inversion H; subst. exact (Hm _ _ _ Hmw).
Qed.

Lemma keeps_try_except {A} (m : M A) (h : exn -> M A) :
  keeps J m -> (forall e, keeps J (h e)) -> keeps J (try_except m h).
Proof.
  intros Hm Hh w r w' H. unfold try_except in H.
  destruct (m w) as [[a|e] w1] eqn:Hmw.
  - inversion H; subst. exact (Hm _ _ _ Hmw).
  - intros HJ. exact (Hh e _ _ _ H (Hm _ _ _ Hmw HJ)).
Qed.

Lemma keeps_raise_if (f : option exn) : keeps J (raise_if f).
Proof. destruct f; [apply keeps_raise|apply keeps_ret]. Qed.

Lemma keeps_log lv fmt args : keeps J (log lv fmt args).
Proof. destruct lv; try apply keeps_emit. apply keeps_ret. Qed.

Lemma keeps_now (env : Env) : keeps J (now env).
Proof.
  unfold now. apply keeps_bind; [apply keeps_history|].
  intros h. apply keeps_ret.
Qed.

Lemma keeps_media_cache_keys : keeps J media_cache_keys.
Proof. intros w r w' H. inversion H; subst. auto. Qed.

Lemma keeps_media_cache_setitem k v :
  (forall c l, J c l -> J (cache_set k v c) l) ->
  keeps J (media_cache_setitem k v).
Proof.
  intros Hset. unfold media_cache_setitem.
  destruct (hashable k); [|apply keeps_raise].
  intros w r w' H. inversion H; subst. cbn. apply Hset.
Qed.

End Keeps.

Ltac keeps_step :=
  match goal with
  | |- keeps _ (bind _ _) => apply keeps_bind; [|intros ?]
  | |- keeps _ (try_except _ _) => apply keeps_try_except; [|intros ?]
  | |- keeps _ (ret _) => apply keeps_ret
  | |- keeps _ (raise _) => apply keeps_raise
  | |- keeps _ (lift _) => apply keeps_lift
  | |- keeps _ history => apply keeps_history
  | |- keeps _ (now _) => apply keeps_now
  | |- keeps _ (raise_if _) => apply keeps_raise_if
  | |- keeps _ media_cache_keys => apply keeps_media_cache_keys
  | |- keeps _ (log _ _ _) => apply keeps_log
  | |- keeps _ (emit _) => apply keeps_emit
  | |- keeps _ (if ?b then _ else _) => destruct b
  | |- keeps _ (match ?x with _ => _ end) => destruct x
  | |- keeps _ (let _ := _ in _) => cbv zeta
  end.

Section Dispatcher.

Context (cfg : Config) (env : Env).
Context (J : list (json * cache_entry) -> list (string * Q) -> Prop).

Lemma keeps_api_post method data files :
  keeps J (_api_post cfg env method data files).
Proof. unfold _api_post, do_post. repeat keeps_step. Qed.

Lemma keeps_send_message chat_id text markup mode :
  keeps J (send_message cfg env chat_id text markup mode).
Proof. unfold send_message. repeat keeps_step. apply keeps_api_post. Qed.

Lemma keeps_get_file_path file_id : keeps J (get_file_path cfg env file_id).
Proof. unfold get_file_path. repeat keeps_step. apply keeps_api_post. Qed.

Lemma keeps_download_file_by_path fp :
  keeps J (download_file_by_path cfg env fp).
Proof. unfold download_file_by_path. repeat keeps_step. Qed.

Lemma keeps_save_media_to_fs bs filename :
  keeps J (save_media_to_fs cfg env bs filename).
Proof. unfold save_media_to_fs, do_write. repeat keeps_step. Qed.

Lemma keeps_save_media_to_db bs user_id file_id media_type file_name :
  keeps J (save_media_to_db cfg env bs user_id file_id media_type file_name).
Proof. unfold save_media_to_db, do_insert. repeat keeps_step. Qed.

Hypothesis J_set : forall k v c l, J c l -> J (cache_set k v c) l.

Lemma keeps_store_media media_type saved file_id user_id chat_id :
  keeps J (store_media cfg env media_type saved file_id user_id chat_id).
Proof.
  unfold store_media. repeat keeps_step.
  - apply keeps_get_file_path.
  - apply keeps_download_file_by_path.
  - apply keeps_media_cache_setitem. intros. now apply J_set.
  - apply keeps_save_media_to_fs.
  - apply keeps_save_media_to_db.
  - apply keeps_send_message.
Qed.

Lemma keeps_media_try media_type saved failed_fmt failed file_id user_id chat_id :
  keeps J (media_try cfg env media_type saved failed_fmt failed
                     file_id user_id chat_id).
Proof.
  unfold media_try. repeat keeps_step.
  - apply keeps_store_media.
  - apply keeps_send_message.
Qed.

Lemma keeps_handle_message message user_id chat_id :
  keeps J (handle_message cfg env message user_id chat_id).
Proof.
  unfold handle_message, photo_block, video_block, text_block, process_photo,
    photo_try, video_try.
  repeat keeps_step;
    try apply keeps_media_try; try apply keeps_send_message.
Qed.

Lemma keeps_process_update update :
  keeps J (process_update cfg env update).
Proof.
  unfold process_update, process_update_body, user_exists.
  repeat keeps_step;
    try apply keeps_handle_message; try apply keeps_send_message.
Qed.

End Dispatcher.

Section Stores.

Context (cfg : Config) (env : Env).

(** X9.  Whatever the update and whatever fails, [process_update] keeps
    the keys of the cache distinct, and neither removes nor reorders a
    cache entry: the keys it finds are a prefix of the keys it leaves. *)
Theorem process_update_keeps_stores update w :
  let w' := snd (process_update cfg env update w) in
  (distinct_keys (media_cache w) -> distinct_keys (media_cache w'))
  /\ exists extra,
       map fst (media_cache w') = map fst (media_cache w) ++ extra.
Proof.
  intros w'. subst w'.
  destruct (process_update cfg env update w) as [r w'] eqn:Hrun. cbn [snd].
  split.
  - apply (keeps_process_update cfg env (fun c _ => distinct_keys c)
             (fun k v c _ H => cache_set_distinct k v c H) update _ _ _ Hrun).
  - set (J := fun (c : list (json * cache_entry)) (_ : list (string * Q)) =>
                exists extra, map fst c = map fst (media_cache w) ++ extra).
    assert (HJ : forall k v c l, J c l -> J (cache_set k v c) l).
    { intros k v c l (extra & E). unfold J.
      rewrite cache_set_keys, E, <- app_assoc. eauto. }
    apply (keeps_process_update cfg env J HJ update w r w' Hrun).
    exists []. now rewrite app_nil_r.
Qed.

Lemma keeps_after_write (J : list (json * cache_entry) -> list (string * Q) -> Prop)
  bs user_id file_id media_type filename chat_id text :
  keeps J (save_media_to_db cfg env bs user_id file_id media_type filename ;;
           send_message cfg env chat_id text None None ;; ret tt).
Proof.
  repeat keeps_step.
  - apply keeps_save_media_to_db.
  - apply keeps_send_message.
Qed.

(** X10.  Once the file of a media block is downloaded, its name is a
    string and its identifier can be a key, the block leaves the cache
    with the downloaded bytes, the owner, the type tag and the name
    under the identifier, whatever the sinks and the reply do next; the
    identifier is replaced in place if it was there and comes last if it
    was not. *)
Theorem store_media_caches media_type saved file_id user_id chat_id
  w fp w1 bs w2 filename :
  get_file_path cfg env file_id w = (Ok fp, w1) ->
  download_file_by_path cfg env fp w1 = (Ok bs, w2) ->
  basename_of fp = Ok filename ->
  hashable file_id = true ->
  file_id <> JFloat FNan ->
  let w' := snd (store_media cfg env media_type saved file_id user_id chat_id w) in
  cache_get file_id (media_cache w')
  = Some {| ce_bytes := bs; ce_user_id := user_id; ce_type := media_type;
            ce_filename := filename; ce_ts := time_time env (trace w2) |}
  /\ map fst (media_cache w')
     = map fst (media_cache w)
       ++ (if cache_has file_id (media_cache w) then [] else [file_id]).
Proof.
  intros Hp Hd Hb Hh Hnan w'. subst w'.
  assert (Hc : media_cache w2 = media_cache w).
  { transitivity (media_cache w1).
    - exact (keeps_download_file_by_path cfg env
               (fun c _ => c = media_cache w1) fp _ _ _ Hd eq_refl).
    - exact (keeps_get_file_path cfg env
               (fun c _ => c = media_cache w) file_id _ _ _ Hp eq_refl). }
  rewrite (store_media_run cfg env media_type saved file_id user_id chat_id
             w fp w1 bs w2 filename Hp Hd Hb Hh).
  assert (Hcached :
            cache_get file_id (cached env media_type file_id user_id bs filename w2)
            = Some {| ce_bytes := bs; ce_user_id := user_id;
                      ce_type := media_type; ce_filename := filename;
                      ce_ts := time_time env (trace w2) |}
            /\ map fst (cached env media_type file_id user_id bs filename w2)
               = map fst (media_cache w)
                 ++ (if cache_has file_id (media_cache w) then [] else [file_id])).
  { unfold cached. rewrite cache_set_keys, Hc. split; [|reflexivity].
    apply cache_get_set. now apply key_eqb_refl. }
  destruct (write_file env (trace w2) _ bs) as [e|]; [exact Hcached|].
  match goal with
  | |- context [snd (?m ?w0)] => destruct (m w0) as [r w3] eqn:Hrest
  end.
  cbn [snd].
  pose proof (keeps_after_write
                (fun c _ => c = cached env media_type file_id user_id bs filename w2)
                _ _ _ _ _ _ _ _ _ _ Hrest eq_refl) as Hsame.
  cbn beta in Hsame. rewrite Hsame. exact Hcached.
Qed.

Lemma emits_bind_raise {A B} (P : event -> Prop) (e : exn) (k : A -> M B) :
  emits P (bind (raise e) k).
Proof.
  intros w r w' H. inversion H; subst. exists [].
  split; [reflexivity|constructor].
Qed.

(** X11.  A media block whose identifier cannot be a key (a list or an
    object) raises after the download and stores nothing: no file is
    written and no row is inserted. *)
Theorem store_media_unhashable media_type saved file_id user_id chat_id :
  hashable file_id = false ->
  emits stores_nothing
        (store_media cfg env media_type saved file_id user_id chat_id)
  /\ forall w, exists e w',
       store_media cfg env media_type saved file_id user_id chat_id w
       = (Raise e, w').
Proof.
  intros Hh. split.
  - unfold store_media.
    apply emits_bind.
    { unfold get_file_path. repeat emits_step; try exact I.
      apply emits_api_post; intros; exact I. }
    intros fp. apply emits_bind.
    { unfold download_file_by_path. repeat emits_step; exact I. }
    intros bs. apply emits_bind; [apply emits_lift|]. intros filename.
    apply emits_bind; [apply emits_now|]. intros ts.
    unfold media_cache_setitem. rewrite Hh. apply emits_bind_raise.
  - intros w. unfold store_media. unfold bind at 1.
    destruct (get_file_path cfg env file_id w) as [[fp|e] w1]; [|eauto].
    unfold bind at 1.
    destruct (download_file_by_path cfg env fp w1) as [[bs|e] w2]; [|eauto].
    unfold bind at 1. unfold lift at 1.
    destruct (basename_of fp) as [filename|e]; [|eauto].
    unfold bind at 1. unfold now at 1. run.
    unfold media_cache_setitem. rewrite Hh. run. eauto.
Qed.

(** X12.  When every sink of a media block has been passed, the name in
    the acknowledgment is the name of the file as written: the
    timestamp, an underscore and the sanitised name. *)
Theorem acknowledgment_names_the_file media_type saved file_id user_id chat_id
  w fp w1 bs w2 filename :
  get_file_path cfg env file_id w = (Ok fp, w1) ->
  download_file_by_path cfg env fp w1 = (Ok bs, w2) ->
  basename_of fp = Ok filename ->
  hashable file_id = true ->
  write_file env (trace w2) (media_dest cfg env (trace w2) filename) bs = None ->
  let name := stamped (int_of (time_time env (trace w2))) filename in
  exists b w3,
    save_media_to_db cfg env bs user_id file_id media_type (Some filename)
      (written cfg env media_type file_id user_id bs filename w2) = (Ok b, w3)
    /\ store_media cfg env media_type saved file_id user_id chat_id w
       = (send_message cfg env chat_id (saved ++ name ++ ")")%string None None ;;
          ret tt) w3
    /\ In (EvWrite (path_join (MEDIA_DIR cfg) name) bs None) (trace w3).
Proof.
  intros Hp Hd Hb Hh Hw name.
  destruct (save_media_to_db_total cfg env bs user_id file_id media_type
              (Some filename)
              (written cfg env media_type file_id user_id bs filename w2))
    as (b & w3 & Hdb).
  exists b, w3. split; [exact Hdb|]. split.
  - rewrite (store_media_run cfg env media_type saved file_id user_id chat_id
               w fp w1 bs w2 filename Hp Hd Hb Hh).
    rewrite Hw. unfold bind at 1. rewrite Hdb.
    unfold media_dest. fold name.
    destruct (stamped_clean (int_of (time_time env (trace w2))) filename)
      as (Hsep & _).
    fold name in Hsep.
    destruct (path_join_child (MEDIA_DIR cfg) name Hsep) as [_ Hbase].
    rewrite Hbase. reflexivity.
  - apply (emits_grows _ _ _ _ _
             (emits_save_media_to_db cfg env bs user_id file_id media_type
                (Some filename)) Hdb).
    unfold written, media_dest. fold name. cbn [trace]. right. left. reflexivity.
Qed.

End Stores.

Lemma eventually_lift_ok {A B} (Q : event -> Prop) (a : A) (k : A -> M B) :
  eventually Q (k a) -> eventually Q (bind (lift (Ok a)) k).
Proof. intros H w. unfold bind, lift. apply H. Qed.

Lemma join_strings sep ids : join sep (map JStr ids) = Ok (String.concat sep ids).
Proof.
  induction ids as [|s ids IH]; [reflexivity|].
  destruct ids as [|t ids]; [reflexivity|].
  change (join sep (map JStr (s :: t :: ids)))
    with (match join sep (map JStr (t :: ids)) with
          | Ok r => Ok (s ++ sep ++ r)%string
          | Raise e => Raise e
          end).
  rewrite IH. reflexivity.
Qed.

Lemma join_not_strings sep l :
  existsb (fun k => negb (is_jstr k)) l = true -> join sep l = Raise TypeError.
Proof.
  induction l as [|x l IH]; [discriminate|].
  destruct x as [|b|n|x|s|l0|d]; try reflexivity.
  cbn [existsb is_jstr negb orb]. intros H.
  destruct l as [|y l]; [discriminate|].
  change (join sep (JStr s :: y :: l))
    with (match join sep (y :: l) with
          | Ok r => Ok (s ++ sep ++ r)%string
          | Raise e => Raise e
          end).
  now rewrite (IH H).
Qed.

Section Blocks.

Context (cfg : Config) (env : Env).

(** X13.  A message without [video] and without [text], and whose
    [photo] is absent, empty or not a list, is handled without any
    effect. *)
Theorem handle_message_nothing_to_do msg user_id chat_id w :
  match lookup "photo" msg with
  | Some (JList (_ :: _)) => False
  | _ => True
  end ->
  lookup "video" msg = None ->
  lookup "text" msg = None ->
  handle_message cfg env (JDict msg) user_id chat_id w = (Ok tt, w).
Proof.
  intros Hphoto Hvideo Htext.
  unfold handle_message, photo_block, video_block, text_block.
  cbn [contains subscript]. unfold dict_has, getitem.
  rewrite Hvideo, Htext.
  destruct (lookup "photo" msg) as [[|b|n|x|s|[|p l]|d]|];
    try contradiction; reflexivity.
Qed.

(** X14.  A photo list whose last element is not an object, or a
    [video] that is not an object, raises [AttributeError] before
    anything is logged, requested or stored, and what follows in the
    message is not looked at. *)
Theorem descriptor_not_an_object msg user_id chat_id w :
  (forall l x,
      lookup "photo" msg = Some (JList (l ++ [x])) ->
      (forall d, x <> JDict d) ->
      handle_message cfg env (JDict msg) user_id chat_id w
      = (Raise AttributeError, w))
  /\ (forall v,
         lookup "photo" msg = None ->
         lookup "video" msg = Some v ->
         (forall d, v <> JDict d) ->
         handle_message cfg env (JDict msg) user_id chat_id w
         = (Raise AttributeError, w)).
Proof.
  split.
  - intros l x Hphoto Hx. unfold handle_message. unfold bind at 1.
    rewrite (photo_block_last cfg env msg l x user_id chat_id w Hphoto).
    unfold process_photo.
    destruct x as [|b|n|y|s|l0|d]; try reflexivity.
    exfalso. exact (Hx d eq_refl).
  - intros v Hphoto Hvideo Hv.
    unfold handle_message, photo_block, video_block.
    cbn [contains subscript]. unfold dict_has, getitem.
    rewrite Hphoto, Hvideo.
    destruct v as [|b|n|y|s|l0|d]; try reflexivity.
    exfalso. exact (Hv d eq_refl).
Qed.

(** X15.  When the [try] of the video block raises and the notice that
    follows is sent, the text block runs from there. *)
Theorem video_failure_contained msg video file_id user_id chat_id
  w e w1 j w2 :
  lookup "video" msg = Some video ->
  get video "file_id" JNull = Ok file_id ->
  store_media cfg env "video" VIDEO_SAVED file_id user_id chat_id
    (after [EvLog LvInfo "Incoming video file_id=%s from user=%s"
              [LJ file_id; LJ user_id]] w) = (Raise e, w1) ->
  send_message cfg env chat_id VIDEO_ERROR None None
    (after [EvLog LvError "Error processing video: %s" [LX e]] w1) = (Ok j, w2) ->
  (video_block cfg env (JDict msg) user_id chat_id ;;
   text_block cfg env (JDict msg) user_id chat_id) w
  = text_block cfg env (JDict msg) user_id chat_id w2.
Proof.
  intros Hvideo Hfid Hstore Hsend.
  unfold bind at 1. unfold video_block.
  cbn [contains subscript]. unfold dict_has, getitem. rewrite Hvideo.
  unfold bind at 1. unfold lift at 1.
  unfold bind at 1. unfold lift at 1.
  unfold bind at 1. unfold lift at 1. rewrite Hfid.
  unfold bind at 1. unfold log at 1. unfold emit at 1.
  unfold video_try, media_try, try_except.
  unfold after in Hstore, Hsend. cbn [app] in Hstore, Hsend.
  rewrite Hstore.
  unfold bind at 1. unfold log at 1. unfold emit at 1.
  unfold bind at 1. rewrite Hsend. reflexivity.
Qed.

(** The body of the [try] on an update that resolves to no message *)
Lemma body_without_message d w :
  message_of d = JNull ->
  process_update_body cfg env (JDict d) w
  = match lookup "callback_query" d with
    | None => (Ok tt, w)
    | Some (JDict cb) =>
        match dict_get cb "from" (JDict []) with
        | JDict sender =>
            (Ok tt,
             after [EvLog LvInfo "Received callback_query from user %s data=%s"
                          [LJ (dict_get sender "id" JNull);
                           LJ (dict_get cb "data" JNull)]] w)
        | _ => (Raise AttributeError, w)
        end
    | Some _ => (Raise AttributeError, w)
    end.
Proof.
  unfold message_of, dict_get. intros Hm.
  unfold process_update_body. cbn [get].
  unfold bind at 1. unfold lift at 1.
  unfold bind at 1.
  destruct (truthy
              match lookup "message" d with Some x => x | None => JNull end)
    eqn:Ht.
  { rewrite Hm in Ht. discriminate. }
  unfold lift at 1. rewrite Hm. cbn [is_none contains subscript].
  unfold dict_has, getitem.
  destruct (lookup "callback_query" d) as [cb|]; run; [|reflexivity].
  destruct cb as [|b|n|x|s|l|cb]; cbn [get]; try reflexivity.
  destruct (match lookup "from" cb with Some x => x | None => JDict [] end)
    as [|b|n|x|s|l|sender]; cbn [get]; reflexivity.
Qed.

(** X16.  On an update with neither a message nor an edited message
    [process_update] returns without a request and without storing
    anything.  After the entry record it leaves nothing when the update
    has no callback query; the record of the callback query, with the
    [id] of its sender and its [data], when it has one made of objects;
    and the record of the [AttributeError] when the callback query or
    its sender is not an object. *)
Theorem update_without_message d w :
  message_of d = JNull ->
  exists w',
    process_update cfg env (JDict d) w = (Ok tt, w')
    /\ media_cache w' = media_cache w
    /\ (lookup "callback_query" d = None ->
        trace w' = entry_events d ++ trace w)
    /\ (forall cb sender,
           lookup "callback_query" d = Some (JDict cb) ->
           dict_get cb "from" (JDict []) = JDict sender ->
           trace w'
           = EvLog LvInfo "Received callback_query from user %s data=%s"
                   [LJ (dict_get sender "id" JNull);
                    LJ (dict_get cb "data" JNull)]
             :: entry_events d ++ trace w)
    /\ (forall v,
           lookup "callback_query" d = Some v ->
           (forall cb sender,
               v = JDict cb -> dict_get cb "from" (JDict []) <> JDict sender) ->
           trace w'
           = EvLog LvError "Unhandled exception in process_update: %s"
                   [LX AttributeError]
             :: entry_events d ++ trace w).
Proof.
  intros Hm. unfold process_update. cbn [keys].
  unfold bind at 1. unfold emit at 1.
  unfold bind at 1. unfold lift at 1.
  unfold bind at 1. unfold log at 1. unfold emit at 1.
  cbn [trace media_cache log_dir]. unfold try_except.
  rewrite (body_without_message d _ Hm).
  destruct (lookup "callback_query" d) as [v|].
  2:{ eexists. split; [reflexivity|]. split; [reflexivity|].
      split; [reflexivity|]. split; intros; discriminate. }
  assert (Hbad : (forall cb sender,
                     v = JDict cb ->
                     dict_get cb "from" (JDict []) <> JDict sender) ->
                 exists w',
                   (let (r, w1) := (@Raise unit AttributeError,
                                    {| trace :=
                                         EvLog LvInfo "Processing update keys=%s"
                                               [LJ (JList (map JStr (map fst d)))]
                                         :: EvDispatch (JDict d) :: trace w;
                                       media_cache := media_cache w;
                                       log_dir := log_dir w |}) in
                    match r with
                    | Ok a => (Ok a, w1)
                    | Raise e =>
                        log LvError "Unhandled exception in process_update: %s"
                            [LX e] w1
                    end) = (Ok tt, w')
                   /\ media_cache w' = media_cache w
                   /\ (Some v = None -> trace w' = entry_events d ++ trace w)
                   /\ (forall cb sender,
                          Some v = Some (JDict cb) ->
                          dict_get cb "from" (JDict []) = JDict sender ->
                          trace w'
                          = EvLog LvInfo
                                  "Received callback_query from user %s data=%s"
                                  [LJ (dict_get sender "id" JNull);
                                   LJ (dict_get cb "data" JNull)]
                            :: entry_events d ++ trace w)
                   /\ (forall v0,
                          Some v = Some v0 ->
                          (forall cb sender,
                              v0 = JDict cb ->
                              dict_get cb "from" (JDict []) <> JDict sender) ->
                          trace w'
                          = EvLog LvError
                                  "Unhandled exception in process_update: %s"
                                  [LX AttributeError]
                            :: entry_events d ++ trace w)).
  { intros Hv. eexists. split; [reflexivity|]. split; [reflexivity|].
    split; [discriminate|]. split.
    - intros cb sender [= ->] Hs. exfalso. exact (Hv cb sender eq_refl Hs).
    - intros. reflexivity. }
  destruct v as [|b|n|x|s|l|cb]; try (apply Hbad; intros; discriminate).
  destruct (dict_get cb "from" (JDict [])) as [|b|n|x|s|l|sender] eqn:Hs;
    try (apply Hbad; intros cb' sender' [= <-]; rewrite Hs; discriminate).
  eexists. split; [reflexivity|]. split; [reflexivity|].
  split; [discriminate|]. split.
  - intros cb' sender' [= <-] Hs'. rewrite Hs in Hs'. injection Hs' as <-.
    reflexivity.
  - intros v0 [= <-] Hv. exfalso. exact (Hv cb sender eq_refl Hs).
Qed.

(** The body of the [try] sees an update through the message it
    resolves *)
Lemma body_sees_the_message d1 d2 w :
  message_of d1 = message_of d2 ->
  message_of d1 <> JNull ->
  process_update_body cfg env (JDict d1) w
  = process_update_body cfg env (JDict d2) w.
Proof.
  assert (Hbody : forall d,
             message_of d <> JNull ->
             process_update_body cfg env (JDict d) w
             = process_update_body cfg env
                 (JDict [("message", message_of d);
                         ("edited_message", message_of d)]) w).
  { intros d Hnn.
    remember (process_update_body cfg env
                (JDict [("message", message_of d);
                        ("edited_message", message_of d)]) w)
      as rhs eqn:Hrhs.
    unfold process_update_body in Hrhs.
    change (get (JDict [("message", message_of d);
                        ("edited_message", message_of d)]) "message" JNull)
      with (Ok (message_of d)) in Hrhs.
    change (get (JDict [("message", message_of d);
                        ("edited_message", message_of d)])
                "edited_message" JNull)
      with (Ok (message_of d)) in Hrhs.
    unfold bind at 1 in Hrhs. unfold lift at 1 in Hrhs.
    unfold bind at 1 in Hrhs.
    unfold process_update_body. cbn [get].
    unfold bind at 1. unfold lift at 1.
    unfold bind at 1.
    unfold message_of in Hnn, Hrhs.
    revert Hnn Hrhs.
    destruct (truthy
                match lookup "message" d with Some x => x | None => JNull end)
      eqn:Ht.
    - rewrite Ht. unfold ret at 1. unfold ret at 2.
      destruct (match lookup "message" d with Some x => x | None => JNull end);
        intros Hnn ->; try reflexivity; contradiction.
    - unfold lift at 1.
      destruct (match lookup "edited_message" d with
                | Some x => x | None => JNull end) as [|b|n|x|s|l|m];
        intros Hnn ->; try contradiction;
        match goal with
        | |- context [if truthy ?v then _ else _] => destruct (truthy v)
        end; reflexivity. }
  intros Heq Hnn. rewrite (Hbody d1 Hnn), (Hbody d2) by congruence.
  now rewrite Heq.
Qed.

(** X17.  Past its entry record, which lists the keys of the update it
    was given, [process_update] handles an update as it would handle,
    from there, any update that resolves to the same message under
    [message] or [edited_message], [message] first when it is truthy. *)
Theorem same_message_same_dispatch d1 d2 w :
  message_of d1 = message_of d2 ->
  message_of d1 <> JNull ->
  process_update cfg env (JDict d1) w
  = try_except
      (process_update_body cfg env (JDict d2))
      (fun e => log LvError "Unhandled exception in process_update: %s" [LX e])
      (after (entry_events d1) w).
Proof.
  intros Heq Hnn. unfold process_update. cbn [keys].
  unfold bind at 1. unfold emit at 1.
  unfold bind at 1. unfold lift at 1.
  unfold bind at 1. unfold log at 1. unfold emit at 1.
  cbn [trace media_cache log_dir]. unfold try_except.
  rewrite (body_sees_the_message d1 d2 _ Heq Hnn). reflexivity.
Qed.

Lemma eventually_send_message_with chat_id text markup mode data :
  data = [("chat_id", chat_id); ("text", JStr text)]
         ++ match markup with
            | Some rm => [("reply_markup", JStr (json_dumps env rm))]
            | None => []
            end
         ++ match mode with
            | Some pm => if str_truthy pm then [("parse_mode", JStr pm)] else []
            | None => []
            end ->
  eventually (posts (TELEGRAM_API_BASE cfg ++ "/sendMessage")%string
                    (Some data) None)
             (send_message cfg env chat_id text markup mode).
Proof.
  intros ->. unfold send_message. apply eventually_log_then.
  apply (eventually_api_post cfg env "sendMessage").
Qed.

(** X18.  For a text that is a string, stripped of the white space
    around it: a text that starts with [/start] is answered with the
    greeting and the keyboard, and a text that starts with neither
    [/start] nor [/list_cache] is echoed back as stripped.  A text that
    is not a string raises [AttributeError] with no reply. *)
Theorem text_block_replies msg user_id chat_id :
  let url := (TELEGRAM_API_BASE cfg ++ "/sendMessage")%string in
  (forall raw,
      lookup "text" msg = Some (JStr raw) ->
      startswith (strip raw) "/start" = true ->
      eventually
        (posts url
           (Some [("chat_id", chat_id); ("text", JStr GREETING);
                  ("reply_markup", JStr (json_dumps env start_keyboard))])
           None)
        (text_block cfg env (JDict msg) user_id chat_id))
  /\ (forall raw,
         lookup "text" msg = Some (JStr raw) ->
         startswith (strip raw) "/start" = false ->
         startswith (strip raw) "/list_cache" = false ->
         eventually
           (posts url
              (Some [("chat_id", chat_id);
                     ("text", JStr ("Вы написали: " ++ strip raw))])
              None)
           (text_block cfg env (JDict msg) user_id chat_id))
  /\ (forall v w,
         lookup "text" msg = Some v ->
         is_jstr v = false ->
         text_block cfg env (JDict msg) user_id chat_id w
         = (Raise AttributeError, w)).
Proof.
  intros url. split; [|split].
  - intros raw Htext Hstart. unfold text_block.
    cbn [contains subscript]. unfold dict_has, getitem. rewrite Htext.
    apply eventually_lift_ok. apply eventually_lift_ok.
    cbn [str_strip]. apply eventually_lift_ok.
    apply eventually_log_then. rewrite Hstart.
    apply eventually_bind; [|intros; apply emits_ret].
    now apply eventually_send_message_with.
  - intros raw Htext Hstart Hlist. unfold text_block.
    cbn [contains subscript]. unfold dict_has, getitem. rewrite Htext.
    apply eventually_lift_ok. apply eventually_lift_ok.
    cbn [str_strip]. apply eventually_lift_ok.
    apply eventually_log_then. rewrite Hstart, Hlist.
    apply eventually_bind; [|intros; apply emits_ret].
    now apply eventually_send_message_with.
  - intros v w Htext Hv. unfold text_block.
    cbn [contains subscript]. unfold dict_has, getitem. rewrite Htext.
    destruct v; try discriminate; reflexivity.
Qed.

(** X19.  [/list_cache] is answered with the number of cached
    identifiers and the identifiers themselves, one per line in the
    order of the cache, or a word for none; if one of the keys is not a
    string the listing raises [TypeError] and nothing is sent. *)
Theorem list_cache_reply msg raw user_id chat_id w :
  lookup "text" msg = Some (JStr raw) ->
  startswith (strip raw) "/start" = false ->
  startswith (strip raw) "/list_cache" = true ->
  let keys := map fst (media_cache w) in
  let seen :=
    EvLog LvInfo "Text message from %s: %s"
          [LJ user_id; LJ (JStr (prefix 80 (strip raw)))] in
  (forall ids,
      keys = map JStr ids ->
      let listing := match ids with
                     | [] => "нет"
                     | _ :: _ => String.concat newline ids
                     end in
      Exists (posts (TELEGRAM_API_BASE cfg ++ "/sendMessage")%string
                (Some [("chat_id", chat_id);
                       ("text",
                        JStr ("Cached file_ids ("
                              ++ str_of_int (Z.of_nat (List.length ids))
                              ++ "):" ++ newline ++ listing))])
                None)
             (trace (snd (text_block cfg env (JDict msg) user_id chat_id w))))
  /\ (existsb (fun k => negb (is_jstr k)) keys = true ->
      text_block cfg env (JDict msg) user_id chat_id w
      = (Raise TypeError, after [seen] w)).
Proof.
  intros Htext Hstart Hlist keys seen.
  assert (Hrun : text_block cfg env (JDict msg) user_id chat_id w
                 = (listing <- match keys with
                               | [] => ret "нет"
                               | _ :: _ => lift (join newline keys)
                               end ;;
                    send_message cfg env chat_id
                      ("Cached file_ids ("
                       ++ str_of_int (Z.of_nat (List.length keys))
                       ++ "):" ++ newline ++ listing)%string None None ;;
                    ret tt) (after [seen] w)).
  { unfold text_block. cbn [contains subscript]. unfold dict_has, getitem.
    rewrite Htext.
    unfold bind at 1. unfold lift at 1.
    unfold bind at 1. unfold lift at 1. cbn [str_strip].
    unfold bind at 1. unfold lift at 1.
    unfold bind at 1. unfold log at 1. unfold emit at 1.
    rewrite Hstart, Hlist.
    unfold bind at 1. unfold media_cache_keys at 1. reflexivity. }
  rewrite Hrun. split.
  - intros ids Hids listing.
    assert (Hlisting : (match keys with
                        | [] => ret "нет"
                        | _ :: _ => lift (join newline keys)
                        end) (after [seen] w) = (Ok listing, after [seen] w)).
    { rewrite Hids. subst listing. destruct ids as [|s ids]; [reflexivity|].
      change (map JStr (s :: ids)) with (JStr s :: map JStr ids).
      cbv beta iota. unfold lift.
      change (JStr s :: map JStr ids) with (map JStr (s :: ids)).
      now rewrite join_strings. }
    unfold bind at 1. rewrite Hlisting.
    rewrite Hids, length_map.
    apply (eventually_bind _ _ _
             (eventually_send_message cfg env chat_id _)).
    intros; apply emits_ret.
  - intros Hbad. unfold bind at 1.
    destruct keys as [|k keys']; [discriminate|].
    unfold lift. now rewrite (join_not_strings _ _ Hbad).
Qed.

End Blocks.

(** *** Startup, schedule and retention in any environment *)

(** X20.  The next run of the cleanup is set in the month that follows
    the current one: the month stays between 1 and 12 and December is
    followed by January of the next year. *)
Theorem next_month_follows year month :
  1 <= month <= 12 ->
  let '(y, m) := next_month year month in
  1 <= m <= 12 /\ 12 * y + m = 12 * year + month + 1.
Proof.
  intros H. unfold next_month.
  destruct (Z.eqb_spec month 12); lia.
Qed.

Lemma replace_char_clean a b s :
  contains_char a s = false -> replace_char a b s = s.
Proof.
  induction s as [|c s IH]; cbn; [reflexivity|]. intros H.
  apply orb_false_iff in H. destruct H as [Hc Hs].
  now rewrite Hc, (IH Hs).
Qed.

Lemma replace_char_length a b s :
  String.length (replace_char a b s) = String.length s.
Proof. induction s as [|c s IH]; cbn; [reflexivity|]. now rewrite IH. Qed.

(** X21.  The sanitising of a file name keeps its length, changes
    nothing in a name that has neither a slash nor a backslash, and
    changes nothing when applied twice. *)
Theorem safe_name_of_a_clean_name filename :
  String.length (safe_name filename) = String.length filename
  /\ (contains_char "/" filename = false ->
      contains_char backslash filename = false ->
      safe_name filename = filename)
  /\ safe_name (safe_name filename) = safe_name filename.
Proof.
  assert (Hclean : forall f,
             contains_char "/" f = false -> contains_char backslash f = false ->
             safe_name f = f).
  { intros f Hs Hb. unfold safe_name.
    rewrite (replace_char_clean "/" "_" f Hs). now apply replace_char_clean. }
  split; [|split].
  - unfold safe_name. now rewrite !replace_char_length.
  - apply Hclean.
  - destruct (safe_name_clean filename) as [Hs Hb]. now apply Hclean.
Qed.

Section Anywhere.

Context (cfg : Config) (env : Env).

(** X22.  [startup_event] returns normally whatever fails.  Without a
    webhook URL it only writes to the log; with one, it asks the
    platform once to set the webhook to that URL, with the secret when
    one is configured. *)
Theorem startup_event_contract url task w :
  let secret := WEBHOOK_SECRET cfg in
  let data :=
    ("url", JStr url)
    :: (if str_truthy secret then [("secret_token", JStr secret)] else []) in
  exists w',
    startup_event cfg env url task w = (Ok tt, w')
    /\ (url = EmptyString ->
        exists logs, trace w' = logs ++ trace w /\ Forall is_log logs)
    /\ (url <> EmptyString ->
        Exists (posts (TELEGRAM_API_BASE cfg ++ "/setWebhook")%string
                      (Some data) None)
               (trace w')).
Proof.
  intros secret data.
  set (w0 := snd ((log LvInfo "App startup" [] ;;
                   try_except (raise_if task)
                     (fun e =>
                        log LvError
                          "Failed to start monthly cleanup background task: %s"
                          [LX e])) w)).
  assert (Hstart : (log LvInfo "App startup" [] ;;
                    try_except (raise_if task)
                      (fun e =>
                         log LvError
                           "Failed to start monthly cleanup background task: %s"
                           [LX e])) w = (Ok tt, w0)
                   /\ exists logs, trace w0 = logs ++ trace w /\ Forall is_log logs).
  { subst w0. destruct task as [e|]; run.
    - split; [reflexivity|].
      exists [EvLog LvError
                "Failed to start monthly cleanup background task: %s" [LX e];
              EvLog LvInfo "App startup" []].
      split; [reflexivity|]. repeat constructor.
    - split; [reflexivity|]. exists [EvLog LvInfo "App startup" []].
      split; [reflexivity|]. repeat constructor. }
  destruct Hstart as [Hstart Hlogs].
  assert (Hrun : forall rest : M unit,
             (log LvInfo "App startup" [] ;;
              try_except (raise_if task)
                (fun e =>
                   log LvError
                     "Failed to start monthly cleanup background task: %s"
                     [LX e]) ;;
              rest) w = rest w0).
  { intros rest. subst w0. destruct task as [e|]; reflexivity. }
  unfold startup_event. rewrite Hrun.
  destruct (String.eqb_spec url EmptyString) as [->|Hurl].
  - cbn [str_truthy String.eqb negb]. exists w0.
    split; [reflexivity|]. split; [intros _; exact Hlogs|]. congruence.
  - rewrite (str_truthy_true _ Hurl).
    set (hook := set_webhook cfg env url
                   (if str_truthy (WEBHOOK_SECRET cfg)
                    then Some (WEBHOOK_SECRET cfg) else None)).
    assert (Hev : eventually
                    (posts (TELEGRAM_API_BASE cfg ++ "/setWebhook")%string
                           (Some data) None)
                    (try_except (hook ;; ret tt)
                       (fun e =>
                          log LvError "Failed to set webhook on startup: %s"
                              [LX e]))).
    { apply eventually_try_except.
      - apply eventually_bind; [|intros; apply emits_ret].
        subst hook data secret. unfold set_webhook.
        apply eventually_log_then.
        destruct (str_truthy (WEBHOOK_SECRET cfg)) eqn:Hs.
        + rewrite Hs. apply (eventually_api_post cfg env "setWebhook").
        + apply (eventually_api_post cfg env "setWebhook").
      - intros e. repeat emits_step. exact I. }
    specialize (Hev w0). revert Hev. unfold try_except, bind.
    destruct (hook w0) as [[j|e] w1]; run; cbn [snd]; intros Hev.
    + eexists. split; [reflexivity|]. split; [contradiction|]. auto.
    + eexists. split; [reflexivity|]. split; [contradiction|]. auto.
Qed.

Lemma probed_app a b : probed (a ++ b) = probed a ++ probed b.
Proof. induction a as [|[] a IH]; cbn; congruence. Qed.

(** The loop of lines 465-475 in any environment: it returns, it asks
    for the modification time of every log artifact of the listing in
    turn whatever failed before, and what it tries to remove is a log
    artifact whose modification time it has just read as older than the
    cutoff *)
Lemma sweep_goes_on cutoff names :
  forall removed w, exists rm w' new,
    sweep cfg env cutoff names removed w = (Ok rm, w')
    /\ trace w' = new ++ trace w
    /\ media_cache w' = media_cache w
    /\ rev (probed new)
       = map (path_join (LOG_DIR cfg))
             (filter (fun n => negb (not_a_log n)) names)
    /\ (forall p f, In (EvRemove p f) new ->
          exists n t later earlier,
            new = later ++ EvRemove p f :: EvGetmtime p (Ok t) :: earlier
            /\ p = path_join (LOG_DIR cfg) n /\ In n names
            /\ not_a_log n = false /\ Qltb t cutoff = true).
Proof.
  induction names as [|n rest IH]; intros removed w.
  - exists removed, w, []. cbn [sweep]. repeat split; auto.
    intros p f [].
  - cbn [sweep filter]. destruct (not_a_log n) eqn:Hlog; cbn [negb map].
    { destruct (IH removed w) as (rm & w' & new & Hrun & Htr & Hc & Hp & Hrem).
      exists rm, w', new. repeat split; auto.
      intros p f Hin.
      destruct (Hrem p f Hin) as (n0 & t & later & earlier & E & H).
      exists n0, t, later, earlier. split; [exact E|]. cbn [In]. tauto. }
    assert (Hstep : forall removed' w1 step,
               trace w1 = step ++ trace w ->
               media_cache w1 = media_cache w ->
               probed step = [path_join (LOG_DIR cfg) n] ->
               (forall p f, In (EvRemove p f) step ->
                  exists t later,
                    step = later ++ [EvRemove p f; EvGetmtime p (Ok t)]
                    /\ p = path_join (LOG_DIR cfg) n
                    /\ Qltb t cutoff = true) ->
               exists rm w' new,
                 sweep cfg env cutoff rest removed' w1 = (Ok rm, w')
                 /\ trace w' = new ++ trace w
                 /\ media_cache w' = media_cache w
                 /\ rev (probed new)
                    = path_join (LOG_DIR cfg) n
                      :: map (path_join (LOG_DIR cfg))
                             (filter (fun n => negb (not_a_log n)) rest)
                 /\ (forall p f, In (EvRemove p f) new ->
                       exists n0 t later earlier,
                         new = later ++ EvRemove p f :: EvGetmtime p (Ok t)
                                        :: earlier
                         /\ p = path_join (LOG_DIR cfg) n0 /\ In n0 (n :: rest)
                         /\ not_a_log n0 = false /\ Qltb t cutoff = true)).
    { intros removed' w1 step Ht Hc Hp Hrm.
      destruct (IH removed' w1)
        as (rm & w' & new & Hrun & Htr & Hcache & Hprobe & Hrem).
      exists rm, w', (new ++ step). split; [exact Hrun|]. split.
      { rewrite Htr, Ht. apply app_assoc. }
      split; [congruence|]. split.
      { rewrite probed_app, rev_app_distr, Hp, Hprobe. reflexivity. }
      intros p f Hin. apply in_app_or in Hin. destruct Hin as [Hin|Hin].
      - destruct (Hrem p f Hin) as (n0 & t & later & earlier & E & E1 & E2 & E3).
        exists n0, t, later, (earlier ++ step). split.
        { rewrite E, <- app_assoc. reflexivity. }
        cbn [In]. tauto.
      - destruct (Hrm p f Hin) as (t & later & E & E1 & E2).
        exists n, t, (new ++ later), []. split.
        { rewrite E, app_assoc. reflexivity. }
        cbn [In]. tauto. }
    unfold bind at 1. unfold try_except at 1. unfold bind at 1.
    unfold do_getmtime at 1. unfold bind at 1. unfold history at 1.
    destruct (os_getmtime env (trace w) (path_join (LOG_DIR cfg) n)) as [e|].
    { run. eapply (Hstep _ _ [_; _]); try reflexivity.
      intros p f [H|[H|[]]]; discriminate. }
    destruct (file_mtime n (log_dir w)) as [t|] eqn:Hfile.
    2:{ run. eapply (Hstep _ _ [_; _]); try reflexivity.
        intros p f [H|[H|[]]]; discriminate. }
    destruct (Qltb t cutoff) eqn:Hold.
    2:{ run. eapply (Hstep _ _ [_]); try reflexivity.
        intros p f [H|[]]; discriminate. }
    unfold bind at 1. unfold do_remove at 1. unfold bind at 1.
    unfold history at 1. cbn [log_dir trace media_cache].
    destruct (os_remove env _ (path_join (LOG_DIR cfg) n)) as [e|].
    { run. eapply (Hstep _ _ [_; _; _]); try reflexivity.
      intros p f [H|[H|[H|[]]]]; try discriminate.
      injection H as <- <-. eexists t, [_]. repeat split. exact Hold. }
    rewrite Hfile. unfold ret at 1.
    eapply (Hstep _ _ [_; _]); try reflexivity.
    intros p f [H|[H|[]]]; try discriminate.
    injection H as <- <-. exists t, []. repeat split. exact Hold.
Qed.

(** X23.  Whatever fails while it runs, the cleanup leaves the media
    cache alone, and what it tries to remove is a log artifact of the
    listing whose modification time it has just read as older than the
    threshold.  It raises only when the directory cannot be listed, and
    then it stops there; once the directory is listed it returns
    normally, and an error on one file does not end the sweep: it asks
    for the modification time of every log artifact of the listing, in
    the order of the listing. *)
Theorem cleanup_keeps_fresh_files older w :
  let cutoff := (time_time env (trace w) - days older)%Q in
  let listing := map fst (log_dir w) in
  exists r w' new,
    _remove_old_logs cfg env older w = (r, w')
    /\ trace w' = new ++ trace w
    /\ media_cache w' = media_cache w
    /\ (forall p f, In (EvRemove p f) new ->
          exists n t later earlier,
            new = later ++ EvRemove p f :: EvGetmtime p (Ok t) :: earlier
            /\ p = path_join (LOG_DIR cfg) n /\ In n listing
            /\ not_a_log n = false /\ Qltb t cutoff = true)
    /\ (os_listdir env (trace w) (LOG_DIR cfg) = None ->
        r = Ok tt
        /\ rev (probed new)
           = map (path_join (LOG_DIR cfg))
                 (filter (fun n => negb (not_a_log n)) listing))
    /\ (forall e, os_listdir env (trace w) (LOG_DIR cfg) = Some e ->
                  r = Raise e /\ new = [EvListdir (LOG_DIR cfg) (Some e)]).
Proof.
  intros cutoff listing.
  unfold _remove_old_logs.
  unfold bind at 1. unfold now at 1.
  unfold bind at 1. unfold history at 1. unfold ret at 1.
  fold (days older). fold cutoff.
  unfold bind at 1. unfold do_listdir at 1.
  unfold bind at 1. unfold history at 1.
  unfold bind at 1. unfold emit at 1.
  destruct (os_listdir env (trace w) (LOG_DIR cfg)) as [e|].
  { eexists (Raise e), _, [_]. split; [reflexivity|].
    split; [reflexivity|]. split; [reflexivity|]. split; [|split].
    - intros p f [H|[]]. discriminate.
    - discriminate.
    - intros e' [= <-]. split; reflexivity. }
  unfold bind at 1. unfold raise_if at 1. unfold ret at 1.
  cbn [log_dir trace media_cache]. unfold bind at 1. fold listing.
  match goal with
  | |- context [sweep cfg env cutoff listing [] ?w1] =>
      destruct (sweep_goes_on cutoff listing [] w1)
        as (rm & w2 & new & Hrun & Htr & Hcache & Hprobe & Hrem)
  end.
  cbn [log_dir media_cache trace] in Hrun, Htr, Hcache.
  rewrite Hrun.
  assert (Hend : exists ev,
             is_log ev
             /\ match rm with
                | [] => log LvInfo "No old log files to remove" []
                | _ :: _ =>
                    log LvInfo "Removed %d old log files: %s"
                        [LJ (JInt (Z.of_nat (List.length rm)));
                         LJ (JList (map JStr rm))]
                end w2 = (Ok tt, after [ev] w2)).
  { destruct rm as [|p ps]; eexists; split; try reflexivity; exact I. }
  destruct Hend as (ev & Hev & ->).
  exists (Ok tt), (after [ev] w2), (ev :: new ++ [EvListdir (LOG_DIR cfg) None]).
  split; [reflexivity|]. split.
  { cbn [after trace app]. rewrite Htr, <- app_assoc. reflexivity. }
  split; [exact Hcache|]. split; [|split].
  - intros p f [H|H].
    { subst ev. destruct Hev. }
    apply in_app_or in H. destruct H as [H|[H|[]]]; [|discriminate].
    destruct (Hrem p f H) as (n & t & later & earlier & E & E1).
    exists n, t, (ev :: later), (earlier ++ [EvListdir (LOG_DIR cfg) None]).
    split; [|exact E1].
    rewrite E. cbn [app]. rewrite <- app_assoc. reflexivity.
  - intros _. split; [reflexivity|].
    destruct ev; try destruct Hev. cbn [probed].
    rewrite probed_app. cbn [probed]. rewrite app_nil_r. exact Hprobe.
  - discriminate.
Qed.

End Anywhere.

(** ** More runs *)

Import Cases.

Lemma send_media_without_a_source_witness :
  open_rb env_unreadable (trace w0) "cat.jpg" = Some missing_file
  /\ send_photo cfg0 env_unreadable (JInt 9) (Some "cat.jpg") None None w0
     = (Raise missing_file, after [EvOpen "cat.jpg" (Some missing_file)] w0)
  /\ send_photo cfg0 env_unreadable (JInt 9) (Some EmptyString) None None w0
     = (Raise (ValueError "Either photo_path or photo_bytes must be provided"),
        w0).
Proof.
  split; [reflexivity|]. split.
  - apply (proj2 (send_media_without_a_source cfg0 env_unreadable (JInt 9)
                    None w0) "cat.jpg" missing_file); [discriminate|reflexivity].
  - apply (proj1 (send_media_without_a_source cfg0 env_unreadable (JInt 9)
                    None w0) (Some EmptyString)). right. reflexivity.
Defined.

Lemma process_update_not_an_object_witness :
  process_update cfg0 env_ok (JList []) w0
  = (Raise AttributeError, after [EvDispatch (JList [])] w0).
Proof.
  apply (process_update_not_an_object cfg0 env_ok (JList []) w0).
  intros d. discriminate.
Defined.

Lemma distinct_keys_w_two : distinct_keys (media_cache w_two).
Proof. cbn. repeat split; reflexivity. Defined.

Lemma admin_delete_cache_contract_witness :
  exists w',
    admin_delete_cache "a" w_two = (Ok (JDict [("deleted", JStr "a")]), w')
    /\ map fst (media_cache w') = [JStr "b"].
Proof.
  destruct (admin_delete_cache_contract "a" w_two distinct_keys_w_two)
    as (w' & Hrun & Hcache & _).
  exists w'. split; [exact Hrun|]. rewrite Hcache. reflexivity.
Defined.

Lemma store_media_caches_witness :
  get_file_path cfg0 env_ok (JStr "large") w0
  = (Ok (JStr "photos/file_1.jpg"), w_asked env_ok)
  /\ download_file_by_path cfg0 env_ok (JStr "photos/file_1.jpg")
       (w_asked env_ok) = (Ok bs12, w_fetched env_ok)
  /\ map fst (media_cache
                (snd (store_media cfg0 env_ok "photo" PHOTO_SAVED (JStr "large")
                        (JInt 7) (JInt 9) w0)))
     = [JStr "large"].
Proof.
  split; [reflexivity|]. split; [reflexivity|].
  apply (proj2 (store_media_caches cfg0 env_ok "photo" PHOTO_SAVED
                  (JStr "large") (JInt 7) (JInt 9) w0
                  (JStr "photos/file_1.jpg") (w_asked env_ok) bs12
                  (w_fetched env_ok) "file_1.jpg"
                  eq_refl eq_refl eq_refl eq_refl
                  ltac:(discriminate))).
Defined.

Lemma store_media_unhashable_witness :
  hashable (JList [JStr "large"]) = false
  /\ emits stores_nothing
       (store_media cfg0 env_ok "photo" PHOTO_SAVED (JList [JStr "large"])
                    (JInt 7) (JInt 9)).
Proof.
  split; [reflexivity|].
  exact (proj1 (store_media_unhashable cfg0 env_ok "photo" PHOTO_SAVED
                  (JList [JStr "large"]) (JInt 7) (JInt 9) eq_refl)).
Defined.

Lemma acknowledgment_names_the_file_witness :
  write_file env_ok (trace (w_fetched env_ok))
    (media_dest cfg0 env_ok (trace (w_fetched env_ok)) "file_1.jpg") bs12 = None
  /\ exists b w3,
       save_media_to_db cfg0 env_ok bs12 (JInt 7) (JStr "large") "photo"
         (Some "file_1.jpg")
         (written cfg0 env_ok "photo" (JStr "large") (JInt 7) bs12 "file_1.jpg"
                  (w_fetched env_ok)) = (Ok b, w3)
       /\ store_media cfg0 env_ok "photo" PHOTO_SAVED (JStr "large")
            (JInt 7) (JInt 9) w0
          = (send_message cfg0 env_ok (JInt 9)
               (PHOTO_SAVED ++ "1700000000_file_1.jpg" ++ ")")%string None None ;;
             ret tt) w3.
Proof.
  split; [reflexivity|].
  destruct (acknowledgment_names_the_file cfg0 env_ok "photo" PHOTO_SAVED
              (JStr "large") (JInt 7) (JInt 9) w0
              (JStr "photos/file_1.jpg") (w_asked env_ok) bs12
              (w_fetched env_ok) "file_1.jpg"
              eq_refl eq_refl eq_refl eq_refl eq_refl)
    as (b & w3 & Hdb & Hrun & _).
  exists b, w3. split; [exact Hdb|exact Hrun].
Defined.

Lemma handle_message_nothing_to_do_witness :
  lookup "video" sender = None
  /\ lookup "text" sender = None
  /\ handle_message cfg0 env_ok (JDict sender) (JInt 7) (JInt 9) w0
     = (Ok tt, w0).
Proof.
  split; [reflexivity|]. split; [reflexivity|].
  exact (handle_message_nothing_to_do cfg0 env_ok sender (JInt 7) (JInt 9) w0
           I eq_refl eq_refl).
Defined.

Lemma video_failure_contained_witness :
  store_media cfg0 env_no_file "video" VIDEO_SAVED (JStr "clip")
    (JInt 7) (JInt 9) (logged_video w0) = (Raise down, w_video_refused)
  /\ send_message cfg0 env_no_file (JInt 9) VIDEO_ERROR None None
       (after [EvLog LvError "Error processing video: %s" [LX down]]
              w_video_refused) = (Ok api_ok, w_video_noticed)
  /\ (video_block cfg0 env_no_file (JDict video_message) (JInt 7) (JInt 9) ;;
      text_block cfg0 env_no_file (JDict video_message) (JInt 7) (JInt 9)) w0
     = text_block cfg0 env_no_file (JDict video_message) (JInt 7) (JInt 9)
         w_video_noticed.
Proof.
  split; [reflexivity|]. split; [reflexivity|].
  exact (video_failure_contained cfg0 env_no_file video_message
           (JDict [("file_id", JStr "clip")]) (JStr "clip") (JInt 7) (JInt 9)
           w0 down w_video_refused api_ok w_video_noticed
           eq_refl eq_refl eq_refl eq_refl).
Defined.

Lemma update_without_message_witness :
  message_of callback_update = JNull
  /\ exists w',
       process_update cfg0 env_ok (JDict callback_update) w0 = (Ok tt, w')
       /\ trace w'
          = [EvLog LvInfo "Received callback_query from user %s data=%s"
                   [LJ (JInt 7); LJ (JStr "help")];
             EvLog LvInfo "Processing update keys=%s"
                   [LJ (JList [JStr "callback_query"])];
             EvDispatch (JDict callback_update)].
Proof.
  split; [reflexivity|].
  destruct (update_without_message cfg0 env_ok callback_update w0 eq_refl)
    as (w' & Hrun & _ & _ & Hcb & _).
  exists w'. split; [exact Hrun|].
  exact (Hcb [("from", JDict [("id", JInt 7)]); ("data", JStr "help")]
             [("id", JInt 7)] eq_refl eq_refl).
Defined.

Lemma same_message_same_dispatch_witness :
  message_of [("edited_message", JDict photo_message)]
  = message_of [("message", JDict photo_message)]
  /\ process_update cfg0 env_ok
       (JDict [("edited_message", JDict photo_message)]) w0
     = try_except
         (process_update_body cfg0 env_ok
            (JDict [("message", JDict photo_message)]))
         (fun e => log LvError "Unhandled exception in process_update: %s"
                       [LX e])
         (after (entry_events [("edited_message", JDict photo_message)]) w0).
Proof.
  split; [reflexivity|].
  apply (same_message_same_dispatch cfg0 env_ok
           [("edited_message", JDict photo_message)]
           [("message", JDict photo_message)] w0 eq_refl).
  discriminate.
Defined.

Lemma list_cache_reply_witness :
  lookup "text" list_message = Some (JStr " /list_cache ")
  /\ Exists (posts "https://api.telegram.org/botT/sendMessage"
               (Some [("chat_id", JInt 9);
                      ("text",
                       JStr ("Cached file_ids (2):" ++ newline ++ "a"
                             ++ newline ++ "b"))])
               None)
            (trace (snd (text_block cfg0 env_ok (JDict list_message)
                           (JInt 7) (JInt 9) w_two))).
Proof.
  split; [reflexivity|].
  exact (proj1 (list_cache_reply cfg0 env_ok list_message " /list_cache "
                  (JInt 7) (JInt 9) w_two eq_refl eq_refl eq_refl)
               ["a"; "b"] eq_refl).
Defined.

Lemma next_month_follows_witness :
  next_month 2024 12 = (2025, 1) /\ 12 * 2025 + 1 = 12 * 2024 + 12 + 1.
Proof.
  split; [reflexivity|].
  exact (proj2 (next_month_follows 2024 12 ltac:(lia))).
Defined.

(** One file of the directory cannot be removed: the error is logged
    and the sweep goes on to the file listed after it *)
Example locked_file_does_not_stop_the_sweep :
  _remove_old_logs cfg0 env_one_locked 31 w_logs
  = (Ok tt,
     {| trace :=
          [EvLog LvInfo "Removed %d old log files: %s"
                 [LJ (JInt 1); LJ (JList [JStr "./logs/bot.log.2022-10-10"])];
           EvRemove "./logs/bot.log.2022-10-10" None;
           EvGetmtime "./logs/bot.log.2022-10-10" (Ok (ago 400));
           EvLog LvError "Error while removing log file %s: %s"
                 [LJ (JStr "./logs/bot.log.2023-10-05"); LX locked];
           EvRemove "./logs/bot.log.2023-10-05" (Some locked);
           EvGetmtime "./logs/bot.log.2023-10-05" (Ok (ago 40));
           EvGetmtime "./logs/bot.log.2023-11-04" (Ok (ago 10));
           EvListdir "./logs" None];
        media_cache := [];
        log_dir := [("bot.log.2023-11-04", ago 10);
                    ("bot.log.2023-10-05", ago 40);
                    ("notes.txt", ago 400)] |}).
Proof. reflexivity. Qed.

(** A text in Cyrillic between two wide spaces is echoed without them *)
Example echo_of_a_cyrillic_text :
  strip " для всех　" = "для всех"
  /\ Exists (posts "https://api.telegram.org/botT/sendMessage"
               (Some [("chat_id", JInt 9);
                      ("text", JStr "Вы написали: для всех")])
               None)
            (trace (snd (text_block cfg0 env_ok
                           (JDict (sender ++ [("text", JStr " для всех　")]))
                           (JInt 7) (JInt 9) w0))).
Proof.
  split; [reflexivity|]. constructor. eexists. reflexivity.
Qed.
